(** * A Redis-backed Bloom filter ([bloomfilter.py])

    Shallow embedding of the three functions of [bloomfilter.py]
    ([initialize_bloom_filter], [add_to_bloom_filter], [check_bloom_filter])
    over a model of the Redis commands they issue, and the properties of
    the filter proved on that embedding.

    Modelling conventions.
    - Python [int] is [Z]; [%] on ints is [Z.modulo] (the sign follows the
      divisor), a zero divisor raises [ZeroDivisionError].
    - Python [bytes] and [str] are both carried by [string] (a [str] by its
      UTF-8 bytes); the two Python types are told apart by the
      constructors of [pyobj].
    - Python [float] is an IEEE 754 binary64 number, carried by the
      standard library's executable specification [spec_float] at precision
      53: every operation rounds to nearest, ties to even, and overflows to
      an infinity.  The C library's [log] and [pow], which [math.log] and
      [**] call, are parameters.
    - The Redis server is a finite map from key names to typed values
      (byte strings and hashes).  Commands on a key of the wrong type are
      refused, as is a negative bit offset.  The server's configurable
      size limits and connection failures are not modelled. *)

From Stdlib Require Import ZArith List Ascii String Lia Reals Lra.
From Stdlib Require Import DecimalString DecimalPos.
From Stdlib Require Import SpecFloat.
From stdpp Require Import base gmap strings.

Local Open Scope Z_scope.
Local Open Scope string_scope.

(** ** The hash primitive: [mmh3.hash(key, seed)]

    [mmh3.hash] is MurmurHash3_x86_32 of the UTF-8 bytes of [key], returned
    as a signed 32-bit integer.  The seed is read as an unsigned 32-bit
    value. *)
Module Mmh3.

Definition mask32 : Z := 0xFFFFFFFF.

Definition u32 (x : Z) : Z := Z.land x mask32.

Definition rotl32 (x : Z) (r : Z) : Z :=
  u32 (Z.lor (Z.shiftl x r) (Z.shiftr x (32 - r))).

Definition c1 : Z := 0xcc9e2d51.
Definition c2 : Z := 0x1b873593.

Definition byte_val (a : ascii) : Z := Z.of_N (N_of_ascii a).

(** The per-block scrambling of [k1]. *)
Definition mix_k1 (k1 : Z) : Z :=
  u32 (rotl32 (u32 (k1 * c1)) 15 * c2).

Definition mix_h1 (h1 k1 : Z) : Z :=
  u32 (rotl32 (Z.lxor h1 (mix_k1 k1)) 13 * 5 + 0xe6546b64).

Definition fmix32 (h : Z) : Z :=
  let h := Z.lxor h (Z.shiftr h 16) in
  let h := u32 (h * 0x85ebca6b) in
  let h := Z.lxor h (Z.shiftr h 13) in
  let h := u32 (h * 0xc2b2ae35) in
  Z.lxor h (Z.shiftr h 16).

(** Little-endian 32-bit word of four bytes. *)
Definition le32 (a b c d : ascii) : Z :=
  Z.lor (byte_val a)
    (Z.lor (Z.shiftl (byte_val b) 8)
       (Z.lor (Z.shiftl (byte_val c) 16) (Z.shiftl (byte_val d) 24))).

(** The body loop over whole 4-byte blocks, then the 0 to 3 tail bytes. *)
Fixpoint blocks (s : string) (h1 : Z) : Z :=
  match s with
  | String a (String b (String c (String d rest))) =>
      blocks rest (mix_h1 h1 (le32 a b c d))
  | String a (String b (String c EmptyString)) =>
      Z.lxor h1 (mix_k1 (le32 a b c zero))
  | String a (String b EmptyString) =>
      Z.lxor h1 (mix_k1 (le32 a b zero zero))
  | String a EmptyString =>
      Z.lxor h1 (mix_k1 (le32 a zero zero zero))
  | EmptyString => h1
  end.

Definition murmur3_x86_32 (key : string) (seed : Z) : Z :=
  fmix32 (Z.lxor (blocks key (u32 seed)) (u32 (Z.of_nat (String.length key)))).

(** Reinterpretation of an unsigned 32-bit value as a signed one. *)
Definition to_signed32 (x : Z) : Z :=
  if Z.ltb x (2 ^ 31) then x else x - 2 ^ 32.

Definition hash (key : string) (seed : Z) : Z :=
  to_signed32 (murmur3_x86_32 key seed).

End Mmh3.

(** ** Python values and exceptions *)

(** The objects met in the mapping returned by [hgetall]. *)
Inductive pyobj : Type :=
  | PyBytes (b : string)
  | PyStr (s : string).

Global Instance pyobj_eq_dec : EqDecision pyobj.
Proof. solve_decision. Defined.

Global Instance pyobj_countable : Countable pyobj.
Proof.
  refine (inj_countable'
            (fun o => match o with PyBytes b => inl b | PyStr s => inr s end)
            (fun x => match x with inl b => PyBytes b | inr s => PyStr s end) _).
  intros []; reflexivity.
Defined.

(** The keys handed to the filter: a text or an integer. *)
Inductive pyitem : Type :=
  | ItemStr (s : string)
  | ItemInt (n : Z).

Inductive exn : Type :=
  | ValueError (msg : string)
  | KeyError (key : pyobj)
  | ZeroDivisionError
  | OverflowError (msg : string)
  | ResponseError (msg : string).

Inductive outcome (A : Type) : Type :=
  | Return (a : A)
  | Raise (e : exn).
Arguments Return {A} a.
Arguments Raise {A} e.

(** [str(n)] for an int. *)
Definition str_of_int (n : Z) : string := NilZero.string_of_int (Z.to_int n).

(** [str(item)] *)
Definition py_str (item : pyitem) : string :=
  match item with
  | ItemStr s => s
  | ItemInt n => str_of_int n
  end.

(** [int(text)] in base 10, for ASCII text: surrounding white space, an
    optional sign, then digits in which single underscores may separate
    digits. *)
Definition is_space (a : ascii) : bool :=
  let n := N_of_ascii a in
  (N.eqb n 32 || (N.leb 9 n && N.leb n 13))%bool.

Definition digit_val (a : ascii) : option Z :=
  let n := N_of_ascii a in
  if (N.leb 48 n && N.leb n 57)%bool then Some (Z.of_N n - 48) else None.

Fixpoint lstrip (s : string) : string :=
  match s with
  | String a r => if is_space a then lstrip r else s
  | EmptyString => EmptyString
  end.

Definition strip (s : string) : string :=
  String.rev (lstrip (String.rev (lstrip s))).

Fixpoint int_digits (s : string) (acc : Z) (after_digit : bool) : option Z :=
  match s with
  | EmptyString => if after_digit then Some acc else None
  | String a r =>
      match digit_val a with
      | Some d => int_digits r (10 * acc + d) true
      | None =>
          if (Ascii.eqb a "_" && after_digit)%bool
          then int_digits r acc false
          else None
      end
  end.

Definition int_of_text (s : string) : option Z :=
  match strip s with
  | String "-" r => Z.opp <$> int_digits r 0 false
  | String "+" r => int_digits r 0 false
  | r => int_digits r 0 false
  end.

Definition obj_text (o : pyobj) : string :=
  match o with PyBytes b => b | PyStr s => s end.

Definition invalid_literal : string := "invalid literal for int() with base 10".

(** [isinstance(o, bytes)] *)
Definition is_bytes (o : pyobj) : bool :=
  match o with PyBytes _ => true | PyStr _ => false end.

(** ** The Redis server and client *)

(** A key holds a byte string or a hash of fields. *)
Inductive rvalue : Type :=
  | RString (s : string)
  | RHash (h : gmap string string).

Inductive command : Type :=
  | HSET (key : string) (mapping : list (string * string))
  | HGETALL (key : string)
  | SET (key : string) (value : string)
  | SETBIT (key : string) (offset : Z) (value : Z)
  | GETBIT (key : string) (offset : Z).

(** The server: the key space and the commands received so far, oldest
    first. *)
Record server : Type := Server {
  db : gmap string rvalue;
  log : list command
}.

Record client : Type := Client {
  decode_responses : bool
}.

(** Computations that talk to the server and may raise. *)
Definition M (A : Type) : Type := server -> outcome A * server.

Global Instance M_ret : MRet M := fun A a s => (Return a, s).

Global Instance M_bind : MBind M := fun A B f m s =>
  match m s with
  | (Return a, s') => f a s'
  | (Raise e, s') => (Raise e, s')
  end.

Definition raise {A : Type} (e : exn) : M A := fun s => (Raise e, s).

Definition received (c : command) (s : server) : server :=
  Server (db s) (log s ++ [c]).

Definition wrongtype : string :=
  "WRONGTYPE Operation against a key holding the wrong kind of value".

Definition bad_offset : string :=
  "ERR bit offset is not an integer or out of range".

(** *** Bits of a byte string.  Bit 0 of a byte is its most significant
    bit, as SETBIT and GETBIT number them. *)
Definition ascii_getbit (a : ascii) (p : nat) : bool :=
  let '(Ascii b0 b1 b2 b3 b4 b5 b6 b7) := a in
  match p with
  | 0%nat => b7 | 1%nat => b6 | 2%nat => b5 | 3%nat => b4
  | 4%nat => b3 | 5%nat => b2 | 6%nat => b1 | 7%nat => b0
  | _ => false
  end.

Definition ascii_setbit (a : ascii) (p : nat) (v : bool) : ascii :=
  let '(Ascii b0 b1 b2 b3 b4 b5 b6 b7) := a in
  match p with
  | 0%nat => Ascii b0 b1 b2 b3 b4 b5 b6 v
  | 1%nat => Ascii b0 b1 b2 b3 b4 b5 v b7
  | 2%nat => Ascii b0 b1 b2 b3 b4 v b6 b7
  | 3%nat => Ascii b0 b1 b2 b3 v b5 b6 b7
  | 4%nat => Ascii b0 b1 b2 v b4 b5 b6 b7
  | 5%nat => Ascii b0 b1 v b3 b4 b5 b6 b7
  | 6%nat => Ascii b0 v b2 b3 b4 b5 b6 b7
  | 7%nat => Ascii v b1 b2 b3 b4 b5 b6 b7
  | _ => a
  end.

(** Reading past the end of the string yields 0. *)
Fixpoint str_getbit (s : string) (byte : nat) (p : nat) : bool :=
  match s, byte with
  | EmptyString, _ => false
  | String a _, O => ascii_getbit a p
  | String _ r, S n => str_getbit r n p
  end.

(** Writing past the end pads the string with zero bytes. *)
Fixpoint str_setbit (s : string) (byte : nat) (p : nat) (v : bool) : string :=
  match byte, s with
  | O, EmptyString => String (ascii_setbit zero p v) EmptyString
  | O, String a r => String (ascii_setbit a p v) r
  | S n, EmptyString => String zero (str_setbit EmptyString n p v)
  | S n, String a r => String a (str_setbit r n p v)
  end.

Definition byte_index (offset : Z) : nat := Z.to_nat (Z.shiftr offset 3).
Definition bit_in_byte (offset : Z) : nat := Z.to_nat (Z.land offset 7).

Definition getbit_at (s : string) (offset : Z) : bool :=
  str_getbit s (byte_index offset) (bit_in_byte offset).

Definition setbit_at (s : string) (offset : Z) (v : bool) : string :=
  str_setbit s (byte_index offset) (bit_in_byte offset) v.

Definition Z_of_bool (b : bool) : Z := if b then 1 else 0.

(** *** Commands *)

(** [redis_client.hset(key, mapping=...)]: the fields are written, in
    order, over the hash already there, if any; the reply is the number of
    fields that were new. *)
Definition write_fields (h : gmap string string) (mapping : list (string * string))
  : gmap string string :=
  fold_left (fun h fv => <[fv.1 := fv.2]> h) mapping h.

Definition hset (c : client) (key : string) (mapping : list (string * string))
  : M Z :=
  fun s =>
    let s := received (HSET key mapping) s in
    match db s !! key with
    | Some (RString _) => (Raise (ResponseError wrongtype), s)
    | Some (RHash h) =>
        let h' := write_fields h mapping in
        (Return (Z.of_nat (size h') - Z.of_nat (size h)),
         Server (<[key := RHash h']> (db s)) (log s))
    | None =>
        let h' := write_fields ∅ mapping in
        (Return (Z.of_nat (size h')),
         Server (<[key := RHash h']> (db s)) (log s))
    end.

(** The reply of HGETALL as the Python mapping the client builds: field
    names and values are [bytes], or [str] when the client was created with
    [decode_responses=True]. *)
Definition decode (c : client) (b : string) : pyobj :=
  if decode_responses c then PyStr b else PyBytes b.

Definition reply_dict (c : client) (h : gmap string string) : gmap pyobj pyobj :=
  kmap (decode c) (decode c <$> h).

Definition hgetall (c : client) (key : string) : M (gmap pyobj pyobj) :=
  fun s =>
    let s := received (HGETALL key) s in
    match db s !! key with
    | Some (RString _) => (Raise (ResponseError wrongtype), s)
    | Some (RHash h) => (Return (reply_dict c h), s)
    | None => (Return ∅, s)
    end.

(** [redis_client.set(key, value)] replaces whatever the key held. *)
Definition set (c : client) (key : string) (value : string) : M bool :=
  fun s =>
    let s := received (SET key value) s in
    (Return true, Server (<[key := RString value]> (db s)) (log s)).

(** [redis_client.setbit(key, offset, value)]; the reply is the bit's
    previous value. *)
Definition setbit (c : client) (key : string) (offset : Z) (value : Z) : M Z :=
  fun s =>
    let value := if Z.eqb value 0 then 0 else 1 in
    let s := received (SETBIT key offset value) s in
    if Z.ltb offset 0 then (Raise (ResponseError bad_offset), s) else
    match db s !! key with
    | Some (RHash _) => (Raise (ResponseError wrongtype), s)
    | Some (RString buf) =>
        (Return (Z_of_bool (getbit_at buf offset)),
         Server (<[key := RString (setbit_at buf offset (negb (Z.eqb value 0)))]> (db s))
                (log s))
    | None =>
        (Return 0,
         Server (<[key := RString (setbit_at EmptyString offset (negb (Z.eqb value 0)))]> (db s))
                (log s))
    end.

(** [redis_client.getbit(key, offset)] *)
Definition getbit (c : client) (key : string) (offset : Z) : M Z :=
  fun s =>
    let s := received (GETBIT key offset) s in
    if Z.ltb offset 0 then (Raise (ResponseError bad_offset), s) else
    match db s !! key with
    | Some (RHash _) => (Raise (ResponseError wrongtype), s)
    | Some (RString buf) => (Return (Z_of_bool (getbit_at buf offset)), s)
    | None => (Return 0, s)
    end.

(** ** Python expressions used by the filter *)

Global Instance outcome_ret : MRet outcome := fun A a => Return a.

Global Instance outcome_bind : MBind outcome := fun A B f m =>
  match m with
  | Return a => f a
  | Raise e => Raise e
  end.

(** A computation that does not talk to the server. *)
Definition lift {A : Type} (o : outcome A) : M A := fun s => (o, s).

(** [d[key]] *)
Definition getitem (d : gmap pyobj pyobj) (key : pyobj) : outcome pyobj :=
  match d !! key with
  | Some v => Return v
  | None => Raise (KeyError key)
  end.

(** [int(o)] for a [bytes] or [str] object. *)
Definition py_int (o : pyobj) : outcome Z :=
  match int_of_text (obj_text o) with
  | Some n => Return n
  | None => Raise (ValueError invalid_literal)
  end.

(** [a % b] on ints. *)
Definition py_mod (a b : Z) : outcome Z :=
  if Z.eqb b 0 then Raise ZeroDivisionError else Return (a mod b).

(** [range(k)] *)
Definition py_range (k : Z) : list Z := Z.of_nat <$> seq 0 (Z.to_nat k).

(** [for i in l: body], where the body either falls through to the next
    iteration ([None]) or returns from the enclosing function ([Some r]);
    [after] is the code following the loop. *)
Fixpoint for_in {A : Type} (l : list Z) (body : Z -> M (option A)) (after : M A)
  : M A :=
  match l with
  | [] => after
  | i :: l' =>
      r ← body i;
      match r with
      | Some a => mret a
      | None => for_in l' body after
      end
  end.

(** *** Floats *)

Definition float : Type := spec_float.

(** [x * y], [x / y] (for a non-zero [y]) and [-x] on floats. *)
Definition float_mul : float -> float -> float := SFmul 53 1024.
Definition float_quotient : float -> float -> float := SFdiv 53 1024.
Definition float_neg : float -> float := SFopp.

Definition is_nan (x : float) : bool :=
  match x with S754_nan => true | _ => false end.

Definition is_inf (x : float) : bool :=
  match x with S754_infinity _ => true | _ => false end.

Definition is_finite (x : float) : bool :=
  match x with S754_zero _ | S754_finite _ _ _ => true | _ => false end.

Definition is_zero (x : float) : bool :=
  match x with S754_zero _ => true | _ => false end.

(** The floats 1.0 and 2.0. *)
Definition float_one : float := S754_finite false 4503599627370496 (-52).
Definition float_two : float := S754_finite false 4503599627370496 (-51).

(** The conversion of an int that meets a float in arithmetic: the nearest
    float, [OverflowError] when that is an infinity. *)
Definition float_of_int (n : Z) : outcome float :=
  let x := binary_normalize 53 1024 n 0 false in
  if is_inf x
  then Raise (OverflowError "int too large to convert to float")
  else Return x.

(** [int(x)] for a float: truncation toward zero. *)
Definition int_of_float (x : float) : outcome Z :=
  match x with
  | S754_zero _ => Return 0
  | S754_infinity _ =>
      Raise (OverflowError "cannot convert float infinity to integer")
  | S754_nan => Raise (ValueError "cannot convert float NaN to integer")
  | S754_finite s m e =>
      let a := if Z.leb 0 e then Z.shiftl (Zpos m) e
               else Z.shiftr (Zpos m) (- e) in
      Return (if s then - a else a)
  end.

(** [a / b] on ints (true division): the exact quotient rounded once to the
    nearest float. *)
Definition true_div (a b : Z) : outcome float :=
  if Z.eqb b 0 then Raise ZeroDivisionError else
  let s := xorb (Z.ltb a 0) (Z.ltb b 0) in
  match Z.abs a with
  | Z0 => Return (S754_zero s)
  | _ =>
      let '(q, e, l) := SFdiv_core_binary 53 1024 (Z.abs a) 0 (Z.abs b) 0 in
      let x := binary_round_aux 53 1024 s q e l in
      if is_inf x
      then Raise (OverflowError "integer division result too large for a float")
      else Return x
  end.

(** [x / y] on floats. *)
Definition float_div (x y : float) : outcome float :=
  if is_zero y then Raise ZeroDivisionError else Return (float_quotient x y).

(** The C library's [log] and [pow] on doubles. *)
Record clib : Type := Clib {
  c_log : float -> float;
  c_pow : float -> float -> float
}.

Section Math.

Variable libc : clib.

(** The wrapper [m_log] of the [math] module around the C library's
    [log]. *)
Definition m_log (x : float) : float :=
  match x with
  | S754_finite false _ _ => c_log libc x
  | S754_finite true _ _ => S754_nan
  | S754_zero _ => S754_infinity true
  | S754_nan => S754_nan
  | S754_infinity false => x
  | S754_infinity true => S754_nan
  end.

(** [math.log(x)] for a float [x]. *)
Definition math_log (x : float) : outcome float :=
  let r := m_log x in
  if (is_nan r && negb (is_nan x))%bool
  then Raise (ValueError "math domain error")
  else if (is_inf r && is_finite x)%bool
  then Raise (ValueError "math domain error")
  else Return r.

(** [math.log(2)], for the int 2. *)
Definition math_log_2 : float := m_log float_two.

(** [x ** 2] for a float [x]. *)
Definition float_pow_2 (x : float) : outcome float :=
  match x with
  | S754_nan => Return x
  | S754_infinity _ => Return (S754_infinity false)
  | S754_zero _ => Return (S754_zero false)
  | S754_finite _ m e =>
      let v := S754_finite false m e in
      if SFeqb v float_one then Return float_one else
      let r := c_pow libc v float_two in
      if is_inf r
      then Raise (OverflowError "(34, 'Numerical result out of range')")
      else Return r
  end.

End Math.

(** [b'\x00' * n] *)
Definition zero_bytes (n : Z) : string :=
  string_of_list_ascii (repeat zero (Z.to_nat n)).

(** ** The filter *)

Section Sizing.

Variable libc : clib.

(** Line 22 inside [int(...)]: the float
    [-(expected_elements * math.log(false_positive_rate)) / (math.log(2) ** 2)]. *)
Definition m_float (expected_elements : Z) (false_positive_rate : float)
  : outcome float :=
  lp ← math_log libc false_positive_rate;
  nf ← float_of_int expected_elements;
  den ← float_pow_2 libc (math_log_2 libc);
  float_div (float_neg (float_mul nf lp)) den.

(** Line 26 inside [int(...)]: the float
    [(m / expected_elements) * math.log(2)]. *)
Definition k_float (m expected_elements : Z) : outcome float :=
  q ← true_div m expected_elements;
  mret (float_mul q (math_log_2 libc)).

(** Lines 22 and 26 of [initialize_bloom_filter]: the sizes before the
    floors are applied. *)
Definition raw_sizing (expected_elements : Z) (false_positive_rate : float)
  : outcome (Z * Z) :=
  x ← m_float expected_elements false_positive_rate;
  m ← int_of_float x;
  y ← k_float m expected_elements;
  k ← int_of_float y;
  mret (m, k).

(** Lines 30 and 31: [k = max(1, k)], [m = max(100, m)]. *)
Definition floors (mk : Z * Z) : Z * Z :=
  let k := Z.max 1 mk.2 in
  let m := Z.max 100 mk.1 in
  (m, k).

Definition sizing (expected_elements : Z) (false_positive_rate : float)
  : outcome (Z * Z) :=
  mk ← raw_sizing expected_elements false_positive_rate;
  mret (floors mk).

End Sizing.

(** The default of the parameter [false_positive_rate], 0.01. *)
Definition default_false_positive_rate : float :=
  S754_finite false 5764607523034235 (-59).

(** The dict returned by [initialize_bloom_filter]. *)
Record filter_info : Type := FilterInfo {
  info_name : string;
  info_size : Z;
  info_hash_functions : Z;
  info_expected_elements : Z;
  info_false_positive_rate : float
}.

Definition metadata_key (filter_name : string) : string :=
  filter_name ++ ":metadata".

Definition bits_key (filter_name : string) : string :=
  filter_name ++ ":bits".

Section Initialize.

Variable libc : clib.

(** The text the client sends for a float, [repr(x)]. *)
Variable repr_float : float -> string.

Definition metadata_mapping (m k expected_elements : Z)
    (false_positive_rate : float) : list (string * string) :=
  [("size", str_of_int m);
   ("hash_functions", str_of_int k);
   ("expected_elements", str_of_int expected_elements);
   ("false_positive_rate", repr_float false_positive_rate)].

Definition initialize_bloom_filter (redis_client : client) (filter_name : string)
    (expected_elements : Z) (false_positive_rate : float) : M filter_info :=
  mk ← lift (sizing libc expected_elements false_positive_rate);
  let m := mk.1 in
  let k := mk.2 in
  _ ← hset redis_client (metadata_key filter_name)
        (metadata_mapping m k expected_elements false_positive_rate);
  _ ← set redis_client (bits_key filter_name) (zero_bytes ((m + 7) / 8));
  mret (FilterInfo filter_name m k expected_elements false_positive_rate).

End Initialize.

(** [int(metadata[b'f']) if isinstance(metadata[b'f'], bytes)
     else int(metadata['f'])] *)
Definition load_field (metadata : gmap pyobj pyobj) (field : string) : outcome Z :=
  v ← getitem metadata (PyBytes field);
  if is_bytes v
  then v ← getitem metadata (PyBytes field); py_int v
  else v ← getitem metadata (PyStr field); py_int v.

Definition not_found_add (filter_name : string) : string :=
  "Bloom filter '" ++ filter_name
    ++ "' not found. Initialize it first. Revolutionary concept, I know.".

Definition not_found_check (filter_name : string) : string :=
  "Bloom filter '" ++ filter_name
    ++ "' not found. Maybe try remembering things you create?".

Definition add_to_bloom_filter (redis_client : client) (filter_name : string)
    (item : pyitem) : M bool :=
  metadata ← hgetall redis_client (metadata_key filter_name);
  if decide (metadata = ∅) then raise (ValueError (not_found_add filter_name)) else
  m ← lift (load_field metadata "size");
  k ← lift (load_field metadata "hash_functions");
  let item_str := py_str item in
  for_in (py_range k)
    (fun i =>
       hash_val ← lift (py_mod (Mmh3.hash item_str i) m);
       _ ← setbit redis_client (bits_key filter_name) hash_val 1;
       mret None)
    (mret true).

Definition check_bloom_filter (redis_client : client) (filter_name : string)
    (item : pyitem) : M bool :=
  metadata ← hgetall redis_client (metadata_key filter_name);
  if decide (metadata = ∅) then raise (ValueError (not_found_check filter_name)) else
  m ← lift (load_field metadata "size");
  k ← lift (load_field metadata "hash_functions");
  let item_str := py_str item in
  for_in (py_range k)
    (fun i =>
       hash_val ← lift (py_mod (Mmh3.hash item_str i) m);
       bit_set ← getbit redis_client (bits_key filter_name) hash_val;
       if Z.eqb bit_set 0 then mret (Some false) else mret None)
    (mret true).

(** The server after a computation, and its result. *)
Definition result_of {A : Type} (m : M A) (s : server) : outcome A := (m s).1.
Definition server_after {A : Type} (m : M A) (s : server) : server := (m s).2.

(** ** Notions used in the statements *)

(** The bit at [offset] of the byte string held by [key] is set. *)
Definition bit_on (d : gmap string rvalue) (key : string) (offset : Z) : Prop :=
  exists buf, d !! key = Some (RString buf) /\ getbit_at buf offset = true.

(** The byte string GETBIT reads at [key]: a missing key reads as the empty
    string, a hash is refused. *)
Definition bit_buffer (d : gmap string rvalue) (key : string) : option string :=
  match d !! key with
  | Some (RString buf) => Some buf
  | Some (RHash _) => None
  | None => Some EmptyString
  end.

(** [s'] keeps every hash of [s] and every set bit of [s]. *)
Definition grows (s s' : server) : Prop :=
  (forall key h, db s !! key = Some (RHash h) -> db s' !! key = Some (RHash h)) /\
  (forall key offset, bit_on (db s) key offset -> bit_on (db s') key offset).

Definition monotone {A : Type} (m : M A) : Prop :=
  forall s, grows s (m s).2.

(** The calls other callers make between an insert and a later query. *)
Inductive call : Type :=
  | CallAdd (redis_client : client) (filter_name : string) (item : pyitem)
  | CallCheck (redis_client : client) (filter_name : string) (item : pyitem).

Definition run_call (c : call) (s : server) : server :=
  match c with
  | CallAdd rc name item => server_after (add_to_bloom_filter rc name item) s
  | CallCheck rc name item => server_after (check_bloom_filter rc name item) s
  end.

Definition run_calls (l : list call) (s : server) : server :=
  fold_left (fun s c => run_call c s) l s.

(** The body of the loop of [add_to_bloom_filter]. *)
Definition add_body (redis_client : client) (filter_name item_str : string) (m : Z)
  : Z -> M (option bool) :=
  fun i =>
    hash_val ← lift (py_mod (Mmh3.hash item_str i) m);
    _ ← setbit redis_client (bits_key filter_name) hash_val 1;
    mret None.

(** The body of the loop of [check_bloom_filter]. *)
Definition check_body (redis_client : client) (filter_name item_str : string) (m : Z)
  : Z -> M (option bool) :=
  fun i =>
    hash_val ← lift (py_mod (Mmh3.hash item_str i) m);
    bit_set ← getbit redis_client (bits_key filter_name) hash_val;
    if Z.eqb bit_set 0 then mret (Some false) else mret None.

(** The indices a short-circuiting scan visits: up to and including the
    first one at which [f] is false. *)
Fixpoint probed (f : Z -> bool) (l : list Z) : list Z :=
  match l with
  | [] => []
  | i :: r => i :: (if f i then probed f r else [])
  end.

(** The sizing formulas as the specification words them: a ceiling for the
    raw size, a rounding to the nearest integer for the raw count. *)
Definition ceiling (x : R) : Z := - Int_part (- x).

Definition nearest (x : R) : Z := Int_part (x + / 2).

Definition spec_m_raw (n : Z) (p : R) : Z :=
  ceiling (- (IZR n * ln p) / (ln 2 ^ 2))%R.

Definition spec_k_raw (n : Z) (p : R) : Z :=
  nearest (IZR (spec_m_raw n p) / IZR n * ln 2)%R.

(** Sample client and store: a filter of 100 bits and 3 hash functions under
    the name [ids], nothing inserted yet. *)
Definition sample_client : client := Client false.

Definition sample_metadata : gmap string string :=
  <["size" := "100"]> (<["hash_functions" := "3"]> ∅).

Definition sample_server : server :=
  Server (<[metadata_key "ids" := RHash sample_metadata]>
            (<[bits_key "ids" := RString (zero_bytes 13)]> ∅)) [].

(** The sample store after [add_to_bloom_filter(redis_client, "ids", "foo")],
    and the bit buffer it then holds. *)
Definition sample_after_foo : server :=
  server_after (add_to_bloom_filter sample_client "ids" (ItemStr "foo"))
    sample_server.

Definition sample_buffer : string :=
  match bit_buffer (db sample_after_foo) (bits_key "ids") with
  | Some buf => buf
  | None => EmptyString
  end.

(** A stand-in for [repr] on floats in the examples. *)
Definition sample_repr (x : float) : string := "0.01".

(** The real number a finite float stands for. *)
Definition float_value (x : float) : R :=
  match x with
  | S754_finite s m e => (IZR (cond_Zopp s (Zpos m)) * powerRZ 2 e)%R
  | _ => 0%R
  end.

(** [z] is [x] truncated toward zero. *)
Definition toward_zero (x : R) (z : Z) : Prop :=
  ((0 <= x)%R -> (IZR z <= x < IZR z + 1)%R) /\
  ((x <= 0)%R -> (IZR z - 1 < x <= IZR z)%R).

(** *** Notions for the rounding of floats *)

(** The power of two [2^e]. *)
Definition bpow (e : Z) : R := powerRZ 2 e.

(** Where [y] lies in [[m, m + 1)]: on [m], below, on or above the
    midpoint. *)
Definition position (m : Z) (l : location) (y : R) : Prop :=
  match l with
  | loc_Exact => y = IZR m
  | loc_Inexact Lt => (IZR m < y < IZR m + / 2)%R
  | loc_Inexact Eq => y = (IZR m + / 2)%R
  | loc_Inexact Gt => (IZR m + / 2 < y < IZR m + 1)%R
  end.

(** The mantissa [m] at exponent [e] with location [l] stands for [x]. *)
Definition located (m e : Z) (l : location) (x : R) : Prop :=
  position m l (x * bpow (- e)).

(** The mantissas of binary64: at most 53 digits, exactly 53 above the
    least exponent. *)
Definition canonical (m e : Z) : Prop :=
  0 <= m /\ Zdigits2 m <= 53 /\ -1074 <= e /\ (-1074 < e -> Zdigits2 m = 53).

(** The float with mantissa [m] at exponent [e], an infinity beyond the
    largest exponent. *)
Definition mk_float (s : bool) (m e : Z) : float :=
  match m with
  | Z0 => S754_zero s
  | Zpos p => if Z.leb e 971 then S754_finite s p e else S754_infinity s
  | Zneg _ => S754_nan
  end.

(** [k] shifts to the right lead from [r] to [r']. *)
Definition shr_steps (k : Z) (r r' : shr_record) : Prop :=
  0 <= shr_m r ->
  0 <= shr_m r' /\
  Zdigits2 (shr_m r') = Z.max 0 (Zdigits2 (shr_m r) - k) /\
  forall e x, located (shr_m r) e (loc_of_shr_record r) x ->
              located (shr_m r') (e + k) (loc_of_shr_record r') x.

(** The non-negative [x], rounded to nearest even, is [mf * 2^ef]. *)
Definition rounds_to (x : R) (mf ef : Z) : Prop :=
  exists m1 l1 e1,
    located m1 e1 l1 x /\ canonical m1 e1 /\ canonical mf ef /\ e1 <= ef /\
    (IZR mf * bpow ef = IZR (round_nearest_even m1 l1) * bpow e1)%R.

(** The floats 0.5 and 0.0625. *)
Definition float_half : float := S754_finite false 4503599627370496 (-53).
Definition float_sixteenth : float := S754_finite false 4503599627370496 (-56).

(** A C library for the examples.  Its [log] has the values of the GNU C
    library at 0.5, 0.01, 0.0625 and 2.0 (-0.6931471805599453,
    -4.605170185988091, -2.772588722239781, 0.6931471805599453) and is not
    a number elsewhere; its [pow(x, 2.0)] is [x * x] rounded once. *)
Definition sample_log_table : list (float * float) :=
  [(float_half, S754_finite true 6243314768165359 (-53));
   (default_false_positive_rate, S754_finite true 5184960683398421 (-50));
   (float_sixteenth, S754_finite true 6243314768165359 (-51));
   (float_two, S754_finite false 6243314768165359 (-53))].

Fixpoint table_lookup (t : list (float * float)) (x : float) : float :=
  match t with
  | [] => S754_nan
  | (a, b) :: r => if SFeqb a x then b else table_lookup r x
  end.

Definition sample_clib : clib :=
  Clib (table_lookup sample_log_table)
       (fun x y => if SFeqb y float_two then float_mul x x else S754_nan).

(** ** Notions used in the further properties *)

(** Every computation step relates the server before to the server after
    by [R]. *)
Definition keeps {A : Type} (R : server -> server -> Prop) (m : M A) : Prop :=
  forall s, R s (m s).2.

(** The two servers hold the same keys and values. *)
Definition same_db (s s' : server) : Prop := db s' = db s.

(** The two servers agree on every key but [key]. *)
Definition same_but (key : string) (s s' : server) : Prop :=
  forall key', key' <> key -> db s' !! key' = db s !! key'.

(** The value a decimal numeral denotes, most significant digit first,
    continuing from [acc]. *)
Fixpoint uint_value (d : Decimal.uint) (acc : Z) : Z :=
  match d with
  | Decimal.Nil => acc
  | Decimal.D0 l => uint_value l (10 * acc + 0)
  | Decimal.D1 l => uint_value l (10 * acc + 1)
  | Decimal.D2 l => uint_value l (10 * acc + 2)
  | Decimal.D3 l => uint_value l (10 * acc + 3)
  | Decimal.D4 l => uint_value l (10 * acc + 4)
  | Decimal.D5 l => uint_value l (10 * acc + 5)
  | Decimal.D6 l => uint_value l (10 * acc + 6)
  | Decimal.D7 l => uint_value l (10 * acc + 7)
  | Decimal.D8 l => uint_value l (10 * acc + 8)
  | Decimal.D9 l => uint_value l (10 * acc + 9)
  end.

(** No character of the text is white space. *)
Fixpoint no_space (s : string) : bool :=
  match s with
  | EmptyString => true
  | String a r => (negb (is_space a) && no_space r)%bool
  end.

(** The store holds, under [name], metadata as [initialize_bloom_filter]
    writes them for the sizes [m] and [k], and a bit buffer of the length it
    writes. *)
Definition filter_ready (d : gmap string rvalue) (name : string) (m k : Z)
  : Prop :=
  exists h buf,
    d !! metadata_key name = Some (RHash h) /\
    h !! "size" = Some (str_of_int m) /\
    h !! "hash_functions" = Some (str_of_int k) /\
    d !! bits_key name = Some (RString buf) /\
    String.length buf = Z.to_nat ((m + 7) / 8).

(** The last character of a text. *)
Fixpoint last_char (s : string) : option ascii :=
  match s with
  | EmptyString => None
  | String a EmptyString => Some a
  | String _ r => last_char r
  end.

(** Sample stores with degenerate metadata: no hash function, no bit; and
    metadata without a bit buffer. *)
Definition sample_no_hash_server : server :=
  Server (<[metadata_key "ids" :=
              RHash (<["size" := "100"]> (<["hash_functions" := "0"]> ∅))]> ∅) [].

Definition sample_zero_size_metadata : gmap string string :=
  <["size" := "0"]> (<["hash_functions" := "3"]> ∅).

Definition sample_zero_size_server : server :=
  Server (<[metadata_key "ids" := RHash sample_zero_size_metadata]> ∅) [].

Definition sample_no_bits_server : server :=
  Server (<[metadata_key "ids" := RHash sample_metadata]> ∅) [].

(** * Properties *)

(** Published MurmurHash3_x86_32 test vectors. *)
Example mmh3_empty_0 : Mmh3.murmur3_x86_32 "" 0 = 0.
Proof. reflexivity. Qed.

Example mmh3_empty_1 : Mmh3.murmur3_x86_32 "" 1 = 0x514E28B7.
Proof. reflexivity. Qed.

Example mmh3_empty_ffffffff : Mmh3.murmur3_x86_32 "" 0xffffffff = 0x81F16F39.
Proof. reflexivity. Qed.

Example mmh3_three_bytes : Mmh3.murmur3_x86_32 "!Ce" 0 = 0x7E4A8634.
Proof. reflexivity. Qed.

Example mmh3_two_bytes : Mmh3.murmur3_x86_32 "!C" 0 = 0xA0F7B07A.
Proof. reflexivity. Qed.

Example mmh3_one_byte : Mmh3.murmur3_x86_32 "!" 0 = 0x72661CF4.
Proof. reflexivity. Qed.

Example mmh3_foo : Mmh3.hash "foo" 0 = -156908512.
Proof. reflexivity. Qed.

Example mmh3_pangram :
  Mmh3.murmur3_x86_32 "The quick brown fox jumps over the lazy dog" 0x9747b28c
  = 0x2FA826CD.
Proof. vm_compute. reflexivity. Qed.

Example mmh3_hello_world :
  Mmh3.murmur3_x86_32 "Hello, world!" 0x9747b28c = 0x24884CBA.
Proof. vm_compute. reflexivity. Qed.


(** ** Bits of bytes and byte strings *)

Lemma bit_in_byte_lt (offset : Z) : (bit_in_byte offset < 8)%nat.
Proof.
  unfold bit_in_byte.
  assert (H : 0 <= Z.land offset 7 < 8).
  { change 7 with (Z.ones 3). rewrite Z.land_ones by lia.
    apply Z.mod_pos_bound. reflexivity. }
  lia.
Qed.

Lemma ascii_getbit_setbit_same (a : ascii) (p : nat) :
  (p < 8)%nat -> ascii_getbit (ascii_setbit a p true) p = true.
Proof.
  intros Hp. destruct a as [b0 b1 b2 b3 b4 b5 b6 b7].
  do 8 (destruct p as [|p]; [reflexivity|]). lia.
Qed.

Lemma ascii_getbit_setbit_mono (a : ascii) (p q : nat) :
  ascii_getbit a q = true -> ascii_getbit (ascii_setbit a p true) q = true.
Proof.
  destruct a as [b0 b1 b2 b3 b4 b5 b6 b7]. intros H.
  do 8 (destruct p as [|p];
        [do 8 (destruct q as [|q]; [first [exact H | reflexivity]|]); exact H|]).
  exact H.
Qed.

Lemma ascii_setbit_on (a : ascii) (p : nat) :
  ascii_getbit a p = true -> ascii_setbit a p true = a.
Proof.
  destruct a as [b0 b1 b2 b3 b4 b5 b6 b7]. intros H.
  do 8 (destruct p as [|p]; [simpl in H; subst; reflexivity|]).
  reflexivity.
Qed.

Lemma ascii_getbit_zero (p : nat) : ascii_getbit zero p = false.
Proof. do 8 (destruct p as [|p]; [reflexivity|]). reflexivity. Qed.

Lemma str_getbit_setbit_same (s : string) (n p : nat) :
  (p < 8)%nat -> str_getbit (str_setbit s n p true) n p = true.
Proof.
  intros Hp. revert s.
  induction n as [|n IH]; intros [|a r]; cbn [str_getbit str_setbit].
  - apply ascii_getbit_setbit_same, Hp.
  - apply ascii_getbit_setbit_same, Hp.
  - apply IH.
  - apply IH.
Qed.

Lemma str_getbit_setbit_mono (s : string) (n p n' p' : nat) :
  str_getbit s n' p' = true ->
  str_getbit (str_setbit s n p true) n' p' = true.
Proof.
  revert s n'.
  induction n as [|n IH]; intros [|a r] [|n']; cbn [str_getbit str_setbit]; intros H;
    try discriminate; auto using ascii_getbit_setbit_mono.
Qed.

Lemma str_setbit_on (s : string) (n p : nat) :
  str_getbit s n p = true -> str_setbit s n p true = s.
Proof.
  revert s.
  induction n as [|n IH]; intros [|a r]; cbn [str_getbit str_setbit]; intros H; try discriminate.
  - f_equal. apply ascii_setbit_on, H.
  - f_equal. apply IH, H.
Qed.

Lemma getbit_setbit_same (s : string) (offset : Z) :
  getbit_at (setbit_at s offset true) offset = true.
Proof. apply str_getbit_setbit_same, bit_in_byte_lt. Qed.

Lemma getbit_setbit_mono (s : string) (offset offset' : Z) :
  getbit_at s offset' = true ->
  getbit_at (setbit_at s offset true) offset' = true.
Proof. apply str_getbit_setbit_mono. Qed.

Lemma setbit_at_on (s : string) (offset : Z) :
  getbit_at s offset = true -> setbit_at s offset true = s.
Proof. apply str_setbit_on. Qed.

Lemma str_getbit_zero_bytes (n byte p : nat) :
  str_getbit (string_of_list_ascii (repeat zero n)) byte p = false.
Proof.
  revert byte. induction n as [|n IH]; intros [|byte]; cbn [str_getbit repeat string_of_list_ascii]; auto.
  apply ascii_getbit_zero.
Qed.

Lemma length_zero_bytes (n : Z) :
  String.length (zero_bytes n) = Z.to_nat n.
Proof.
  unfold zero_bytes. generalize (Z.to_nat n) as k.
  induction k as [|k IH]; simpl; congruence.
Qed.

(** ** Running the monad *)

Lemma run_bind {A B : Type} (m : M A) (f : A -> M B) (s : server) :
  (m ≫= f) s =
  match m s with
  | (Return a, s') => f a s'
  | (Raise e, s') => (Raise e, s')
  end.
Proof. reflexivity. Qed.

Lemma run_lift_bind {A B : Type} (o : outcome A) (f : A -> M B) (s : server) :
  (lift o ≫= f) s =
  match o with
  | Return a => f a s
  | Raise e => (Raise e, s)
  end.
Proof. rewrite run_bind. unfold lift. destruct o; reflexivity. Qed.

Lemma add_unfold (c : client) (name : string) (item : pyitem) :
  add_to_bloom_filter c name item =
  (metadata ← hgetall c (metadata_key name);
   if decide (metadata = ∅) then raise (ValueError (not_found_add name)) else
   m ← lift (load_field metadata "size");
   k ← lift (load_field metadata "hash_functions");
   for_in (py_range k) (add_body c name (py_str item) m) (mret true)).
Proof. reflexivity. Qed.

Lemma check_unfold (c : client) (name : string) (item : pyitem) :
  check_bloom_filter c name item =
  (metadata ← hgetall c (metadata_key name);
   if decide (metadata = ∅) then raise (ValueError (not_found_check name)) else
   m ← lift (load_field metadata "size");
   k ← lift (load_field metadata "hash_functions");
   for_in (py_range k) (check_body c name (py_str item) m) (mret true)).
Proof. reflexivity. Qed.

(** ** Stored hashes and set bits survive every command *)

Lemma grows_refl (s : server) : grows s s.
Proof. split; auto. Qed.

Lemma grows_trans (s1 s2 s3 : server) :
  grows s1 s2 -> grows s2 s3 -> grows s1 s3.
Proof. intros [H1 H2] [H3 H4]. split; eauto. Qed.

Lemma grows_same_db (s s' : server) : db s' = db s -> grows s s'.
Proof. intros E. unfold grows. rewrite E. auto. Qed.

Lemma monotone_ret {A : Type} (a : A) : monotone (mret a : M A).
Proof. intros s. apply grows_refl. Qed.

Lemma monotone_raise {A : Type} (e : exn) : monotone (raise e : M A).
Proof. intros s. apply grows_refl. Qed.

Lemma monotone_lift {A : Type} (o : outcome A) : monotone (lift o).
Proof. intros s. apply grows_refl. Qed.

Lemma monotone_bind {A B : Type} (m : M A) (f : A -> M B) :
  monotone m -> (forall a, monotone (f a)) -> monotone (m ≫= f).
Proof.
  intros Hm Hf s. rewrite run_bind. specialize (Hm s).
  destruct (m s) as [[a|e] s']; simpl in *.
  - eapply grows_trans; [exact Hm|apply Hf].
  - exact Hm.
Qed.

Lemma monotone_for_in {A : Type} (l : list Z) (body : Z -> M (option A))
    (after : M A) :
  (forall i, monotone (body i)) -> monotone after ->
  monotone (for_in l body after).
Proof.
  intros Hb Ha. induction l as [|i l IH]; simpl; [exact Ha|].
  apply monotone_bind; [apply Hb|].
  intros [a|]; [apply monotone_ret|exact IH].
Qed.

Lemma monotone_hgetall (c : client) (key : string) : monotone (hgetall c key).
Proof.
  intros s. apply grows_same_db. unfold hgetall.
  destruct (db (received (HGETALL key) s) !! key) as [[?|?]|]; reflexivity.
Qed.

Lemma monotone_getbit (c : client) (key : string) (offset : Z) :
  monotone (getbit c key offset).
Proof.
  intros s. apply grows_same_db. unfold getbit.
  destruct (Z.ltb offset 0); [reflexivity|].
  destruct (db (received (GETBIT key offset) s) !! key) as [[?|?]|]; reflexivity.
Qed.

Lemma monotone_setbit (c : client) (key : string) (offset : Z) :
  monotone (setbit c key offset 1).
Proof.
  intros s. unfold setbit. simpl.
  destruct (Z.ltb offset 0); [apply grows_same_db; reflexivity|].
  destruct (db s !! key) as [[buf|h]|] eqn:E; simpl;
    try (apply grows_same_db; reflexivity).
  - split; simpl.
    + intros key' h' H. rewrite lookup_insert_ne; [exact H|congruence].
    + intros key' off' (buf' & H & Hb).
      destruct (decide (key = key')) as [<-|Hne].
      * eexists; split; [apply lookup_insert_eq|].
        apply getbit_setbit_mono. congruence.
      * exists buf'. rewrite lookup_insert_ne by exact Hne. auto.
  - split; simpl.
    + intros key' h' H. rewrite lookup_insert_ne; [exact H|congruence].
    + intros key' off' (buf' & H & Hb).
      exists buf'. rewrite lookup_insert_ne by congruence. auto.
Qed.

Lemma monotone_add_body (c : client) (name item_str : string) (m i : Z) :
  monotone (add_body c name item_str m i).
Proof.
  unfold add_body. apply monotone_bind; [apply monotone_lift|]. intros off.
  apply monotone_bind; [apply monotone_setbit|]. intros _. apply monotone_ret.
Qed.

Lemma monotone_check_body (c : client) (name item_str : string) (m i : Z) :
  monotone (check_body c name item_str m i).
Proof.
  unfold check_body. apply monotone_bind; [apply monotone_lift|]. intros off.
  apply monotone_bind; [apply monotone_getbit|]. intros b.
  destruct (Z.eqb b 0); apply monotone_ret.
Qed.

Lemma monotone_add (c : client) (name : string) (item : pyitem) :
  monotone (add_to_bloom_filter c name item).
Proof.
  rewrite add_unfold. apply monotone_bind; [apply monotone_hgetall|].
  intros d. destruct (decide (d = ∅)); [apply monotone_raise|].
  apply monotone_bind; [apply monotone_lift|]. intros m.
  apply monotone_bind; [apply monotone_lift|]. intros k.
  apply monotone_for_in; [apply monotone_add_body|apply monotone_ret].
Qed.

Lemma monotone_check (c : client) (name : string) (item : pyitem) :
  monotone (check_bloom_filter c name item).
Proof.
  rewrite check_unfold. apply monotone_bind; [apply monotone_hgetall|].
  intros d. destruct (decide (d = ∅)); [apply monotone_raise|].
  apply monotone_bind; [apply monotone_lift|]. intros m.
  apply monotone_bind; [apply monotone_lift|]. intros k.
  apply monotone_for_in; [apply monotone_check_body|apply monotone_ret].
Qed.

Lemma grows_run_calls (l : list call) (s : server) : grows s (run_calls l s).
Proof.
  revert s. induction l as [|c l IH]; intros s; simpl; [apply grows_refl|].
  eapply grows_trans; [|apply IH].
  destruct c; [apply monotone_add|apply monotone_check].
Qed.

(** ** The insert loop and the query loop *)

Lemma setbit_returns (c : client) (key : string) (offset r : Z) (s s' : server) :
  setbit c key offset 1 s = (Return r, s') ->
  0 <= offset /\ bit_on (db s') key offset.
Proof.
  unfold setbit. simpl.
  destruct (Z.ltb_spec offset 0) as [Hneg|Hpos]; [discriminate|].
  destruct (db s !! key) as [[buf|h]|]; intros E; inversion E; subst; simpl;
    (split; [exact Hpos|]);
    (eexists; split; [apply lookup_insert_eq|apply getbit_setbit_same]).
Qed.

Lemma add_loop_returns (c : client) (name item_str : string) (m : Z)
    (l : list Z) (s s' : server) (b : bool) :
  for_in l (add_body c name item_str m) (mret true) s = (Return b, s') ->
  forall i, In i l ->
    m <> 0 /\ 0 <= Mmh3.hash item_str i mod m /\
    bit_on (db s') (bits_key name) (Mmh3.hash item_str i mod m).
Proof.
  revert s. induction l as [|j l IH]; intros s Hrun i Hi; [destruct Hi|].
  simpl in Hrun. rewrite run_bind in Hrun.
  destruct (add_body c name item_str m j s) as [[[a|]|e] s1] eqn:Hbody;
    try discriminate.
  { unfold add_body in Hbody. rewrite run_lift_bind in Hbody.
    unfold py_mod in Hbody. destruct (Z.eqb m 0); [discriminate|].
    rewrite run_bind in Hbody.
    destruct (setbit _ _ _ _ s) as [[?|?] ?]; discriminate. }
  assert (Hj : m <> 0 /\ 0 <= Mmh3.hash item_str j mod m /\
               bit_on (db s1) (bits_key name) (Mmh3.hash item_str j mod m)).
  { unfold add_body in Hbody. rewrite run_lift_bind in Hbody.
    unfold py_mod in Hbody. destruct (Z.eqb_spec m 0) as [|Hm]; [discriminate|].
    rewrite run_bind in Hbody.
    destruct (setbit _ _ _ _ s) as [[r|?] s2] eqn:Hset; [|discriminate].
    inversion Hbody; subst s2.
    apply setbit_returns in Hset. tauto. }
  destruct Hi as [<-|Hi].
  - destruct Hj as (Hm & Hoff & Hon). repeat split; auto.
    pose proof (monotone_for_in l (add_body c name item_str m) (mret true)
                  (monotone_add_body c name item_str m) (monotone_ret true) s1)
      as Hg.
    rewrite Hrun in Hg. apply Hg, Hon.
  - eapply IH; eauto.
Qed.

Lemma getbit_on (c : client) (key : string) (offset : Z) (s : server) :
  0 <= offset -> bit_on (db s) key offset ->
  getbit c key offset s = (Return 1, received (GETBIT key offset) s).
Proof.
  intros Hpos (buf & Hk & Hb). unfold getbit. simpl.
  destruct (Z.ltb_spec offset 0); [lia|]. rewrite Hk, Hb. reflexivity.
Qed.

Lemma check_loop_all_on (c : client) (name item_str : string) (m : Z)
    (l : list Z) (s : server) :
  (forall i, In i l ->
     m <> 0 /\ 0 <= Mmh3.hash item_str i mod m /\
     bit_on (db s) (bits_key name) (Mmh3.hash item_str i mod m)) ->
  (for_in l (check_body c name item_str m) (mret true) s).1 = Return true.
Proof.
  revert s. induction l as [|j l IH]; intros s H; [reflexivity|].
  simpl. rewrite run_bind.
  destruct (H j (or_introl eq_refl)) as (Hm & Hoff & Hon).
  unfold check_body at 1. rewrite run_lift_bind. unfold py_mod.
  destruct (Z.eqb_spec m 0); [contradiction|].
  rewrite run_bind, (getbit_on _ _ _ _ Hoff Hon). simpl.
  apply IH. intros i Hi. apply H. right. exact Hi.
Qed.

Lemma reply_dict_empty (c : client) (h : gmap string string) :
  reply_dict c h = ∅ <-> h = ∅.
Proof.
  unfold reply_dict. split.
  - intros E. apply map_eq. intros f. rewrite lookup_empty.
    assert (Inj eq eq (decode c)).
    { intros x y. unfold decode. destruct (decode_responses c); congruence. }
    pose proof (lookup_kmap (M2 := gmap pyobj) (decode c) (decode c <$> h) f) as L.
    rewrite E, lookup_empty, lookup_fmap in L.
    destruct (h !! f); [discriminate|reflexivity].
  - intros ->. rewrite fmap_empty. apply kmap_empty.
Qed.

Lemma hgetall_hash (c : client) (key : string) (h : gmap string string)
    (s : server) :
  db s !! key = Some (RHash h) ->
  hgetall c key s = (Return (reply_dict c h), received (HGETALL key) s).
Proof. intros H. unfold hgetall. simpl. rewrite H. reflexivity. Qed.

Lemma add_returns (c : client) (name : string) (item : pyitem)
    (s s' : server) (b : bool) :
  add_to_bloom_filter c name item s = (Return b, s') ->
  exists h m k,
    db s !! metadata_key name = Some (RHash h) /\
    reply_dict c h <> ∅ /\
    load_field (reply_dict c h) "size" = Return m /\
    load_field (reply_dict c h) "hash_functions" = Return k /\
    forall i, In i (py_range k) ->
      m <> 0 /\ 0 <= Mmh3.hash (py_str item) i mod m /\
      bit_on (db s') (bits_key name) (Mmh3.hash (py_str item) i mod m).
Proof.
  rewrite add_unfold, run_bind. unfold hgetall. simpl.
  destruct (db s !! metadata_key name) as [[buf|h]|] eqn:Hmeta;
    [discriminate| |].
  - destruct (decide (reply_dict c h = ∅)) as [|Hne]; [discriminate|].
    rewrite run_lift_bind.
    destruct (load_field (reply_dict c h) "size") as [m|] eqn:Hm; [|discriminate].
    rewrite run_lift_bind.
    destruct (load_field (reply_dict c h) "hash_functions") as [k|] eqn:Hk;
      [|discriminate].
    intros Hrun. exists h, m, k. repeat split; auto;
      eapply add_loop_returns; eauto.
  - destruct (decide (∅ = ∅)); [discriminate|contradiction].
Qed.

Lemma check_all_on (c : client) (name : string) (item : pyitem)
    (s : server) (h : gmap string string) (m k : Z) :
  db s !! metadata_key name = Some (RHash h) ->
  reply_dict c h <> ∅ ->
  load_field (reply_dict c h) "size" = Return m ->
  load_field (reply_dict c h) "hash_functions" = Return k ->
  (forall i, In i (py_range k) ->
     m <> 0 /\ 0 <= Mmh3.hash (py_str item) i mod m /\
     bit_on (db s) (bits_key name) (Mmh3.hash (py_str item) i mod m)) ->
  result_of (check_bloom_filter c name item) s = Return true.
Proof.
  intros Hmeta Hne Hm Hk Hbits. unfold result_of.
  rewrite check_unfold, run_bind, (hgetall_hash _ _ _ _ Hmeta).
  destruct (decide (reply_dict c h = ∅)); [contradiction|].
  rewrite run_lift_bind, Hm, run_lift_bind, Hk.
  apply check_loop_all_on. exact Hbits.
Qed.

(** C1. No false negatives: once [add_to_bloom_filter(name, x)] has
    returned, that is, all its bit-set commands were applied,
    [check_bloom_filter(name, x)] returns [True], from whatever state the
    insert started in and after any sequence of further inserts and queries
    on any filters. *)
Theorem no_false_negatives (c : client) (name : string) (x : pyitem)
    (s s1 : server) (b : bool) (others : list call) :
  add_to_bloom_filter c name x s = (Return b, s1) ->
  result_of (check_bloom_filter c name x) (run_calls others s1) = Return true.
Proof.
  intros Hadd.
  assert (Hg1 : grows s s1).
  { pose proof (monotone_add c name x s) as G. rewrite Hadd in G. exact G. }
  destruct (add_returns _ _ _ _ _ _ Hadd) as (h & m & k & Hmeta & Hne & Hm & Hk & Hbits).
  destruct (grows_run_calls others s1) as [Hh Hb].
  eapply check_all_on; eauto.
  - apply Hh, Hg1, Hmeta.
  - intros i Hi. destruct (Hbits i Hi) as (? & ? & ?). auto.
Qed.

(** ** What a query reads *)

Lemma In_py_range (k i : Z) : In i (py_range k) <-> 0 <= i < k.
Proof.
  unfold py_range. rewrite in_map_iff. split.
  - intros (n & <- & Hn). apply in_seq in Hn. lia.
  - intros H. exists (Z.to_nat i). split; [lia|]. apply in_seq. lia.
Qed.

Lemma py_range_split (j k : Z) :
  0 <= j < k ->
  exists rest, py_range k = (py_range j ++ j :: rest)%list /\
               py_range (j + 1) = (py_range j ++ [j])%list.
Proof.
  intros H. unfold py_range.
  replace (Z.to_nat k) with (Z.to_nat j + S (Z.to_nat (k - j - 1)))%nat by lia.
  replace (Z.to_nat (j + 1)) with (Z.to_nat j + 1)%nat by lia.
  rewrite !seq_app, !fmap_app. simpl.
  replace (Z.of_nat (Z.to_nat j)) with j by lia.
  eexists. split; reflexivity.
Qed.

Lemma forallb_probed_all (f : Z -> bool) (l : list Z) :
  forallb f l = true -> probed f l = l.
Proof.
  induction l as [|i l IH]; simpl; [reflexivity|].
  destruct (f i); simpl; [intros H; f_equal; auto|discriminate].
Qed.

Lemma probed_first_off (f : Z -> bool) (l1 rest : list Z) (j : Z) :
  forallb f l1 = true -> f j = false ->
  forallb f (l1 ++ j :: rest) = false /\
  probed f (l1 ++ j :: rest) = (l1 ++ [j])%list.
Proof.
  intros H1 Hj. induction l1 as [|i l1 IH]; simpl in *.
  - rewrite Hj. auto.
  - destruct (f i); simpl in *; [|discriminate].
    destruct (IH H1) as [-> ->]. auto.
Qed.

Lemma getbit_reads (c : client) (key : string) (offset : Z) (s : server)
    (buf : string) :
  0 <= offset -> bit_buffer (db s) key = Some buf ->
  getbit c key offset s =
  (Return (Z_of_bool (getbit_at buf offset)), received (GETBIT key offset) s).
Proof.
  intros Hpos Hbuf. unfold getbit, bit_buffer in *. simpl.
  destruct (Z.ltb_spec offset 0); [lia|].
  destruct (db s !! key) as [[b|h]|]; inversion Hbuf; subst; [reflexivity|].
  unfold getbit_at. destruct (byte_index offset); reflexivity.
Qed.

Lemma check_loop_reads (c : client) (name item_str : string) (m : Z)
    (buf : string) (l : list Z) (s : server) :
  0 < m ->
  bit_buffer (db s) (bits_key name) = Some buf ->
  let f := fun i => getbit_at buf (Mmh3.hash item_str i mod m) in
  for_in l (check_body c name item_str m) (mret true) s =
  (Return (forallb f l),
   Server (db s)
     (log s ++ ((fun i => GETBIT (bits_key name) (Mmh3.hash item_str i mod m))
                  <$> probed f l))).
Proof.
  intros Hm Hbuf f. revert s Hbuf.
  induction l as [|j l IH]; intros s Hbuf.
  - simpl. rewrite app_nil_r. destruct s; reflexivity.
  - cbn [for_in forallb probed]. rewrite run_bind.
    unfold check_body at 1. rewrite run_lift_bind. unfold py_mod.
    destruct (Z.eqb_spec m 0); [lia|].
    assert (Hoff : 0 <= Mmh3.hash item_str j mod m)
      by (apply Z.mod_pos_bound; lia).
    rewrite run_bind, (getbit_reads _ _ _ _ _ Hoff Hbuf).
    fold (f j). destruct (f j); simpl.
    + rewrite IH by exact Hbuf. simpl. rewrite <- app_assoc. reflexivity.
    + reflexivity.
Qed.

Lemma load_field_nonempty (d : gmap pyobj pyobj) (field : string) (n : Z) :
  load_field d field = Return n -> d <> ∅.
Proof.
  unfold load_field, getitem. intros H ->.
  rewrite lookup_empty in H. discriminate.
Qed.

(** C3. On an initialised filter (metadata holding a size [m > 0] and a
    count [k]), [check_bloom_filter] returns [True] exactly when the [k]
    bits at [mmh3.hash(str(x), i) % m], [i] in [0..k-1], are all set; and
    when bit [j] is the first unset one it returns [False] having issued
    GETBIT for the offsets [0..j] only.  The key space is left unchanged. *)
Theorem check_reads_until_first_unset (c : client) (name : string) (x : pyitem)
    (s : server) (h : gmap string string) (m k : Z) (buf : string) :
  db s !! metadata_key name = Some (RHash h) ->
  load_field (reply_dict c h) "size" = Return m ->
  load_field (reply_dict c h) "hash_functions" = Return k ->
  0 < m ->
  bit_buffer (db s) (bits_key name) = Some buf ->
  let offset := fun i => Mmh3.hash (py_str x) i mod m in
  (result_of (check_bloom_filter c name x) s = Return true <->
   forall i, 0 <= i < k -> getbit_at buf (offset i) = true) /\
  (forall j, 0 <= j < k ->
     getbit_at buf (offset j) = false ->
     (forall i, 0 <= i < j -> getbit_at buf (offset i) = true) ->
     check_bloom_filter c name x s =
     (Return false,
      Server (db s)
        (log s ++ HGETALL (metadata_key name)
           :: ((fun i => GETBIT (bits_key name) (offset i)) <$> py_range (j + 1))))).
Proof.
  intros Hmeta Hm Hk Hpos Hbuf offset.
  assert (Hrun : check_bloom_filter c name x s =
    (Return (forallb (fun i => getbit_at buf (offset i)) (py_range k)),
     Server (db s)
       (log s ++ HGETALL (metadata_key name)
          :: ((fun i => GETBIT (bits_key name) (offset i))
                <$> probed (fun i => getbit_at buf (offset i)) (py_range k))))).
  { rewrite check_unfold, run_bind, (hgetall_hash _ _ _ _ Hmeta).
    destruct (decide (reply_dict c h = ∅)) as [E|_];
      [exfalso; eapply load_field_nonempty; eauto|].
    rewrite run_lift_bind, Hm, run_lift_bind, Hk.
    rewrite (check_loop_reads c name (py_str x) m buf) by auto.
    simpl. rewrite <- app_assoc. reflexivity. }
  split.
  - unfold result_of. rewrite Hrun. simpl. split.
    + intros E i Hi. injection E as E'.
      rewrite forallb_forall in E'. apply E', In_py_range, Hi.
    + intros H. f_equal. apply forallb_forall. intros i Hi.
      apply H, In_py_range, Hi.
  - intros j Hj Hoff Hbefore. rewrite Hrun.
    destruct (py_range_split j k Hj) as (rest & -> & ->).
    assert (Hall : forallb (fun i => getbit_at buf (offset i)) (py_range j) = true).
    { apply forallb_forall. intros i Hi. apply Hbefore, In_py_range, Hi. }
    destruct (probed_first_off _ _ rest j Hall Hoff) as [-> ->]. reflexivity.
Qed.

(** ** Failures before the loop *)

(** C4. When the metadata mapping of [name] is absent from the store, both
    [add_to_bloom_filter] and [check_bloom_filter] raise the "not found"
    [ValueError], for every key, and leave the key space untouched. *)
Theorem absent_metadata_raises_not_found (c : client) (name : string)
    (x : pyitem) (s : server) :
  db s !! metadata_key name = None ->
  add_to_bloom_filter c name x s =
    (Raise (ValueError (not_found_add name)),
     received (HGETALL (metadata_key name)) s) /\
  check_bloom_filter c name x s =
    (Raise (ValueError (not_found_check name)),
     received (HGETALL (metadata_key name)) s).
Proof.
  intros Hmeta. rewrite add_unfold, check_unfold, !run_bind.
  unfold hgetall. simpl. rewrite Hmeta.
  destruct (decide (∅ =@{gmap pyobj pyobj} ∅)); [split; reflexivity|contradiction].
Qed.

Lemma reply_dict_str_keys (c : client) (h : gmap string string) (f : string) :
  decode_responses c = true ->
  reply_dict c h !! PyBytes f = None /\
  reply_dict c h !! PyStr f = PyStr <$> h !! f.
Proof.
  intros Hdec. unfold reply_dict.
  assert (Inj eq eq (decode c)).
  { intros a b. unfold decode. rewrite Hdec. congruence. }
  split.
  - apply lookup_kmap_None; [assumption|].
    intros j. unfold decode. rewrite Hdec. discriminate.
  - replace (PyStr f) with (decode c f) by (unfold decode; rewrite Hdec; reflexivity).
    rewrite lookup_kmap, lookup_fmap by assumption.
    unfold decode. rewrite Hdec. reflexivity.
Qed.

(** C10. With a client that decodes responses, so that the mapping returned
    by [hgetall] has [str] keys, both functions raise [KeyError] at
    [metadata[b'size']] whenever the metadata exists; the [str] branch of the
    conditional is never reached, although ['size'] is a key of the
    mapping whenever the stored hash has that field. *)
Theorem str_keys_raise_key_error (c : client) (name : string) (x : pyitem)
    (s : server) (h : gmap string string) :
  decode_responses c = true ->
  db s !! metadata_key name = Some (RHash h) ->
  h <> ∅ ->
  result_of (add_to_bloom_filter c name x) s = Raise (KeyError (PyBytes "size")) /\
  result_of (check_bloom_filter c name x) s = Raise (KeyError (PyBytes "size")) /\
  forall v, h !! "size" = Some v ->
    getitem (reply_dict c h) (PyStr "size") = Return (PyStr v).
Proof.
  intros Hdec Hmeta Hne.
  assert (Hd : reply_dict c h <> ∅) by (rewrite reply_dict_empty; exact Hne).
  assert (Hload : load_field (reply_dict c h) "size"
                  = Raise (KeyError (PyBytes "size"))).
  { unfold load_field, getitem.
    rewrite (proj1 (reply_dict_str_keys c h "size" Hdec)). reflexivity. }
  unfold result_of.
  rewrite add_unfold, check_unfold, !run_bind, (hgetall_hash _ _ _ _ Hmeta).
  destruct (decide (reply_dict c h = ∅)); [contradiction|].
  rewrite !run_lift_bind, Hload. repeat split.
  intros v Hv. unfold getitem.
  rewrite (proj2 (reply_dict_str_keys c h "size" Hdec)), Hv. reflexivity.
Qed.

(** ** Inserting twice *)

Lemma add_body_run (c : client) (name item_str : string) (m i : Z) (s : server) :
  let key := bits_key name in
  let offset := Mmh3.hash item_str i mod m in
  add_body c name item_str m i s =
  if Z.eqb m 0 then (Raise ZeroDivisionError, s) else
  if Z.ltb offset 0
  then (Raise (ResponseError bad_offset), received (SETBIT key offset 1) s) else
  match bit_buffer (db s) key with
  | None => (Raise (ResponseError wrongtype), received (SETBIT key offset 1) s)
  | Some buf =>
      (Return None,
       Server (<[key := RString (setbit_at buf offset true)]> (db s))
         (log s ++ [SETBIT key offset 1]))
  end.
Proof.
  intros key offset. unfold add_body. rewrite run_lift_bind. unfold py_mod.
  destruct (Z.eqb m 0); [reflexivity|].
  rewrite run_bind. unfold setbit, bit_buffer. simpl. fold key offset.
  destruct (Z.ltb offset 0); [reflexivity|].
  destruct (db s !! key) as [[buf|h]|]; reflexivity.
Qed.

Lemma add_loop_again (c : client) (name item_str : string) (m : Z)
    (l : list Z) (s s1 : server) (r : outcome bool) :
  for_in l (add_body c name item_str m) (mret true) s = (r, s1) ->
  forall t, db t = db s1 ->
    db (for_in l (add_body c name item_str m) (mret true) t).2 = db t.
Proof.
  revert s. induction l as [|i l IH]; intros s Hrun t Ht; [reflexivity|].
  cbn [for_in] in *. rewrite run_bind in *. rewrite add_body_run in *.
  destruct (Z.eqb m 0); [reflexivity|].
  destruct (Z.ltb (Mmh3.hash item_str i mod m) 0); [reflexivity|].
  destruct (bit_buffer (db s) (bits_key name)) as [buf|] eqn:Hbuf.
  - set (s' := Server _ _) in Hrun.
    assert (Hon : bit_on (db t) (bits_key name) (Mmh3.hash item_str i mod m)).
    { rewrite Ht.
      pose proof (monotone_for_in l (add_body c name item_str m) (mret true)
                    (monotone_add_body c name item_str m) (monotone_ret true) s')
        as Hg.
      rewrite Hrun in Hg. apply Hg. subst s'. simpl.
      eexists. split; [apply lookup_insert_eq|apply getbit_setbit_same]. }
    destruct Hon as (buf' & Hk & Hb).
    unfold bit_buffer at 1. rewrite Hk, (setbit_at_on _ _ Hb), (insert_id _ _ _ Hk).
    rewrite (IH s' Hrun) by (simpl; exact Ht). reflexivity.
  - inversion Hrun; subst. simpl in Ht.
    unfold bit_buffer in *. rewrite Ht.
    destruct (db s !! bits_key name) as [[?|?]|];
      [discriminate|simpl; exact Ht|discriminate].
Qed.

(** C5. Inserting is idempotent: the key space, and so the bit buffer,
    after [add_to_bloom_filter(name, x)] run twice is the one after a single
    run, from every starting state (also when the insert stops on an
    error). *)
Theorem add_twice_same_buffer (c : client) (name : string) (x : pyitem)
    (s : server) :
  db (server_after (add_to_bloom_filter c name x)
        (server_after (add_to_bloom_filter c name x) s))
  = db (server_after (add_to_bloom_filter c name x) s).
Proof.
  assert (Hfail : forall t,
    (forall h, db t !! metadata_key name = Some (RHash h) ->
       reply_dict c h = ∅ \/
       (exists e, load_field (reply_dict c h) "size" = Raise e) \/
       (exists e, load_field (reply_dict c h) "hash_functions" = Raise e)) ->
    db (add_to_bloom_filter c name x t).2 = db t).
  { intros t Ht. rewrite add_unfold, run_bind. unfold hgetall. simpl.
    destruct (db t !! metadata_key name) as [[buf|h]|] eqn:Hmeta; [reflexivity| |].
    - destruct (decide (reply_dict c h = ∅)) as [|Hne]; [reflexivity|].
      rewrite run_lift_bind.
      destruct (Ht h eq_refl) as [E|[[e E]|[e E]]]; [contradiction|..].
      + rewrite E. reflexivity.
      + destruct (load_field _ "size"); [|reflexivity].
        rewrite run_lift_bind, E. reflexivity.
    - destruct (decide (∅ =@{gmap pyobj pyobj} ∅)); [reflexivity|contradiction]. }
  unfold server_after.
  assert (Hfail2 :
    (forall h, db s !! metadata_key name = Some (RHash h) ->
       reply_dict c h = ∅ \/
       (exists e, load_field (reply_dict c h) "size" = Raise e) \/
       (exists e, load_field (reply_dict c h) "hash_functions" = Raise e)) ->
    db (add_to_bloom_filter c name x (add_to_bloom_filter c name x s).2).2
    = db (add_to_bloom_filter c name x s).2).
  { intros Hs. pose proof (Hfail s Hs) as E.
    rewrite Hfail; [reflexivity|]. rewrite E. exact Hs. }
  destruct (db s !! metadata_key name) as [[buf|h]|] eqn:Hmeta;
    [apply Hfail2; discriminate| |apply Hfail2; discriminate].
  destruct (decide (reply_dict c h = ∅)) as [He|Hne].
  { apply Hfail2. intros h' E. inversion E; subst. auto. }
  destruct (load_field (reply_dict c h) "size") as [m|e] eqn:Hm.
  2: { apply Hfail2. intros h' E. inversion E; subst. eauto. }
  destruct (load_field (reply_dict c h) "hash_functions") as [k|e] eqn:Hk.
  2: { apply Hfail2. intros h' E. inversion E; subst. eauto. }
  clear Hfail Hfail2.
  assert (Hrun : forall t, db t !! metadata_key name = Some (RHash h) ->
    add_to_bloom_filter c name x t =
    for_in (py_range k) (add_body c name (py_str x) m) (mret true)
      (received (HGETALL (metadata_key name)) t)).
  { intros t Ht. rewrite add_unfold, run_bind, (hgetall_hash _ _ _ _ Ht).
    destruct (decide (reply_dict c h = ∅)); [contradiction|].
    rewrite run_lift_bind, Hm, run_lift_bind, Hk. reflexivity. }
  rewrite (Hrun s Hmeta).
  destruct (for_in _ _ _ (received _ s)) as [r s1] eqn:Hloop. simpl.
  assert (Hmeta1 : db s1 !! metadata_key name = Some (RHash h)).
  { pose proof (monotone_for_in (py_range k) (add_body c name (py_str x) m)
                  (mret true) (monotone_add_body c name (py_str x) m)
                  (monotone_ret true) (received (HGETALL (metadata_key name)) s))
      as Hg.
    rewrite Hloop in Hg. apply Hg. exact Hmeta. }
  rewrite (Hrun s1 Hmeta1).
  exact (add_loop_again _ _ _ _ _ _ _ _ Hloop
           (received (HGETALL (metadata_key name)) s1) eq_refl).
Qed.

(** ** Bit offsets *)

Lemma lxor_below_2_32 (a b : Z) :
  0 <= a < 2 ^ 32 -> 0 <= b < 2 ^ 32 -> 0 <= Z.lxor a b < 2 ^ 32.
Proof.
  intros Ha Hb.
  assert (Hn : 0 <= Z.lxor a b) by (apply Z.lxor_nonneg; lia).
  split; [exact Hn|].
  destruct (Z.eq_dec (Z.lxor a b) 0) as [->|Hne]; [reflexivity|].
  apply Z.log2_lt_pow2; [lia|].
  eapply Z.le_lt_trans; [apply Z.log2_lxor; lia|].
  assert (La : Z.log2 a < 32).
  { destruct (Z.eq_dec a 0) as [->|]; [reflexivity|apply Z.log2_lt_pow2; lia]. }
  assert (Lb : Z.log2 b < 32).
  { destruct (Z.eq_dec b 0) as [->|]; [reflexivity|apply Z.log2_lt_pow2; lia]. }
  lia.
Qed.

Lemma u32_range (x : Z) : 0 <= Mmh3.u32 x < 2 ^ 32.
Proof.
  unfold Mmh3.u32, Mmh3.mask32. change 0xFFFFFFFF with (Z.ones 32).
  rewrite Z.land_ones by lia. apply Z.mod_pos_bound. reflexivity.
Qed.

Lemma shiftr_below_2_32 (x n : Z) :
  0 <= n -> 0 <= x < 2 ^ 32 -> 0 <= Z.shiftr x n < 2 ^ 32.
Proof.
  intros Hn Hx. rewrite Z.shiftr_div_pow2 by exact Hn.
  assert (0 < 2 ^ n) by (apply Z.pow_pos_nonneg; lia).
  split; [apply Z.div_pos; lia|].
  apply Z.le_lt_trans with x; [|lia]. apply Z.div_le_upper_bound; nia.
Qed.

Lemma murmur3_range (key : string) (seed : Z) :
  0 <= Mmh3.murmur3_x86_32 key seed < 2 ^ 32.
Proof.
  unfold Mmh3.murmur3_x86_32, Mmh3.fmix32. cbv zeta.
  apply lxor_below_2_32; [apply u32_range|].
  apply shiftr_below_2_32; [lia|apply u32_range].
Qed.

Lemma hash_signed_32 (key : string) (seed : Z) :
  - 2 ^ 31 <= Mmh3.hash key seed < 2 ^ 31.
Proof.
  unfold Mmh3.hash, Mmh3.to_signed32.
  pose proof (murmur3_range key seed) as H.
  destruct (Z.ltb_spec (Mmh3.murmur3_x86_32 key seed) (2 ^ 31)); lia.
Qed.

(** C8. For every key, seed [i >= 0] and positive [m], the offset
    [mmh3.hash(item_str, i) % m] computed by insert and query is obtained
    without error and lies in [0, m), although the hash itself is a signed
    32-bit value that may be negative; the byte it addresses lies inside
    the buffer of [(m + 7) // 8] bytes written at initialisation. *)
Theorem bit_offset_in_range (item_str : string) (i m : Z) :
  0 <= i -> 0 < m ->
  exists offset,
    py_mod (Mmh3.hash item_str i) m = Return offset /\
    0 <= offset < m /\
    - 2 ^ 31 <= Mmh3.hash item_str i < 2 ^ 31 /\
    (byte_index offset < String.length (zero_bytes ((m + 7) / 8)))%nat.
Proof.
  intros Hi Hm. exists (Mmh3.hash item_str i mod m).
  assert (Hoff : 0 <= Mmh3.hash item_str i mod m < m)
    by (apply Z.mod_pos_bound; exact Hm).
  repeat split; try lia; try apply hash_signed_32.
  - unfold py_mod. destruct (Z.eqb_spec m 0); [lia|reflexivity].
  - rewrite length_zero_bytes. unfold byte_index.
    rewrite Z.shiftr_div_pow2 by lia. change (2 ^ 3) with 8.
    apply Z2Nat.inj_lt; [apply Z.div_pos; lia|apply Z.div_pos; lia|].
    apply Z.div_lt_upper_bound; [lia|].
    pose proof (Z.mul_div_le (m + 7) 8). pose proof (Z.mod_pos_bound (m + 7) 8).
    pose proof (Z.div_mod (m + 7) 8). lia.
Qed.

(** ** Sizing *)

Lemma ln_2_bounds : (/ 2 < ln 2 < 1)%R.
Proof.
  split; [exact ln_lt_2|].
  rewrite <- (ln_exp 1). apply ln_increasing; [lra|].
  pose proof (exp_ineq1 1). lra.
Qed.

Lemma Int_part_bounds (x : R) : (IZR (Int_part x) <= x < IZR (Int_part x) + 1)%R.
Proof. pose proof (base_Int_part x). lra. Qed.

Lemma Int_part_mono (x y : R) : (x <= y)%R -> Int_part x <= Int_part y.
Proof.
  intros H. pose proof (Int_part_bounds x). pose proof (Int_part_bounds y).
  assert (L : (IZR (Int_part x) < IZR (Int_part y + 1))%R)
    by (rewrite plus_IZR; lra).
  apply lt_IZR in L. lia.
Qed.

Lemma Int_part_between (x : R) (z : Z) :
  (IZR z <= x < IZR z + 1)%R -> Int_part x = z.
Proof. intros H. symmetry. apply Int_part_spec. lra. Qed.

Lemma inv_ln_2_bounds : (1 < / ln 2 < 2)%R.
Proof.
  pose proof ln_2_bounds as B.
  assert (E : (ln 2 * / ln 2 = 1)%R) by (apply Rinv_r; lra).
  assert (P : (0 < / ln 2)%R) by (apply Rinv_0_lt_compat; lra).
  split; nra.
Qed.

Lemma optimum_one_half : (- (1 * ln (/ 2)) / (ln 2 ^ 2) = / ln 2)%R.
Proof.
  pose proof ln_2_bounds as B.
  rewrite (ln_Rinv 2) by lra. field. lra.
Qed.

(** *** [int(x)] truncates *)

Lemma powerRZ_2_nonneg (e : Z) : 0 <= e -> powerRZ 2 e = IZR (2 ^ e).
Proof.
  intros He. rewrite <- (Z2Nat.id e He) at 1.
  rewrite <- pow_powerRZ, pow_IZR, Z2Nat.id by exact He. reflexivity.
Qed.

Lemma powerRZ_2_neg (e : Z) : e < 0 -> powerRZ 2 e = (/ IZR (2 ^ (- e)))%R.
Proof.
  intros He. replace e with (- (- e)) at 1 by lia.
  rewrite powerRZ_neg', powerRZ_2_nonneg by lia. reflexivity.
Qed.

Lemma shifted_mantissa_bounds (m : positive) (e : Z) :
  let a := if Z.leb 0 e then Z.shiftl (Zpos m) e else Z.shiftr (Zpos m) (- e) in
  (IZR a <= IZR (Zpos m) * powerRZ 2 e < IZR a + 1)%R /\
  (0 < IZR (Zpos m) * powerRZ 2 e)%R.
Proof.
  cbv zeta.
  assert (Hm : (0 < IZR (Zpos m))%R) by (apply IZR_lt; reflexivity).
  assert (Hp : (0 < powerRZ 2 e)%R) by (apply powerRZ_lt; lra).
  split; [|apply Rmult_lt_0_compat; assumption].
  destruct (Z.leb_spec 0 e) as [He|He].
  - rewrite Z.shiftl_mul_pow2, mult_IZR, powerRZ_2_nonneg by exact He. lra.
  - rewrite Z.shiftr_div_pow2, powerRZ_2_neg by lia.
    set (d := 2 ^ (- e)).
    assert (Hd : 0 < d) by (apply Z.pow_pos_nonneg; lia).
    assert (HdR : (0 < IZR d)%R) by (apply IZR_lt; exact Hd).
    pose proof (Z.div_mod (Zpos m) d ltac:(lia)) as E.
    pose proof (Z.mod_pos_bound (Zpos m) d Hd) as [R0 R1].
    apply (f_equal IZR) in E. rewrite plus_IZR, mult_IZR in E.
    apply IZR_le in R0. apply IZR_lt in R1.
    assert (Ev : (IZR (Z.pos m) * / IZR d * IZR d = IZR (Z.pos m))%R)
      by (field; lra).
    set (v := (IZR (Z.pos m) * / IZR d)%R) in *.
    split; nra.
Qed.

Lemma int_of_float_truncates (x : float) (z : Z) :
  int_of_float x = Return z -> toward_zero (float_value x) z.
Proof.
  destruct x as [s|s| |s m e]; cbn [int_of_float float_value];
    intros E; try discriminate.
  - injection E as <-. unfold toward_zero. split; intros _; lra.
  - injection E as <-.
    destruct (shifted_mantissa_bounds m e) as [B P]. cbv zeta in B.
    set (a := if Z.leb 0 e then _ else _) in *.
    unfold toward_zero. destruct s; cbn [cond_Zopp].
    + change (IZR (Z.neg m)) with (IZR (- Z.pos m)). rewrite !opp_IZR.
      split; intros H; [exfalso|]; lra.
    + split; intros H; [|exfalso]; lra.
Qed.

Section SizingProperties.

Variable libc : clib.

Lemma sizing_floors (n : Z) (p : float) (m k : Z) :
  sizing libc n p = Return (m, k) -> 100 <= m /\ 1 <= k.
Proof.
  unfold sizing. destruct (raw_sizing libc n p) as [[m0 k0]|e]; [|discriminate].
  cbn. unfold floors. cbn [fst snd]. intros E. injection E as <- <-. lia.
Qed.

Lemma raw_sizing_returns (n : Z) (p : float) (m k : Z) :
  raw_sizing libc n p = Return (m, k) ->
  exists x_m x_k,
    m_float libc n p = Return x_m /\ int_of_float x_m = Return m /\
    k_float libc m n = Return x_k /\ int_of_float x_k = Return k.
Proof.
  unfold raw_sizing.
  destruct (m_float libc n p) as [x_m|] eqn:E1; [|discriminate]. cbn.
  destruct (int_of_float x_m) as [m0|] eqn:E2; [|discriminate]. cbn.
  destruct (k_float libc m0 n) as [x_k|] eqn:E3; [|discriminate]. cbn.
  destruct (int_of_float x_k) as [k0|] eqn:E4; [|discriminate]. cbn.
  intros E. injection E as <- <-. exists x_m, x_k. auto.
Qed.

(** C2, as the code has it.  Whenever lines 22 and 26 raise nothing, the
    raw values are truncations toward zero of double-precision results:
    [m_raw = int(x_m)] for the float [x_m] that
    [-(n * math.log(p)) / (math.log(2) ** 2)] evaluates to, and
    [k_raw = int(x_k)] for the float [x_k] that [(m_raw / n) * math.log(2)]
    evaluates to; the floors [max(100, .)] and [max(1, .)] are then applied
    to them. *)
Theorem raw_sizing_truncates (n : Z) (p : float) (m k : Z) :
  raw_sizing libc n p = Return (m, k) ->
  exists x_m x_k,
    m_float libc n p = Return x_m /\ int_of_float x_m = Return m /\
    toward_zero (float_value x_m) m /\
    k_float libc m n = Return x_k /\ int_of_float x_k = Return k /\
    toward_zero (float_value x_k) k /\
    sizing libc n p = Return (Z.max 100 m, Z.max 1 k).
Proof.
  intros Hraw.
  destruct (raw_sizing_returns n p m k Hraw) as (x_m & x_k & E1 & E2 & E3 & E4).
  exists x_m, x_k. repeat split; auto using int_of_float_truncates;
    try (apply int_of_float_truncates; assumption).
  unfold sizing. rewrite Hraw. reflexivity.
Qed.

End SizingProperties.

Lemma float_value_half : float_value float_half = (/ 2)%R.
Proof.
  unfold float_value, float_half. cbn [cond_Zopp].
  rewrite powerRZ_2_neg by lia.
  change (2 ^ (- (-53))) with (2 * 4503599627370496).
  rewrite mult_IZR. field.
Qed.

(** C2, as the specification words it, fails: with [n = 1] and [p = 0.5]
    the code computes the raw values [(1, 0)], whereas the ceiling of
    [1 / ln 2] is 2 and the rounding of [2 ln 2] is at least 1. *)
Lemma raw_sizing_is_not_ceil_round :
  float_value float_half = (/ 2)%R /\
  raw_sizing sample_clib 1 float_half = Return (1, 0) /\
  spec_m_raw 1 (/ 2) = 2 /\
  1 <= spec_k_raw 1 (/ 2) /\
  raw_sizing sample_clib 1 float_half
  <> Return (spec_m_raw 1 (/ 2), spec_k_raw 1 (/ 2)).
Proof.
  pose proof ln_2_bounds as B. pose proof inv_ln_2_bounds as I.
  assert (Hraw : raw_sizing sample_clib 1 float_half = Return (1, 0))
    by (vm_compute; reflexivity).
  assert (Hm : spec_m_raw 1 (/ 2) = 2).
  { unfold spec_m_raw, ceiling. rewrite optimum_one_half.
    rewrite (Int_part_between (- / ln 2) (-2)); [reflexivity|]. simpl. lra. }
  assert (Hk : 1 <= spec_k_raw 1 (/ 2)).
  { unfold spec_k_raw, nearest. rewrite Hm.
    replace 1 with (Int_part 1) at 1 by (apply Int_part_between; simpl; lra).
    apply Int_part_mono. lra. }
  split; [exact float_value_half|].
  split; [exact Hraw|].
  split; [exact Hm|].
  split; [exact Hk|].
  rewrite Hraw, Hm. intros E. inversion E.
Qed.

(** ** Rounding to nearest is monotone

    The sizing of line 22 is a chain of correctly rounded operations.
    Each is described through the exact value it rounds: [binary_round_aux]
    truncates a located value to a canonical mantissa, rounds that to the
    nearest even and renormalises, and the result grows with the exact
    value. *)

(** *** Powers of two and binary digits *)

Lemma bpow_pos (e : Z) : (0 < bpow e)%R.
Proof. apply powerRZ_lt. lra. Qed.

Lemma bpow_add (a b : Z) : bpow (a + b) = (bpow a * bpow b)%R.
Proof. apply powerRZ_add. lra. Qed.

Lemma bpow_0 : bpow 0 = 1%R.
Proof. reflexivity. Qed.

Lemma bpow_1 : bpow 1 = 2%R.
Proof. unfold bpow. simpl. lra. Qed.

Lemma bpow_succ (e : Z) : bpow (e + 1) = (2 * bpow e)%R.
Proof. rewrite bpow_add, bpow_1. lra. Qed.

Lemma bpow_opp (e : Z) : (bpow e * bpow (- e) = 1)%R.
Proof. rewrite <- bpow_add. replace (e + - e) with 0 by lia. reflexivity. Qed.

Lemma bpow_IZR (e : Z) : 0 <= e -> bpow e = IZR (2 ^ e).
Proof. apply powerRZ_2_nonneg. Qed.

Lemma bpow_le (a b : Z) : a <= b -> (bpow a <= bpow b)%R.
Proof.
  intros H. replace b with (a + (b - a)) by lia.
  rewrite bpow_add, (bpow_IZR (b - a)) by lia.
  assert (H1 : (1 <= IZR (2 ^ (b - a)))%R).
  { apply IZR_le. pose proof (Z.pow_pos_nonneg 2 (b - a)). lia. }
  pose proof (bpow_pos a). nra.
Qed.

Lemma digits2_pos_bounds (p : positive) :
  2 ^ (Zpos (digits2_pos p) - 1) <= Zpos p < 2 ^ Zpos (digits2_pos p).
Proof.
  induction p as [p IH|p IH|]; cbn [digits2_pos].
  - rewrite Pos2Z.inj_succ.
    replace (Z.succ (Zpos (digits2_pos p)) - 1)
      with (Z.succ (Zpos (digits2_pos p) - 1)) by lia.
    rewrite !Z.pow_succ_r by lia. lia.
  - rewrite Pos2Z.inj_succ.
    replace (Z.succ (Zpos (digits2_pos p)) - 1)
      with (Z.succ (Zpos (digits2_pos p) - 1)) by lia.
    rewrite !Z.pow_succ_r by lia. lia.
  - cbn. lia.
Qed.

Lemma Zdigits2_bounds (m : Z) :
  0 < m -> 2 ^ (Zdigits2 m - 1) <= m < 2 ^ Zdigits2 m.
Proof. destruct m as [|p|p]; try lia. intros _. apply digits2_pos_bounds. Qed.

Lemma Zdigits2_nonneg (m : Z) : 0 <= Zdigits2 m.
Proof. destruct m; cbn; lia. Qed.

Lemma Zdigits2_pos (m : Z) : 0 < m -> 0 < Zdigits2 m.
Proof. destruct m; cbn; lia. Qed.

Lemma Zdigits2_ge (m k : Z) : 0 <= k -> 2 ^ k <= m -> k + 1 <= Zdigits2 m.
Proof.
  intros Hk Hm.
  assert (0 < m) by (pose proof (Z.pow_pos_nonneg 2 k); lia).
  destruct (Zdigits2_bounds m) as [_ Hu]; [lia|].
  destruct (Z_lt_le_dec (Zdigits2 m) (k + 1)) as [Hlt|]; [|lia].
  exfalso. pose proof (Z.pow_le_mono_r 2 (Zdigits2 m) k). 
  pose proof (Zdigits2_nonneg m). lia.
Qed.

Lemma Zdigits2_le (m k : Z) : 0 <= k -> 0 <= m < 2 ^ k -> Zdigits2 m <= k.
Proof.
  intros Hk Hm. destruct (Z.eq_dec m 0) as [->|Hne]; [cbn; lia|].
  destruct (Zdigits2_bounds m) as [Hl _]; [lia|].
  destruct (Z_lt_le_dec k (Zdigits2 m)) as [Hlt|]; [|lia].
  exfalso. pose proof (Z.pow_le_mono_r 2 k (Zdigits2 m - 1)). lia.
Qed.

Lemma Zdigits2_mono (a b : Z) : 0 <= a <= b -> Zdigits2 a <= Zdigits2 b.
Proof.
  intros H. destruct (Z.eq_dec a 0) as [->|Hne]; [apply Zdigits2_nonneg|].
  destruct (Zdigits2_bounds a) as [Hl _]; [lia|].
  pose proof (Zdigits2_pos a).
  pose proof (Zdigits2_ge b (Zdigits2 a - 1)). lia.
Qed.

(** *** Shifting a mantissa to the right *)

Lemma bpow_m1 : bpow (-1) = (/ 2)%R.
Proof. unfold bpow. simpl. lra. Qed.

Lemma located_half (m e : Z) (l : location) (x : R) (m' : Z) (l' : location) :
  (forall y, position m l y -> position m' l' (y / 2)) ->
  located m e l x -> located m' (e + 1) l' x.
Proof.
  unfold located. intros H Hx.
  replace (- (e + 1)) with (- e + -1) by lia.
  rewrite bpow_add, bpow_m1.
  replace (x * (bpow (- e) * / 2))%R with (x * bpow (- e) / 2)%R by (unfold Rdiv; ring).
  apply H. exact Hx.
Qed.

Lemma shr_1_position (r : shr_record) (y : R) :
  0 <= shr_m r ->
  position (shr_m r) (loc_of_shr_record r) y ->
  position (shr_m (shr_1 r)) (loc_of_shr_record (shr_1 r)) (y / 2).
Proof.
  destruct r as [m rb sb]. cbn [shr_m]. intros Hm.
  destruct m as [|[p|p|]|]; [| | | |lia].
  - destruct rb, sb; cbn [shr_1 shr_m loc_of_shr_record position orb];
      intros H; lra.
  - assert (E : IZR (Z.pos p~1) = (2 * IZR (Z.pos p) + 1)%R)
      by (rewrite Pos2Z.inj_xI, plus_IZR, mult_IZR; reflexivity).
    destruct rb, sb; cbn [shr_1 shr_m loc_of_shr_record position orb];
      rewrite E; intros H; lra.
  - assert (E : IZR (Z.pos p~0) = (2 * IZR (Z.pos p))%R)
      by (rewrite Pos2Z.inj_xO, mult_IZR; reflexivity).
    destruct rb, sb; cbn [shr_1 shr_m loc_of_shr_record position orb];
      rewrite E; intros H; lra.
  - destruct rb, sb; cbn [shr_1 shr_m loc_of_shr_record position orb];
      intros H; lra.
Qed.

Lemma shr_1_digits (r : shr_record) :
  0 <= shr_m r ->
  0 <= shr_m (shr_1 r) /\
  Zdigits2 (shr_m (shr_1 r)) = Z.max 0 (Zdigits2 (shr_m r) - 1).
Proof.
  destruct r as [m rb sb]. cbn [shr_m]. intros Hm.
  destruct m as [|[p|p|]|]; [| | | |lia];
    cbn [shr_1 shr_m Zdigits2 digits2_pos]; lia.
Qed.

Lemma shr_steps_1 (r : shr_record) : shr_steps 1 r (shr_1 r).
Proof.
  intros Hm. destruct (shr_1_digits r Hm) as [H1 H2].
  split; [exact H1|]. split; [exact H2|].
  intros e x. apply located_half. intros y. apply shr_1_position. exact Hm.
Qed.

Lemma shr_steps_trans (j k : Z) (r r' r'' : shr_record) :
  0 <= j -> 0 <= k ->
  shr_steps j r r' -> shr_steps k r' r'' -> shr_steps (j + k) r r''.
Proof.
  intros Hj Hk H1 H2 Hm.
  destruct (H1 Hm) as (A1 & A2 & A3).
  destruct (H2 A1) as (B1 & B2 & B3).
  split; [exact B1|]. split; [lia|].
  intros e x Hx. replace (e + (j + k)) with (e + j + k) by lia.
  apply B3, A3, Hx.
Qed.

Lemma shr_steps_iter (p : positive) (r : shr_record) :
  shr_steps (Zpos p) r (SpecFloat.iter_pos shr_1 p r).
Proof.
  revert r. induction p as [p IH|p IH|]; intros r; cbn [SpecFloat.iter_pos].
  - replace (Zpos p~1) with (1 + (Zpos p + Zpos p)) by lia.
    apply shr_steps_trans with (r' := shr_1 r); [lia|lia|apply shr_steps_1|].
    apply shr_steps_trans with (r' := SpecFloat.iter_pos shr_1 p (shr_1 r)); [lia|lia|apply IH|apply IH].
  - replace (Zpos p~0) with (Zpos p + Zpos p) by lia.
    apply shr_steps_trans with (r' := SpecFloat.iter_pos shr_1 p r); [lia|lia|apply IH|apply IH].
  - apply shr_steps_1.
Qed.

Lemma shr_record_of_loc_m (m : Z) (l : location) :
  shr_m (shr_record_of_loc m l) = m.
Proof. destruct l as [|[]]; reflexivity. Qed.

Lemma loc_of_shr_record_of_loc (m : Z) (l : location) :
  loc_of_shr_record (shr_record_of_loc m l) = l.
Proof. destruct l as [|[]]; reflexivity. Qed.

Lemma fexp_eq (g : Z) : fexp 53 1024 g = Z.max (g - 53) (-1074).
Proof. reflexivity. Qed.

(** The first truncation: from enough digits to a canonical mantissa. *)
Lemma shr_fexp_spec (m e : Z) (l : location) (x : R) :
  0 <= m -> located m e l x -> e <= fexp 53 1024 (Zdigits2 m + e) ->
  exists m1 l1 e1,
    shr_fexp 53 1024 m e l = (shr_record_of_loc m1 l1, e1) /\
    located m1 e1 l1 x /\ canonical m1 e1.
Proof.
  intros Hm Hx He. unfold shr_fexp, shr.
  rewrite fexp_eq in *.
  pose proof (Zdigits2_nonneg m) as Hd.
  remember (Z.max (Zdigits2 m + e - 53) (-1074) - e) as n eqn:En.
  destruct n as [|p|p]; [| |lia].
  - exists m, l, e. split; [reflexivity|]. split; [exact Hx|].
    unfold canonical. lia.
  - pose proof (shr_steps_iter p (shr_record_of_loc m l)) as Hs.
    destruct Hs as (A1 & A2 & A3); [rewrite shr_record_of_loc_m; exact Hm|].
    rewrite shr_record_of_loc_m in A2.
    set (r' := SpecFloat.iter_pos shr_1 p (shr_record_of_loc m l)) in *.
    exists (shr_m r'), (loc_of_shr_record r'), (e + Zpos p).
    split.
    { f_equal. destruct r' as [m' [] []]; reflexivity. }
    split.
    { apply A3.
      rewrite shr_record_of_loc_m, loc_of_shr_record_of_loc. exact Hx. }
    unfold canonical. lia.
Qed.

(** *** Rounding a canonical mantissa *)

Lemma round_nearest_even_bounds (m : Z) (l : location) :
  m <= round_nearest_even m l <= m + 1.
Proof.
  destruct l as [|[]]; cbn [round_nearest_even]; try lia.
  destruct (Z.even m); lia.
Qed.

Lemma canonical_lt (m e : Z) : canonical m e -> m < 2 ^ 53.
Proof.
  intros (H0 & Hd & _). destruct (Z.eq_dec m 0) as [->|Hne]; [reflexivity|].
  destruct (Zdigits2_bounds m) as [_ Hu]; [lia|].
  pose proof (Z.pow_le_mono_r 2 (Zdigits2 m) 53). lia.
Qed.

Lemma canonical_ge (m e : Z) : canonical m e -> -1074 < e -> 2 ^ 52 <= m.
Proof.
  intros (H0 & Hd & He & Hn) Hlt. specialize (Hn Hlt).
  destruct (Z.eq_dec m 0) as [->|Hne]; [discriminate Hn|].
  destruct (Zdigits2_bounds m) as [Hl _]; [lia|].
  rewrite Hn in Hl. exact Hl.
Qed.

(** [binary_round_aux] on enough digits: truncate to a canonical mantissa,
    round it to nearest even, renormalise. *)
Lemma binary_round_aux_spec (s : bool) (m e : Z) (l : location) (x : R) :
  0 <= m -> located m e l x -> e <= fexp 53 1024 (Zdigits2 m + e) ->
  exists m1 l1 e1 mf ef,
    located m1 e1 l1 x /\ canonical m1 e1 /\
    canonical mf ef /\ e1 <= ef /\
    (IZR mf * bpow ef = IZR (round_nearest_even m1 l1) * bpow e1)%R /\
    binary_round_aux 53 1024 s m e l = mk_float s mf ef.
Proof.
  intros Hm Hx He.
  destruct (shr_fexp_spec m e l x Hm Hx He) as (m1 & l1 & e1 & E1 & L1 & C1).
  unfold binary_round_aux. rewrite E1.
  rewrite shr_record_of_loc_m, loc_of_shr_record_of_loc.
  pose proof (round_nearest_even_bounds m1 l1) as Hb.
  pose proof (canonical_lt m1 e1 C1) as Hlt.
  remember (round_nearest_even m1 l1) as m2 eqn:Em2.
  destruct C1 as (C0 & Cd & Ce & Cn).
  exists m1, l1, e1. rewrite <- Em2.
  destruct (Z.eq_dec m2 (2 ^ 53)) as [E2|N2].
  - exists (2 ^ 52), (e1 + 1).
    split; [exact L1|]. split; [unfold canonical; auto|].
    split; [unfold canonical; change (Zdigits2 (2 ^ 52)) with 53; lia|].
    split; [lia|].
    split.
    { rewrite E2, bpow_succ. change (2 ^ 53) with (2 * 2 ^ 52).
      rewrite mult_IZR. ring. }
    rewrite E2. unfold shr_fexp. change (Zdigits2 (2 ^ 53)) with 54.
    rewrite fexp_eq.
    replace (Z.max (54 + e1 - 53) (-1074) - e1) with 1 by lia.
    reflexivity.
  - exists m2, e1.
    assert (Hd2 : Zdigits2 m2 <= 53) by (apply Zdigits2_le; lia).
    assert (Hd12 : Zdigits2 m1 <= Zdigits2 m2) by (apply Zdigits2_mono; lia).
    split; [exact L1|]. split; [unfold canonical; auto|].
    split; [unfold canonical; lia|].
    split; [lia|]. split; [reflexivity|].
    unfold shr_fexp, shr. rewrite fexp_eq.
    remember (Z.max (Zdigits2 m2 + e1 - 53) (-1074) - e1) as n eqn:En.
    destruct n as [|p|p]; [| lia |]; reflexivity.
Qed.

Lemma located_lower (m e : Z) (l : location) (x : R) :
  located m e l x -> (IZR m * bpow e <= x)%R.
Proof.
  unfold located. intros H.
  assert (Hy : (IZR m <= x * bpow (- e))%R)
    by (destruct l as [|[]]; cbn [position] in H; lra).
  pose proof (bpow_pos e) as Hp. pose proof (bpow_opp e) as Ho.
  apply (Rmult_le_compat_r (bpow e)) in Hy; [|lra].
  replace (x * bpow (- e) * bpow e)%R with (x * (bpow e * bpow (- e)))%R in Hy by ring.
  rewrite Ho in Hy. lra.
Qed.

Lemma located_upper (m e : Z) (l : location) (x : R) :
  located m e l x -> (x < (IZR m + 1) * bpow e)%R.
Proof.
  unfold located. intros H.
  assert (Hy : (x * bpow (- e) < IZR m + 1)%R)
    by (destruct l as [|[]]; cbn [position] in H; lra).
  pose proof (bpow_pos e) as Hp. pose proof (bpow_opp e) as Ho.
  apply (Rmult_lt_compat_r (bpow e)) in Hy; [|lra].
  replace (x * bpow (- e) * bpow e)%R with (x * (bpow e * bpow (- e)))%R in Hy by ring.
  rewrite Ho in Hy. lra.
Qed.

Lemma round_same_exponent (m1 m2 : Z) (l1 l2 : location) (y1 y2 : R) :
  position m1 l1 y1 -> position m2 l2 y2 -> (y1 <= y2)%R ->
  round_nearest_even m1 l1 <= round_nearest_even m2 l2.
Proof.
  intros H1 H2 Hy.
  pose proof (round_nearest_even_bounds m1 l1) as B1.
  pose proof (round_nearest_even_bounds m2 l2) as B2.
  destruct (Z_lt_le_dec m1 m2) as [Hlt|Hge]; [lia|].
  destruct (Z.eq_dec m1 m2) as [->|Hne].
  - destruct l1 as [|[]], l2 as [|[]]; cbn [position round_nearest_even] in *;
      try lia; try (destruct (Z.even m2); lia); exfalso; lra.
  - exfalso. assert (Hm : (IZR m2 + 1 <= IZR m1)%R).
    { rewrite <- plus_IZR. apply IZR_le. lia. }
    assert (A1 : (IZR m1 <= y1)%R)
      by (destruct l1 as [|[]]; cbn [position] in H1; lra).
    assert (A2 : (y2 < IZR m2 + 1)%R)
      by (destruct l2 as [|[]]; cbn [position] in H2; lra).
    lra.
Qed.

(** Rounding to nearest even is monotone. *)
Lemma round_mono (m1 e1 : Z) (l1 : location) (x1 : R)
    (m2 e2 : Z) (l2 : location) (x2 : R) :
  located m1 e1 l1 x1 -> canonical m1 e1 ->
  located m2 e2 l2 x2 -> canonical m2 e2 ->
  (x1 <= x2)%R ->
  (IZR (round_nearest_even m1 l1) * bpow e1
   <= IZR (round_nearest_even m2 l2) * bpow e2)%R.
Proof.
  intros L1 C1 L2 C2 Hx.
  pose proof (round_nearest_even_bounds m1 l1) as B1.
  pose proof (round_nearest_even_bounds m2 l2) as B2.
  pose proof (canonical_lt _ _ C1) as U1.
  pose proof (canonical_lt _ _ C2) as U2.
  pose proof (bpow_pos e1) as P1. pose proof (bpow_pos e2) as P2.
  destruct (Z.lt_trichotomy e1 e2) as [Hlt|[Heq|Hgt]].
  - (* the smaller value lies in a lower binade *)
    pose proof (canonical_ge _ _ C2 ltac:(destruct C1 as (_ & _ & ? & _); lia)) as G2.
    assert (A1 : (IZR (round_nearest_even m1 l1) <= IZR (2 ^ 53))%R)
      by (apply IZR_le; lia).
    assert (A2 : (IZR (2 ^ 52) <= IZR (round_nearest_even m2 l2))%R)
      by (apply IZR_le; lia).
    assert (A3 : (2 * bpow e1 <= bpow e2)%R).
    { rewrite <- bpow_succ. apply bpow_le. lia. }
    change (2 ^ 53) with (2 * 2 ^ 52) in A1. rewrite mult_IZR in A1.
    assert (P52 : (0 < IZR (2 ^ 52))%R) by (apply IZR_lt; reflexivity).
    apply Rle_trans with (2 * IZR (2 ^ 52) * bpow e1)%R.
    + apply Rmult_le_compat_r; lra.
    + apply Rle_trans with (IZR (2 ^ 52) * bpow e2)%R.
      * replace (2 * IZR (2 ^ 52) * bpow e1)%R
          with (IZR (2 ^ 52) * (2 * bpow e1))%R by ring.
        apply Rmult_le_compat_l; lra.
      * apply Rmult_le_compat_r; lra.
  - subst e2. apply Rmult_le_compat_r; [lra|]. apply IZR_le.
    apply (round_same_exponent m1 m2 l1 l2 (x1 * bpow (- e1)) (x2 * bpow (- e1)));
      [exact L1|exact L2|].
    apply Rmult_le_compat_r; [|exact Hx]. pose proof (bpow_pos (- e1)). lra.
  - (* impossible: the smaller value would lie in a higher binade *)
    exfalso.
    pose proof (canonical_ge _ _ C1 ltac:(destruct C2 as (_ & _ & ? & _); lia)) as G1.
    pose proof (located_lower _ _ _ _ L1) as A1.
    pose proof (located_upper _ _ _ _ L2) as A2.
    assert (A3 : (2 * bpow e2 <= bpow e1)%R).
    { rewrite <- bpow_succ. apply bpow_le. lia. }
    assert (A4 : (IZR (2 ^ 52) <= IZR m1)%R) by (apply IZR_le; lia).
    assert (A5 : (IZR m2 + 1 <= IZR (2 ^ 53))%R)
      by (rewrite <- plus_IZR; apply IZR_le; lia).
    change (2 ^ 53) with (2 * 2 ^ 52) in A5. rewrite mult_IZR in A5.
    assert (P52 : (0 < IZR (2 ^ 52))%R) by (apply IZR_lt; reflexivity).
    assert (A6 : (IZR (2 ^ 52) * bpow e1 <= IZR m1 * bpow e1)%R)
      by (apply Rmult_le_compat_r; lra).
    assert (A7 : ((IZR m2 + 1) * bpow e2 <= 2 * IZR (2 ^ 52) * bpow e2)%R)
      by (apply Rmult_le_compat_r; lra).
    assert (A8 : (IZR (2 ^ 52) * (2 * bpow e2) <= IZR (2 ^ 52) * bpow e1)%R)
      by (apply Rmult_le_compat_l; lra).
    lra.
Qed.

(** *** The operations of line 22 *)

(** Division: the quotient and its location. *)

Lemma new_location_position (m2 q r : Z) :
  0 <= r < m2 ->
  position q (new_location m2 r) (IZR q + IZR r / IZR m2).
Proof.
  intros Hr.
  assert (HM : (0 < IZR m2)%R) by (apply IZR_lt; lia).
  assert (Hf : (IZR r / IZR m2 * IZR m2 = IZR r)%R) by (field; lra).
  assert (H0 : (0 <= IZR r)%R) by (apply IZR_le; lia).
  assert (Hcmp : forall c, Z.compare (2 * r) m2 = c ->
     match c with
     | Lt => (2 * IZR r < IZR m2)%R
     | Eq => (2 * IZR r = IZR m2)%R
     | Gt => (2 * IZR r > IZR m2)%R
     end).
  { intros c Hc. change 2%R with (IZR 2). rewrite <- mult_IZR.
    destruct c.
    - apply Z.compare_eq in Hc. rewrite Hc. reflexivity.
    - apply IZR_lt. apply -> Z.compare_lt_iff. exact Hc.
    - apply Rlt_gt, IZR_lt. apply Z.compare_gt_iff. exact Hc. }
  assert (Hpos : r <> 0 -> (0 < IZR r)%R) by (intros; apply IZR_lt; lia).
  assert (H1 : (IZR r < IZR m2)%R) by (apply IZR_lt; lia).
  set (f := (IZR r / IZR m2)%R) in *.
  unfold new_location.
  destruct (Z.even m2) eqn:Hev.
  - unfold new_location_even. destruct (Z.eqb_spec r 0) as [->|Hne].
    + cbn [position]. unfold f. rewrite Rdiv_0_l. lra.
    + specialize (Hpos Hne). specialize (Hcmp _ eq_refl).
      destruct (Z.compare (2 * r) m2); cbn [position]; nra.
  - unfold new_location_odd. destruct (Z.eqb_spec r 0) as [->|Hne].
    + cbn [position]. unfold f. rewrite Rdiv_0_l. lra.
    + specialize (Hpos Hne).
      assert (Hodd : Z.odd m2 = true) by (rewrite <- Z.negb_even, Hev; reflexivity).
      apply Z.odd_spec in Hodd. destruct Hodd as (k & Hk).
      destruct (Z.compare (2 * r + 1) m2) eqn:Hc.
      * apply Z.compare_eq in Hc.
        assert (H2 : (2 * IZR r < IZR m2)%R)
          by (change 2%R with (IZR 2); rewrite <- mult_IZR; apply IZR_lt; lia).
        cbn [position]. nra.
      * apply -> Z.compare_lt_iff in Hc.
        assert (H2 : (2 * IZR r < IZR m2)%R)
          by (change 2%R with (IZR 2); rewrite <- mult_IZR; apply IZR_lt; lia).
        cbn [position]. nra.
      * apply Z.compare_gt_iff in Hc.
        assert (H2 : (IZR m2 < 2 * IZR r)%R)
          by (change 2%R with (IZR 2); rewrite <- mult_IZR; apply IZR_lt; lia).
        cbn [position]. nra.
Qed.

Lemma SFdiv_core_binary_spec (m1 e1 m2 e2 : Z) :
  0 < m1 -> 0 < m2 ->
  exists q e' l,
    SFdiv_core_binary 53 1024 m1 e1 m2 e2 = (q, e', l) /\
    0 <= q /\
    located q e' l (IZR m1 * bpow e1 / (IZR m2 * bpow e2)) /\
    e' <= fexp 53 1024 (Zdigits2 q + e').
Proof.
  intros H1 H2. unfold SFdiv_core_binary. rewrite !fexp_eq.
  set (d1 := Zdigits2 m1). set (d2 := Zdigits2 m2).
  set (e' := Z.min (Z.max (d1 + e1 - (d2 + e2) - 53) (-1074)) (e1 - e2)).
  set (s := e1 - e2 - e').
  assert (Hs : 0 <= s) by (unfold s, e'; lia).
  set (m' := match s with Z.pos _ => Z.shiftl m1 s | 0 => m1 | Z.neg _ => 0 end).
  assert (Hm' : m' = m1 * 2 ^ s).
  { unfold m'. destruct s as [|p|p]; [lia| |lia].
    apply Z.shiftl_mul_pow2. lia. }
  clearbody m'.
  pose proof (Z_div_mod m' m2 ltac:(lia)) as Hdiv.
  destruct (Z.div_eucl m' m2) as [q r]. destruct Hdiv as [Hq Hr].
  assert (Hp : 0 < 2 ^ s) by (apply Z.pow_pos_nonneg; lia).
  assert (Hq0 : 0 <= q) by nia.
  exists q, e', (new_location m2 r).
  split; [reflexivity|]. split; [exact Hq0|]. split.
  - unfold located.
    replace (IZR m1 * bpow e1 / (IZR m2 * bpow e2) * bpow (- e'))%R
      with (IZR q + IZR r / IZR m2)%R; [apply new_location_position; exact Hr|].
    assert (HM : (0 < IZR m2)%R) by (apply IZR_lt; lia).
    pose proof (bpow_pos e2) as P2.
    assert (E : (IZR m1 * bpow s = IZR m2 * IZR q + IZR r)%R).
    { rewrite bpow_IZR by exact Hs. rewrite <- !mult_IZR, <- plus_IZR.
      f_equal. lia. }
    assert (B : (bpow e1 * bpow (- e') = bpow s * bpow e2)%R).
    { rewrite <- !bpow_add. f_equal. unfold s. lia. }
    apply (Rmult_eq_reg_r (IZR m2 * bpow e2)); [|nra].
    transitivity (IZR m1 * (bpow e1 * bpow (- e')))%R; [|field; lra].
    rewrite B.
    transitivity ((IZR m2 * IZR q + IZR r) * bpow e2)%R; [field; lra|].
    rewrite <- E. ring.
  - rewrite fexp_eq. destruct (Z_le_gt_dec e' (-1074)) as [Hle|Hgt]; [lia|].
    assert (Hd1 : 2 ^ (d1 - 1) <= m1) by (apply Zdigits2_bounds; exact H1).
    assert (Hd2 : m2 < 2 ^ d2) by (apply Zdigits2_bounds; exact H2).
    assert (Hd1p : 0 < d1) by (apply Zdigits2_pos; exact H1).
    assert (Hd2p : 0 < d2) by (apply Zdigits2_pos; exact H2).
    assert (Hs' : 52 + d2 <= d1 - 1 + s) by (unfold s, e' in *; lia).
    assert (Hpow : 2 ^ 52 * 2 ^ d2 <= 2 ^ (d1 - 1) * 2 ^ s).
    { rewrite <- !Z.pow_add_r by lia. apply Z.pow_le_mono_r; lia. }
    assert (Hq52 : 2 ^ 52 <= q).
    { assert (0 < 2 ^ (d1 - 1)) by (apply Z.pow_pos_nonneg; lia).
      assert (A : 2 ^ 52 * m2 <= m') by nia.
      destruct (Z_le_gt_dec (2 ^ 52) q) as [|Hlt]; [assumption|].
      exfalso. assert (q + 1 <= 2 ^ 52) by lia. nia. }
    pose proof (Zdigits2_ge q 52 ltac:(lia) Hq52). lia.
Qed.

(** Aligning an integer before it is rounded. *)

Lemma iter_xO_spec (p d : positive) :
  Zpos (Pos.iter xO p d) = Zpos p * 2 ^ Zpos d /\
  Zpos (digits2_pos (Pos.iter xO p d)) = Zpos (digits2_pos p) + Zpos d.
Proof.
  induction d as [|d IH] using Pos.peano_ind.
  - cbn [Pos.iter digits2_pos]. split; [lia|]. rewrite Pos2Z.inj_succ. lia.
  - rewrite Pos.iter_succ. destruct IH as [IH1 IH2].
    cbn [digits2_pos]. rewrite Pos2Z.inj_xO, IH1, !Pos2Z.inj_succ, IH2.
    rewrite Z.pow_succ_r by lia. split; lia.
Qed.

Lemma shl_align_spec (p : positive) (ex ex' : Z) :
  exists mz ez,
    shl_align p ex ex' = (mz, ez) /\
    (IZR (Zpos mz) * bpow ez = IZR (Zpos p) * bpow ex)%R /\
    Zdigits2 (Zpos mz) + ez = Zdigits2 (Zpos p) + ex /\
    ez = Z.min ex ex'.
Proof.
  unfold shl_align. remember (ex' - ex) as n eqn:En.
  destruct n as [|d|d].
  - exists p, ex. repeat split; lia.
  - exists p, ex. repeat split; lia.
  - exists (Pos.iter xO p d), ex'.
    destruct (iter_xO_spec p d) as [E1 E2].
    split; [reflexivity|]. split; [|split].
    + rewrite E1, mult_IZR, <- bpow_IZR by lia.
      rewrite Rmult_assoc, <- bpow_add. do 2 f_equal. lia.
    + cbn [Zdigits2]. lia.
    + lia.
Qed.

(** *** The rounded operations *)

Lemma binary_round_aux_rounds (s : bool) (m e : Z) (l : location) (x : R) :
  0 <= m -> located m e l x -> e <= fexp 53 1024 (Zdigits2 m + e) ->
  exists mf ef,
    rounds_to x mf ef /\ binary_round_aux 53 1024 s m e l = mk_float s mf ef.
Proof.
  intros Hm Hx He.
  destruct (binary_round_aux_spec s m e l x Hm Hx He)
    as (m1 & l1 & e1 & mf & ef & H1 & H2 & H3 & H4 & H5 & H6).
  exists mf, ef. split; [|exact H6]. exists m1, l1, e1. auto.
Qed.

Lemma rounds_to_mono (x x' : R) (mf ef mf' ef' : Z) :
  rounds_to x mf ef -> rounds_to x' mf' ef' -> (x <= x')%R ->
  (IZR mf * bpow ef <= IZR mf' * bpow ef')%R.
Proof.
  intros (m1 & l1 & e1 & L1 & C1 & _ & _ & E1)
         (m2 & l2 & e2 & L2 & C2 & _ & _ & E2) Hx.
  rewrite E1, E2. apply (round_mono m1 e1 l1 x m2 e2 l2 x'); assumption.
Qed.

Lemma rounds_to_canonical (x : R) (mf ef : Z) :
  rounds_to x mf ef -> canonical mf ef.
Proof. intros (m1 & l1 & e1 & _ & _ & C & _). exact C. Qed.

Lemma bpow_53 : bpow 53 = IZR (2 ^ 53).
Proof. apply bpow_IZR. lia. Qed.

(** A value of at least one rounds to a normal number. *)
Lemma rounds_to_normal (x : R) (mf ef : Z) :
  rounds_to x mf ef -> (1 <= x)%R -> 2 ^ 52 <= mf.
Proof.
  intros (m1 & l1 & e1 & L1 & C1 & C & He & E) Hx.
  apply (canonical_ge mf ef C).
  destruct (Z_le_gt_dec e1 (-1074)) as [Hle|Hgt]; [exfalso|lia].
  pose proof (located_upper _ _ _ _ L1) as U.
  pose proof (canonical_lt _ _ C1) as Hlt.
  assert (A : (IZR m1 + 1 <= bpow 53)%R).
  { rewrite bpow_53, <- plus_IZR. apply IZR_le. lia. }
  pose proof (bpow_pos e1) as P.
  assert (B : ((IZR m1 + 1) * bpow e1 <= bpow 53 * bpow e1)%R)
    by (apply Rmult_le_compat_r; lra).
  rewrite <- bpow_add in B.
  pose proof (bpow_le (53 + e1) 0 ltac:(lia)) as D. rewrite bpow_0 in D.
  lra.
Qed.

Lemma canonical_exponent_mono (mf ef mf' ef' : Z) :
  canonical mf ef -> canonical mf' ef' -> 0 < mf ->
  (IZR mf * bpow ef <= IZR mf' * bpow ef')%R ->
  0 < mf' /\ ef <= ef'.
Proof.
  intros C C' Hpos Hv.
  pose proof (bpow_pos ef) as P. pose proof (bpow_pos ef') as P'.
  assert (Hm : (0 < IZR mf)%R) by (apply IZR_lt; exact Hpos).
  assert (Hv0 : (0 < IZR mf * bpow ef)%R) by (apply Rmult_lt_0_compat; lra).
  assert (Hpos' : 0 < mf').
  { destruct (Z_lt_le_dec 0 mf') as [|Hle]; [assumption|exfalso].
    apply IZR_le in Hle. nra. }
  split; [exact Hpos'|].
  destruct (Z_le_gt_dec ef ef') as [|Hgt]; [assumption|exfalso].
  pose proof (canonical_ge _ _ C ltac:(destruct C' as (_ & _ & ? & _); lia)) as G.
  pose proof (canonical_lt _ _ C') as U.
  assert (A3 : (2 * bpow ef' <= bpow ef)%R).
  { rewrite <- bpow_succ. apply bpow_le. lia. }
  assert (A4 : (IZR (2 ^ 52) <= IZR mf)%R) by (apply IZR_le; lia).
  assert (A5 : (IZR mf' < IZR (2 ^ 53))%R) by (apply IZR_lt; lia).
  change (2 ^ 53) with (2 * 2 ^ 52) in A5. rewrite mult_IZR in A5.
  assert (P52 : (0 < IZR (2 ^ 52))%R) by (apply IZR_lt; reflexivity).
  assert (A6 : (IZR (2 ^ 52) * bpow ef <= IZR mf * bpow ef)%R)
    by (apply Rmult_le_compat_r; lra).
  assert (A7 : (IZR mf' * bpow ef' < 2 * IZR (2 ^ 52) * bpow ef')%R)
    by (apply Rmult_lt_compat_r; lra).
  assert (A8 : (IZR (2 ^ 52) * (2 * bpow ef') <= IZR (2 ^ 52) * bpow ef)%R)
    by (apply Rmult_le_compat_l; lra).
  lra.
Qed.

Lemma mk_float_cases (s : bool) (mf ef : Z) :
  0 <= mf ->
  (mf = 0 /\ mk_float s mf ef = S754_zero s) \/
  (exists p, mf = Zpos p /\ ef <= 971 /\ mk_float s mf ef = S754_finite s p ef) \/
  (0 < mf /\ 971 < ef /\ mk_float s mf ef = S754_infinity s).
Proof.
  intros H. destruct mf as [|p|p]; [left; auto| |lia].
  right. unfold mk_float. destruct (Z.leb_spec ef 971).
  - left. exists p. auto.
  - right. split; [lia|]. auto.
Qed.

Lemma float_value_finite (s : bool) (p : positive) (e : Z) :
  float_value (S754_finite s p e) = (IZR (cond_Zopp s (Zpos p)) * bpow e)%R.
Proof. reflexivity. Qed.

(** An int converted to a float. *)
Lemma float_of_int_rounds (n : Z) (nf : float) :
  0 < n -> float_of_int n = Return nf ->
  exists mn en,
    nf = S754_finite false mn en /\ rounds_to (IZR n) (Zpos mn) en /\
    2 ^ 52 <= Zpos mn.
Proof.
  intros Hn. destruct n as [|p|p]; try lia.
  unfold float_of_int. cbn [binary_normalize]. unfold binary_round.
  destruct (shl_align_spec p 0 (fexp 53 1024 (Zpos (digits2_pos p) + 0)))
    as (mz & ez & -> & Ev & Ed & Ee).
  destruct (binary_round_aux_rounds false (Zpos mz) ez loc_Exact (IZR (Zpos p)))
    as (mf & ef & Hr & ->).
  - lia.
  - unfold located. cbn [position]. rewrite bpow_0, Rmult_1_r in Ev.
    rewrite <- Ev, Rmult_assoc, bpow_opp. ring.
  - rewrite Ed. cbn [Zdigits2]. lia.
  - assert (Hm : 2 ^ 52 <= mf).
    { apply (rounds_to_normal _ _ _ Hr). apply IZR_le. lia. }
    destruct (mk_float_cases false mf ef ltac:(lia))
      as [[E _]|[(q & E1 & E2 & ->)|(_ & _ & ->)]].
    + lia.
    + cbn [is_inf]. intros E. injection E as <-. exists q, ef. subst mf. auto.
    + cbn [is_inf]. discriminate.
Qed.

(** The product of a normal number and a finite one. *)
Lemma float_mul_rounds (sx : bool) (mx : positive) (ex : Z)
    (sy : bool) (my : positive) (ey : Z) :
  2 ^ 52 <= Zpos mx ->
  exists mf ef,
    rounds_to (IZR (Zpos mx) * bpow ex * (IZR (Zpos my) * bpow ey)) mf ef /\
    float_mul (S754_finite sx mx ex) (S754_finite sy my ey)
    = mk_float (xorb sx sy) mf ef.
Proof.
  intros Hx. unfold float_mul. cbn [SFmul].
  apply binary_round_aux_rounds.
  - lia.
  - unfold located. cbn [position].
    rewrite Pos2Z.inj_mul, mult_IZR.
    replace (- (ex + ey)) with (- ex + - ey) by lia. rewrite bpow_add.
    pose proof (bpow_opp ex) as Ox. pose proof (bpow_opp ey) as Oy.
    transitivity (IZR (Zpos mx) * IZR (Zpos my)
                  * (bpow ex * bpow (- ex)) * (bpow ey * bpow (- ey)))%R;
      [ring|].
    rewrite Ox, Oy. ring.
  - rewrite fexp_eq.
    assert (2 ^ 52 <= Zpos (mx * my)) by (rewrite Pos2Z.inj_mul; nia).
    pose proof (Zdigits2_ge (Zpos (mx * my)) 52 ltac:(lia) H). lia.
Qed.

(** The quotient of two finite numbers. *)
Lemma float_quotient_rounds (sx : bool) (mx : positive) (ex : Z)
    (sy : bool) (my : positive) (ey : Z) :
  exists mf ef,
    rounds_to (IZR (Zpos mx) * bpow ex / (IZR (Zpos my) * bpow ey)) mf ef /\
    float_quotient (S754_finite sx mx ex) (S754_finite sy my ey)
    = mk_float (xorb sx sy) mf ef.
Proof.
  unfold float_quotient. cbn [SFdiv].
  destruct (SFdiv_core_binary_spec (Zpos mx) ex (Zpos my) ey)
    as (q & e' & l & -> & Hq & Hl & He); [lia|lia|].
  apply binary_round_aux_rounds; assumption.
Qed.

(** Comparing two scaled integers at a common exponent. *)
Lemma scaled_le (a b e1 e2 : Z) :
  a * 2 ^ (e1 - Z.min e1 e2) <= b * 2 ^ (e2 - Z.min e1 e2) ->
  (IZR a * bpow e1 <= IZR b * bpow e2)%R.
Proof.
  intros H. remember (Z.min e1 e2) as e0 eqn:E0.
  assert (E1 : bpow e1 = (IZR (2 ^ (e1 - e0)) * bpow e0)%R).
  { rewrite <- bpow_IZR, <- bpow_add by lia. f_equal. lia. }
  assert (E2 : bpow e2 = (IZR (2 ^ (e2 - e0)) * bpow e0)%R).
  { rewrite <- bpow_IZR, <- bpow_add by lia. f_equal. lia. }
  rewrite E1, E2, <- !Rmult_assoc, <- !mult_IZR.
  apply Rmult_le_compat_r; [left; apply bpow_pos|]. apply IZR_le. exact H.
Qed.

(** [int(x)] is monotone. *)
Lemma toward_zero_mono (x y : R) (a b : Z) :
  toward_zero x a -> toward_zero y b -> (x <= y)%R -> a <= b.
Proof.
  intros [A1 A2] [B1 B2] Hxy.
  destruct (Rle_dec 0 x) as [Hx|Hx].
  - assert (Hy : (0 <= y)%R) by lra.
    specialize (A1 Hx). specialize (B1 Hy).
    assert (H : (IZR a < IZR (b + 1))%R) by (rewrite plus_IZR; lra).
    apply lt_IZR in H. lia.
  - apply Rnot_le_lt in Hx. assert (Hx' : (x <= 0)%R) by lra.
    specialize (A2 Hx').
    assert (Ha : (IZR (a - 1) < IZR 0)%R) by (rewrite minus_IZR; lra).
    apply lt_IZR in Ha.
    destruct (Rle_dec 0 y) as [Hy|Hy].
    + specialize (B1 Hy).
      assert (Hb : (IZR (-1) < IZR b)%R) by lra.
      apply lt_IZR in Hb. lia.
    + apply Rnot_le_lt in Hy. assert (Hy' : (y <= 0)%R) by lra.
      specialize (B2 Hy').
      assert (H : (IZR (a - 1) < IZR b)%R) by (rewrite minus_IZR; lra).
      apply lt_IZR in H. lia.
Qed.

(** *** Line 22 as a whole *)

Lemma toward_zero_0 : toward_zero 0 0.
Proof. unfold toward_zero. split; intros _; lra. Qed.

Lemma rounds_to_0 : rounds_to 0 0 (-1074).
Proof.
  exists 0, loc_Exact, (-1074).
  split; [unfold located; cbn [position]; lra|].
  assert (C : canonical 0 (-1074)) by (unfold canonical; cbn; lia).
  repeat split; try apply C; try lia.
Qed.

Lemma int_of_mk_float (s : bool) (mf ef a : Z) :
  0 <= mf -> int_of_float (mk_float s mf ef) = Return a ->
  toward_zero (IZR (cond_Zopp s mf) * bpow ef) a /\ (0 < mf -> ef <= 971).
Proof.
  intros Hm Ha.
  destruct (mk_float_cases s mf ef Hm)
    as [[-> E]|[(q & -> & E2 & E)|(_ & _ & E)]]; rewrite E in Ha.
  - injection Ha as <-. split; [|lia].
    replace (IZR (cond_Zopp s 0)) with 0%R by (destruct s; reflexivity).
    rewrite Rmult_0_l. apply toward_zero_0.
  - split; [|lia]. rewrite <- float_value_finite.
    apply int_of_float_truncates. exact Ha.
  - discriminate Ha.
Qed.

(** Line 22 once the product is known: the quotient by a finite [den],
    truncated. *)
Lemma quotient_of_rounded (sl : bool) (mf ef : Z) (sd : bool) (md : positive)
    (ed a : Z) :
  canonical mf ef ->
  int_of_float (float_quotient (float_neg (mk_float sl mf ef))
                  (S754_finite sd md ed)) = Return a ->
  exists qf qe,
    rounds_to (IZR mf * bpow ef / (IZR (Zpos md) * bpow ed)) qf qe /\
    toward_zero (IZR (cond_Zopp (xorb (negb sl) sd) qf) * bpow qe) a.
Proof.
  intros C Ha.
  destruct (mk_float_cases sl mf ef ltac:(apply C))
    as [[-> E]|[(q & -> & E2 & E)|(_ & _ & E)]]; rewrite E in Ha.
  - cbn in Ha. injection Ha as <-. exists 0, (-1074).
    split.
    + replace (IZR 0 * bpow ef / (IZR (Z.pos md) * bpow ed))%R with 0%R
        by (unfold Rdiv; ring).
      apply rounds_to_0.
    + replace (IZR (cond_Zopp (xorb (negb sl) sd) 0)) with 0%R
        by (destruct (xorb (negb sl) sd); reflexivity).
      rewrite Rmult_0_l. apply toward_zero_0.
  - cbn [float_neg SFopp] in Ha.
    destruct (float_quotient_rounds (negb sl) q ef sd md ed)
      as (qf & qe & Hr & Eq).
    rewrite Eq in Ha. exists qf, qe. split; [exact Hr|].
    apply (int_of_mk_float _ _ _ _ ltac:(apply (rounds_to_canonical _ _ _ Hr)) Ha).
  - cbn in Ha. discriminate Ha.
Qed.

(** The heart of line 22: with a finite logarithm and a finite divisor the
    truncated quotient is monotone in the exact product. *)
Lemma quotient_chain (mn : positive) (en : Z) (mn' : positive) (en' : Z)
    (sl : bool) (ml : positive) (el : Z) (ml' : positive) (el' : Z)
    (sd : bool) (md : positive) (ed a b : Z) :
  2 ^ 52 <= Zpos mn -> 2 ^ 52 <= Zpos mn' ->
  (IZR (Zpos mn) * bpow en * (IZR (Zpos ml) * bpow el)
   <= IZR (Zpos mn') * bpow en' * (IZR (Zpos ml') * bpow el'))%R ->
  int_of_float
    (float_quotient
       (float_neg (float_mul (S754_finite false mn en) (S754_finite sl ml el)))
       (S754_finite sd md ed)) = Return a ->
  int_of_float
    (float_quotient
       (float_neg (float_mul (S754_finite false mn' en') (S754_finite sl ml' el')))
       (S754_finite sd md ed)) = Return b ->
  if xorb (negb sl) sd then a <= 0 /\ b <= 0 else 0 <= a <= b.
Proof.
  intros Hn Hn' HX Ha Hb.
  destruct (float_mul_rounds false mn en sl ml el Hn) as (mf & ef & R1 & E1).
  destruct (float_mul_rounds false mn' en' sl ml' el' Hn') as (mf' & ef' & R1' & E1').
  rewrite E1 in Ha. rewrite E1' in Hb. cbn [xorb] in Ha, Hb.
  pose proof (rounds_to_mono _ _ _ _ _ _ R1 R1' HX) as V.
  destruct (quotient_of_rounded sl mf ef sd md ed a
              (rounds_to_canonical _ _ _ R1) Ha) as (qf & qe & Q & Ta).
  destruct (quotient_of_rounded sl mf' ef' sd md ed b
              (rounds_to_canonical _ _ _ R1') Hb) as (qf' & qe' & Q' & Tb).
  assert (Hden : (0 < IZR (Zpos md) * bpow ed)%R).
  { apply Rmult_lt_0_compat; [apply IZR_lt; reflexivity|apply bpow_pos]. }
  assert (HQ : (IZR mf * bpow ef / (IZR (Zpos md) * bpow ed)
                <= IZR mf' * bpow ef' / (IZR (Zpos md) * bpow ed))%R).
  { unfold Rdiv. apply Rmult_le_compat_r; [|exact V].
    left. apply Rinv_0_lt_compat. exact Hden. }
  pose proof (rounds_to_mono _ _ _ _ _ _ Q Q' HQ) as W.
  assert (P : (0 <= IZR qf * bpow qe)%R).
  { apply Rmult_le_pos; [apply IZR_le, (rounds_to_canonical _ _ _ Q)|].
    left. apply bpow_pos. }
  assert (P' : (0 <= IZR qf' * bpow qe')%R).
  { apply Rmult_le_pos; [apply IZR_le, (rounds_to_canonical _ _ _ Q')|].
    left. apply bpow_pos. }
  destruct (xorb (negb sl) sd); cbn [cond_Zopp] in Ta, Tb.
  - rewrite opp_IZR in Ta, Tb. split.
    + apply (toward_zero_mono _ 0 a 0 Ta toward_zero_0). lra.
    + apply (toward_zero_mono _ 0 b 0 Tb toward_zero_0). lra.
  - split.
    + apply (toward_zero_mono 0 _ 0 a toward_zero_0 Ta). exact P.
    + apply (toward_zero_mono _ _ a b Ta Tb). exact W.
Qed.

Lemma quotient_by_nonfinite (t den : float) (a : Z) :
  is_finite den = false ->
  int_of_float (float_quotient t den) = Return a -> a = 0.
Proof.
  intros Hd Ha. destruct den as [sd|sd| |sd md ed]; try discriminate Hd;
    destruct t as [st|st| |st mt et]; cbn in Ha; try discriminate Ha;
    injection Ha as <-; reflexivity.
Qed.

Lemma quotient_of_zero (sx : bool) (den : float) (a : Z) :
  int_of_float (float_quotient (S754_zero sx) den) = Return a -> a = 0.
Proof.
  intros Ha. destruct den as [sd|sd| |sd md ed]; cbn in Ha;
    try discriminate Ha; injection Ha as <-; reflexivity.
Qed.

Lemma quotient_of_nonfinite (t den : float) (a : Z) :
  is_finite t = false ->
  int_of_float (float_quotient t den) = Return a -> False.
Proof.
  intros Ht Ha. destruct t as [st|st| |st mt et]; try discriminate Ht;
    destruct den as [sd|sd| |sd md ed]; cbn in Ha; discriminate Ha.
Qed.

Lemma magnitude_pos (m : positive) (e : Z) : (0 < IZR (Zpos m) * bpow e)%R.
Proof. apply Rmult_lt_0_compat; [apply IZR_lt; reflexivity|apply bpow_pos]. Qed.

Section SizingMonotone.

Variable libc : clib.

Lemma sizing_returns (n : Z) (p : float) (m k : Z) :
  sizing libc n p = Return (m, k) ->
  exists lp nf den m0,
    math_log libc p = Return lp /\ float_of_int n = Return nf /\
    float_pow_2 libc (math_log_2 libc) = Return den /\
    is_zero den = false /\
    int_of_float (float_quotient (float_neg (float_mul nf lp)) den)
      = Return m0 /\
    m = Z.max 100 m0.
Proof.
  unfold sizing. destruct (raw_sizing libc n p) as [[m0 k0]|] eqn:Hraw;
    [|discriminate].
  cbn. unfold floors. cbn [fst snd]. intros E. injection E as <- <-.
  destruct (raw_sizing_returns libc n p m0 k0 Hraw)
    as (x_m & x_k & E1 & E2 & _ & _).
  unfold m_float in E1.
  destruct (math_log libc p) as [lp|] eqn:Hlp;
    cbn [mbind outcome_bind] in E1; [|discriminate E1].
  destruct (float_of_int n) as [nf|] eqn:Hnf;
    cbn [mbind outcome_bind] in E1; [|discriminate E1].
  destruct (float_pow_2 libc (math_log_2 libc)) as [den|] eqn:Hden;
    cbn [mbind outcome_bind] in E1; [|discriminate E1].
  unfold float_div in E1. destruct (is_zero den) eqn:Hz; [discriminate E1|].
  injection E1 as <-.
  exists lp, nf, den, m0. repeat split; assumption || reflexivity.
Qed.

Lemma sizing_grows_with_elements (n n' : Z) (p : float) (m k m' k' : Z) :
  0 < n <= n' ->
  sizing libc n p = Return (m, k) -> sizing libc n' p = Return (m', k') ->
  m <= m'.
Proof.
  intros Hn Hs Hs'.
  destruct (sizing_returns n p m k Hs)
    as (lp & nf & den & m0 & Hlp & Hnf & Hden & Hz & Hm0 & ->).
  destruct (sizing_returns n' p m' k' Hs')
    as (lp' & nf' & den' & m0' & Hlp' & Hnf' & Hden' & _ & Hm0' & ->).
  rewrite Hlp in Hlp'. injection Hlp' as <-.
  rewrite Hden in Hden'. injection Hden' as <-.
  destruct (float_of_int_rounds n nf ltac:(lia) Hnf) as (mn & en & -> & Rn & Nn).
  destruct (float_of_int_rounds n' nf' ltac:(lia) Hnf')
    as (mn' & en' & -> & Rn' & Nn').
  assert (V : (IZR (Zpos mn) * bpow en <= IZR (Zpos mn') * bpow en')%R).
  { apply (rounds_to_mono _ _ _ _ _ _ Rn Rn'). apply IZR_le. lia. }
  destruct lp as [sl|sl| |sl ml el].
  - cbn in Hm0, Hm0'.
    apply quotient_of_zero in Hm0. apply quotient_of_zero in Hm0'. lia.
  - exfalso. eapply quotient_of_nonfinite; [|exact Hm0]. reflexivity.
  - exfalso. eapply quotient_of_nonfinite; [|exact Hm0]. reflexivity.
  - destruct den as [sd|sd| |sd md ed].
    + discriminate Hz.
    + apply quotient_by_nonfinite in Hm0; [|reflexivity].
      apply quotient_by_nonfinite in Hm0'; [|reflexivity]. lia.
    + apply quotient_by_nonfinite in Hm0; [|reflexivity].
      apply quotient_by_nonfinite in Hm0'; [|reflexivity]. lia.
    + assert (HX : (IZR (Zpos mn) * bpow en * (IZR (Zpos ml) * bpow el)
                    <= IZR (Zpos mn') * bpow en' * (IZR (Zpos ml) * bpow el))%R).
      { apply Rmult_le_compat_r; [left; apply magnitude_pos|exact V]. }
      pose proof (quotient_chain mn en mn' en' sl ml el ml el sd md ed m0 m0'
                    Nn Nn' HX Hm0 Hm0') as H.
      destruct (xorb (negb sl) sd); lia.
Qed.

Lemma sizing_shrinks_with_rate (n : Z) (p p' lp lp' : float) (md : positive)
    (ed m k m' k' : Z) :
  0 < n ->
  math_log libc p = Return lp -> math_log libc p' = Return lp' ->
  (float_value lp <= float_value lp')%R ->
  float_pow_2 libc (math_log_2 libc) = Return (S754_finite false md ed) ->
  sizing libc n p = Return (m, k) -> sizing libc n p' = Return (m', k') ->
  m' <= m.
Proof.
  intros Hn Hlp Hlp' Hle Hden Hs Hs'.
  destruct (sizing_returns n p m k Hs)
    as (lp0 & nf & den & m0 & Hlp0 & Hnf & Hden0 & Hz & Hm0 & ->).
  destruct (sizing_returns n p' m' k' Hs')
    as (lp0' & nf' & den' & m0' & Hlp0' & Hnf' & Hden0' & _ & Hm0' & ->).
  rewrite Hlp in Hlp0. injection Hlp0 as <-.
  rewrite Hlp' in Hlp0'. injection Hlp0' as <-.
  rewrite Hden in Hden0. injection Hden0 as <-.
  rewrite Hden in Hden0'. injection Hden0' as <-.
  rewrite Hnf in Hnf'. injection Hnf' as <-.
  destruct (float_of_int_rounds n nf Hn Hnf) as (mn & en & -> & Rn & Nn).
  assert (Href : forall x : R, (x <= x)%R) by (intros; lra).
  destruct lp' as [sl'|sl'| |[] ml' el'].
  - cbn in Hm0'. injection Hm0' as <-. lia.
  - exfalso. eapply quotient_of_nonfinite; [|exact Hm0']. reflexivity.
  - exfalso. eapply quotient_of_nonfinite; [|exact Hm0']. reflexivity.
  - (* a negative logarithm for the larger rate *)
    pose proof (magnitude_pos ml' el') as P'.
    rewrite (float_value_finite true ml' el') in Hle. cbn [cond_Zopp] in Hle.
    change (IZR (- Z.pos ml')) with (- IZR (Z.pos ml'))%R in Hle.
    destruct lp as [sl|sl| |[] ml el]; cbn [float_value] in Hle;
      try (exfalso; lra).
    + change (powerRZ 2 el) with (bpow el) in Hle. cbn [cond_Zopp] in Hle.
      change (IZR (- Z.pos ml)) with (- IZR (Z.pos ml))%R in Hle.
      assert (HX : (IZR (Zpos mn) * bpow en * (IZR (Zpos ml') * bpow el')
                    <= IZR (Zpos mn) * bpow en * (IZR (Zpos ml) * bpow el))%R).
      { apply Rmult_le_compat_l; [left; apply magnitude_pos|lra]. }
      pose proof (quotient_chain mn en mn en true ml' el' ml el false md ed
                    m0' m0 Nn Nn HX Hm0' Hm0) as H.
      cbn in H. lia.
    + exfalso. change (powerRZ 2 el) with (bpow el) in Hle.
      cbn [cond_Zopp] in Hle. pose proof (magnitude_pos ml el). lra.
  - (* a positive logarithm: the quotient is not positive *)
    pose proof (quotient_chain mn en mn en false ml' el' ml' el' false md ed
                  m0' m0' Nn Nn (Href _) Hm0' Hm0') as H.
    cbn in H. lia.
Qed.

(** C7. Sizing monotonicity, on the double-precision computation of lines
    22 to 31.  For expected elements [0 < n <= n'] and one rate [p], two
    calls that return give sizes [m <= m']: every rounded operation of
    line 22 is monotone, whatever the C library's [log] and [pow] return.
    For one [n] and rates [p <= p'], two calls that return give sizes
    [m' <= m], provided the C library's [log] keeps the order of [p] and
    [p'] and [math.log(2) ** 2] is a positive finite float. *)
Theorem sizing_monotone (n n' : Z) (p p' : float) :
  0 < n <= n' ->
  (forall m k m' k',
     sizing libc n p = Return (m, k) -> sizing libc n' p = Return (m', k') ->
     m <= m') /\
  (forall lp lp' md ed m k m' k',
     (float_value p <= float_value p')%R ->
     math_log libc p = Return lp -> math_log libc p' = Return lp' ->
     ((float_value p <= float_value p')%R ->
      (float_value lp <= float_value lp')%R) ->
     float_pow_2 libc (math_log_2 libc) = Return (S754_finite false md ed) ->
     sizing libc n p = Return (m, k) -> sizing libc n p' = Return (m', k') ->
     m' <= m).
Proof.
  intros Hn. split.
  - intros m k m' k'. apply sizing_grows_with_elements. exact Hn.
  - intros lp lp' md ed m k m' k' Hp Hlp Hlp' Hlog Hden.
    apply (sizing_shrinks_with_rate n p p' lp lp' md ed); auto. lia.
Qed.

End SizingMonotone.

(** ** Initialisation *)

Lemma metadata_key_ne_bits_key (name : string) :
  metadata_key name <> bits_key name.
Proof.
  unfold metadata_key, bits_key.
  induction name as [|a name IH]; [discriminate|].
  intros E. apply IH.
  change (String a (name ++ ":metadata") = String a (name ++ ":bits")) in E.
  injection E as E. exact E.
Qed.

Section InitializeProperties.

Variable libc : clib.
Variable repr_float : float -> string.

Lemma initialize_run (c : client) (name : string) (n : Z) (p : float) (s : server)
    (m k : Z) :
  sizing libc n p = Return (m, k) ->
  let mapping := metadata_mapping repr_float m k n p in
  let value := zero_bytes ((m + 7) / 8) in
  let commands := [HSET (metadata_key name) mapping; SET (bits_key name) value] in
  initialize_bloom_filter libc repr_float c name n p s =
  match db s !! metadata_key name with
  | Some (RString _) =>
      (Raise (ResponseError wrongtype),
       received (HSET (metadata_key name) mapping) s)
  | Some (RHash h) =>
      (Return (FilterInfo name m k n p),
       Server (<[bits_key name := RString value]>
                 (<[metadata_key name := RHash (write_fields h mapping)]> (db s)))
              (log s ++ commands))
  | None =>
      (Return (FilterInfo name m k n p),
       Server (<[bits_key name := RString value]>
                 (<[metadata_key name := RHash (write_fields ∅ mapping)]> (db s)))
              (log s ++ commands))
  end.
Proof.
  intros Hs mapping value commands. unfold initialize_bloom_filter.
  rewrite run_lift_bind, Hs. cbv zeta. cbn [fst snd]. rewrite run_bind.
  unfold hset. cbn [received db log].
  fold mapping. destruct (db s !! metadata_key name) as [[buf|h]|];
    [reflexivity| |];
    rewrite run_bind; unfold set; cbn [received db log]; fold value;
    rewrite <- app_assoc; reflexivity.
Qed.

Lemma written_fields (h : gmap string string) (m k n : Z) (p : float) :
  forall h', h' = write_fields h (metadata_mapping repr_float m k n p) ->
  h' !! "size" = Some (str_of_int m) /\
  h' !! "hash_functions" = Some (str_of_int k) /\
  h' !! "expected_elements" = Some (str_of_int n) /\
  h' !! "false_positive_rate" = Some (repr_float p) /\
  forall f, f <> "size" -> f <> "hash_functions" -> f <> "expected_elements" ->
            f <> "false_positive_rate" -> h' !! f = h !! f.
Proof.
  intros h' ->. unfold write_fields, metadata_mapping. cbn [fold_left fst snd].
  repeat split.
  - rewrite !lookup_insert_ne by discriminate. apply lookup_insert_eq.
  - rewrite !lookup_insert_ne by discriminate. apply lookup_insert_eq.
  - rewrite !lookup_insert_ne by discriminate. apply lookup_insert_eq.
  - apply lookup_insert_eq.
  - intros f H1 H2 H3 H4. rewrite !lookup_insert_ne by congruence. reflexivity.
Qed.

(** C6. The floors are always enforced.  Whatever lines 22 and 26 yield,
    the sizes that [initialize_bloom_filter] goes on with satisfy
    [m >= 100] and [k >= 1]: the call then either is refused by the
    server because the metadata key holds a byte string, or returns and
    stores exactly these sizes.  When the sizing raises instead, the call
    raises the same exception and produces no metadata. *)
Theorem floors_enforced (c : client) (name : string) (n : Z) (p : float)
    (s : server) :
  (forall m k, sizing libc n p = Return (m, k) ->
     100 <= m /\ 1 <= k /\
     ((exists buf, db s !! metadata_key name = Some (RString buf)) \/
      exists s' h,
        initialize_bloom_filter libc repr_float c name n p s
          = (Return (FilterInfo name m k n p), s') /\
        db s' !! metadata_key name = Some (RHash h) /\
        h !! "size" = Some (str_of_int m) /\
        h !! "hash_functions" = Some (str_of_int k))) /\
  (forall e, sizing libc n p = Raise e ->
     initialize_bloom_filter libc repr_float c name n p s = (Raise e, s)).
Proof.
  split.
  - intros m k Hs. destruct (sizing_floors libc n p m k Hs) as [Hm Hk].
    repeat (split; [assumption|]).
    rewrite (initialize_run c name n p s m k Hs).
    pose proof (metadata_key_ne_bits_key name) as Hne.
    destruct (db s !! metadata_key name) as [[buf|h]|]; [left; eauto|right..].
    + eexists _, _. split; [reflexivity|]. cbn [db].
      rewrite lookup_insert_ne by congruence. rewrite lookup_insert_eq.
      split; [reflexivity|].
      destruct (written_fields h m k n p _ eq_refl) as (F1 & F2 & _). auto.
    + eexists _, _. split; [reflexivity|]. cbn [db].
      rewrite lookup_insert_ne by congruence. rewrite lookup_insert_eq.
      split; [reflexivity|].
      destruct (written_fields ∅ m k n p _ eq_refl) as (F1 & F2 & _). auto.
  - intros e Hs. unfold initialize_bloom_filter.
    rewrite run_lift_bind, Hs. reflexivity.
Qed.

Lemma getbit_zero_bytes (n offset : Z) : getbit_at (zero_bytes n) offset = false.
Proof. apply str_getbit_zero_bytes. Qed.

(** C9. Re-initialisation overwrites silently: when [name] already has
    metadata and bits, [initialize_bloom_filter] returns without error,
    with the sizes [m] and [k] that lines 22 to 31 yield; the
    four metadata fields hold the newly computed values (and the hash is
    exactly the new mapping when it had no other field), and the bit
    channel is a buffer of exactly [ceil(m/8)] zero bytes, so that every
    bit set before reads as 0.  No other key is touched. *)
Theorem reinitialize_overwrites (c : client) (name : string) (n : Z) (p : float)
    (s : server) (m k : Z) (h0 : gmap string string) (b0 : string) :
  sizing libc n p = Return (m, k) ->
  db s !! metadata_key name = Some (RHash h0) ->
  db s !! bits_key name = Some (RString b0) ->
  exists s' h,
    initialize_bloom_filter libc repr_float c name n p s
      = (Return (FilterInfo name m k n p), s') /\
    db s' !! metadata_key name = Some (RHash h) /\
    h !! "size" = Some (str_of_int m) /\
    h !! "hash_functions" = Some (str_of_int k) /\
    h !! "expected_elements" = Some (str_of_int n) /\
    h !! "false_positive_rate" = Some (repr_float p) /\
    (dom h0 ⊆ dom (write_fields ∅ (metadata_mapping repr_float m k n p)) ->
     h = write_fields ∅ (metadata_mapping repr_float m k n p)) /\
    db s' !! bits_key name = Some (RString (zero_bytes ((m + 7) / 8))) /\
    Z.of_nat (String.length (zero_bytes ((m + 7) / 8))) = (m + 7) / 8 /\
    8 * ((m + 7) / 8 - 1) < m <= 8 * ((m + 7) / 8) /\
    (forall offset, getbit_at (zero_bytes ((m + 7) / 8)) offset = false) /\
    (forall key, key <> metadata_key name -> key <> bits_key name ->
       db s' !! key = db s !! key).
Proof.
  intros Hs Hmeta Hbits.
  destruct (sizing_floors libc n p m k Hs) as [Hm Hk].
  pose proof (metadata_key_ne_bits_key name) as Hne.
  pose proof (written_fields h0 m k n p _ eq_refl) as (F1 & F2 & F3 & F4 & Fother).
  eexists _, (write_fields h0 (metadata_mapping repr_float m k n p)).
  split; [rewrite (initialize_run c name n p s m k Hs), Hmeta; reflexivity|].
  cbn [db]. repeat split; try assumption.
  - rewrite lookup_insert_ne by congruence. apply lookup_insert_eq.
  - intros Hdom. apply map_eq. intros f.
    pose proof (written_fields ∅ m k n p _ eq_refl) as (E1 & E2 & E3 & E4 & Eother).
    destruct (decide (f = "size")) as [->|N1]; [congruence|].
    destruct (decide (f = "hash_functions")) as [->|N2]; [congruence|].
    destruct (decide (f = "expected_elements")) as [->|N3]; [congruence|].
    destruct (decide (f = "false_positive_rate")) as [->|N4]; [congruence|].
    rewrite Fother, Eother by assumption. rewrite lookup_empty.
    apply not_elem_of_dom. intros Hin. apply Hdom in Hin.
    apply elem_of_dom in Hin. rewrite Eother, lookup_empty in Hin by assumption.
    destruct Hin as [? Hin]. discriminate.
  - apply lookup_insert_eq.
  - rewrite length_zero_bytes. apply Z2Nat.id. apply Z.div_pos; lia.
  - pose proof (Z.div_mod (m + 7) 8). pose proof (Z.mod_pos_bound (m + 7) 8). lia.
  - pose proof (Z.div_mod (m + 7) 8). pose proof (Z.mod_pos_bound (m + 7) 8). lia.
  - intros offset. apply getbit_zero_bytes.
  - intros key K1 K2. rewrite !lookup_insert_ne by congruence. reflexivity.
Qed.

End InitializeProperties.

(** ** The properties at sample inputs *)

Example sample_insert_commands :
  log sample_after_foo =
  [HGETALL "ids:metadata"; SETBIT "ids:bits" 88 1; SETBIT "ids:bits" 6 1;
   SETBIT "ids:bits" 62 1].
Proof. vm_compute. reflexivity. Qed.

Example sample_query_absent :
  result_of (check_bloom_filter sample_client "ids" (ItemStr "bar"))
    sample_after_foo = Return false.
Proof. vm_compute. reflexivity. Qed.

Example sample_insert_sets_bits :
  getbit_at (zero_bytes 13) 88 = false /\ getbit_at sample_buffer 88 = true /\
  String.length sample_buffer = 13%nat.
Proof. vm_compute. auto. Qed.

(** A filter for one element at rate 1/2 gets the floors, 100 bits and one
    hash function; inserted keys are then found through the stored
    metadata. *)
Example sample_end_to_end :
  exists info s1,
    initialize_bloom_filter sample_clib sample_repr sample_client "tiny" 1
      float_half (Server ∅ [])
      = (Return info, s1) /\
    info_size info = 100 /\ info_hash_functions info = 1 /\
    db s1 !! bits_key "tiny" = Some (RString (zero_bytes 13)) /\
    let s2 := server_after (add_to_bloom_filter sample_client "tiny" (ItemStr "a")) s1 in
    result_of (check_bloom_filter sample_client "tiny" (ItemStr "a")) s2
      = Return true /\
    result_of (check_bloom_filter sample_client "tiny" (ItemStr "z")) s2
      = Return false.
Proof.
  assert (Hs : sizing sample_clib 1 float_half = Return (100, 1))
    by (vm_compute; reflexivity).
  eexists _, _. split.
  { rewrite (initialize_run sample_clib sample_repr sample_client "tiny" 1
               float_half _ 100 1 Hs).
    reflexivity. }
  cbn [info_size info_hash_functions db].
  repeat split; lazy; reflexivity.
Qed.

Example sample_int_and_str_collide :
  py_str (ItemInt 42) = py_str (ItemStr "42").
Proof. reflexivity. Qed.

Lemma no_false_negatives_witness :
  add_to_bloom_filter sample_client "ids" (ItemStr "foo") sample_server
    = (Return true, sample_after_foo) /\
  result_of (check_bloom_filter sample_client "ids" (ItemStr "foo"))
    (run_calls [CallAdd sample_client "ids" (ItemStr "bar");
                CallCheck sample_client "ids" (ItemInt 7);
                CallAdd sample_client "other" (ItemStr "foo")]
       sample_after_foo)
  = Return true.
Proof.
  split; [vm_compute; reflexivity|].
  apply (no_false_negatives sample_client "ids" (ItemStr "foo") sample_server
           sample_after_foo true).
  vm_compute. reflexivity.
Defined.

Lemma check_reads_until_first_unset_witness :
  db sample_after_foo !! metadata_key "ids" = Some (RHash sample_metadata) /\
  load_field (reply_dict sample_client sample_metadata) "size" = Return 100 /\
  load_field (reply_dict sample_client sample_metadata) "hash_functions"
    = Return 3 /\
  0 < 100 /\
  bit_buffer (db sample_after_foo) (bits_key "ids") = Some sample_buffer /\
  check_bloom_filter sample_client "ids" (ItemStr "bar") sample_after_foo =
  (Return false,
   Server (db sample_after_foo)
     (log sample_after_foo ++ [HGETALL "ids:metadata"; GETBIT "ids:bits" 17])).
Proof.
  assert (H1 : db sample_after_foo !! metadata_key "ids"
               = Some (RHash sample_metadata)) by (vm_compute; reflexivity).
  assert (H2 : load_field (reply_dict sample_client sample_metadata) "size"
               = Return 100) by (vm_compute; reflexivity).
  assert (H3 : load_field (reply_dict sample_client sample_metadata)
                 "hash_functions" = Return 3) by (vm_compute; reflexivity).
  assert (H4 : 0 < 100) by reflexivity.
  assert (H5 : bit_buffer (db sample_after_foo) (bits_key "ids")
               = Some sample_buffer) by (vm_compute; reflexivity).
  repeat (split; [assumption|]).
  apply (proj2 (check_reads_until_first_unset sample_client "ids" (ItemStr "bar")
                  sample_after_foo sample_metadata 100 3 sample_buffer
                  H1 H2 H3 H4 H5) 0).
  - lia.
  - vm_compute. reflexivity.
  - intros i Hi. lia.
Defined.

Lemma absent_metadata_raises_not_found_witness :
  db sample_server !! metadata_key "users" = None /\
  add_to_bloom_filter sample_client "users" (ItemStr "foo") sample_server =
    (Raise (ValueError (not_found_add "users")),
     received (HGETALL (metadata_key "users")) sample_server) /\
  check_bloom_filter sample_client "users" (ItemStr "foo") sample_server =
    (Raise (ValueError (not_found_check "users")),
     received (HGETALL (metadata_key "users")) sample_server).
Proof.
  assert (H : db sample_server !! metadata_key "users" = None)
    by (vm_compute; reflexivity).
  split; [exact H|].
  exact (absent_metadata_raises_not_found sample_client "users" (ItemStr "foo")
           sample_server H).
Defined.

Lemma str_keys_raise_key_error_witness :
  decode_responses (Client true) = true /\
  db sample_server !! metadata_key "ids" = Some (RHash sample_metadata) /\
  sample_metadata <> ∅ /\
  result_of (add_to_bloom_filter (Client true) "ids" (ItemStr "foo"))
    sample_server = Raise (KeyError (PyBytes "size")) /\
  result_of (check_bloom_filter (Client true) "ids" (ItemStr "foo"))
    sample_server = Raise (KeyError (PyBytes "size")) /\
  forall v, sample_metadata !! "size" = Some v ->
    getitem (reply_dict (Client true) sample_metadata) (PyStr "size")
    = Return (PyStr v).
Proof.
  assert (H1 : decode_responses (Client true) = true) by reflexivity.
  assert (H2 : db sample_server !! metadata_key "ids"
               = Some (RHash sample_metadata)) by (vm_compute; reflexivity).
  assert (H3 : sample_metadata <> ∅) by (apply insert_non_empty).
  repeat (split; [assumption|]).
  exact (str_keys_raise_key_error (Client true) "ids" (ItemStr "foo")
           sample_server sample_metadata H1 H2 H3).
Defined.

Lemma bit_offset_in_range_witness :
  0 <= 0 /\ 0 < 100 /\ Mmh3.hash "foo" 0 < 0 /\
  exists offset,
    py_mod (Mmh3.hash "foo" 0) 100 = Return offset /\
    0 <= offset < 100 /\
    - 2 ^ 31 <= Mmh3.hash "foo" 0 < 2 ^ 31 /\
    (byte_index offset < String.length (zero_bytes ((100 + 7) / 8)))%nat.
Proof.
  split; [discriminate|]. split; [reflexivity|]. split; [reflexivity|].
  apply (bit_offset_in_range "foo" 0 100); [discriminate|reflexivity].
Defined.

(** The double-precision results at work: for 12295127 elements at rate
    1/16 the exact quotient lies just below 70952475, the double that line
    22 computes is 70952475.0, and the code sizes the filter accordingly. *)
Example sizing_in_doubles :
  raw_sizing sample_clib 12295127 float_sixteenth = Return (70952475, 4) /\
  sizing sample_clib 1000 default_false_positive_rate = Return (9585, 6) /\
  sizing sample_clib (10 ^ 400) default_false_positive_rate
    = Raise (OverflowError "int too large to convert to float").
Proof. repeat split; vm_compute; reflexivity. Qed.

Lemma raw_sizing_truncates_witness :
  raw_sizing sample_clib 12295127 float_sixteenth = Return (70952475, 4) /\
  exists x_m x_k,
    m_float sample_clib 12295127 float_sixteenth = Return x_m /\
    int_of_float x_m = Return 70952475 /\
    toward_zero (float_value x_m) 70952475 /\
    k_float sample_clib 70952475 12295127 = Return x_k /\
    int_of_float x_k = Return 4 /\
    toward_zero (float_value x_k) 4 /\
    sizing sample_clib 12295127 float_sixteenth
      = Return (Z.max 100 70952475, Z.max 1 4).
Proof.
  assert (H : raw_sizing sample_clib 12295127 float_sixteenth
              = Return (70952475, 4)) by (vm_compute; reflexivity).
  split; [exact H|].
  exact (raw_sizing_truncates sample_clib 12295127 float_sixteenth 70952475 4 H).
Defined.

Lemma floors_enforced_witness :
  sizing sample_clib 1 float_half = Return (100, 1) /\
  100 <= 100 /\ 1 <= 1 /\
  ((exists buf, db sample_server !! metadata_key "tiny" = Some (RString buf)) \/
   exists s' h,
     initialize_bloom_filter sample_clib sample_repr sample_client "tiny" 1
       float_half sample_server
       = (Return (FilterInfo "tiny" 100 1 1 float_half), s') /\
     db s' !! metadata_key "tiny" = Some (RHash h) /\
     h !! "size" = Some (str_of_int 100) /\
     h !! "hash_functions" = Some (str_of_int 1)).
Proof.
  assert (H : sizing sample_clib 1 float_half = Return (100, 1))
    by (vm_compute; reflexivity).
  split; [exact H|].
  exact (proj1 (floors_enforced sample_clib sample_repr sample_client "tiny" 1
                  float_half sample_server) 100 1 H).
Defined.

Lemma sizing_monotone_witness :
  0 < 1000 <= 2000 /\
  sizing sample_clib 1000 default_false_positive_rate = Return (9585, 6) /\
  sizing sample_clib 2000 default_false_positive_rate = Return (19170, 6) /\
  sizing sample_clib 1000 float_sixteenth = Return (5770, 3) /\
  (float_value default_false_positive_rate <= float_value float_sixteenth)%R /\
  9585 <= 19170 /\ 5770 <= 9585.
Proof.
  assert (H : 0 < 1000 <= 2000) by lia.
  assert (S1 : sizing sample_clib 1000 default_false_positive_rate
               = Return (9585, 6)) by (vm_compute; reflexivity).
  assert (S2 : sizing sample_clib 2000 default_false_positive_rate
               = Return (19170, 6)) by (vm_compute; reflexivity).
  assert (S3 : sizing sample_clib 1000 float_sixteenth = Return (5770, 3))
    by (vm_compute; reflexivity).
  assert (P : (float_value default_false_positive_rate
               <= float_value float_sixteenth)%R).
  { apply (scaled_le 5764607523034235 4503599627370496 (-59) (-56)).
    apply Z.leb_le. vm_compute. reflexivity. }
  assert (L : (float_value (S754_finite true 5184960683398421 (-50))
               <= float_value (S754_finite true 6243314768165359 (-51)))%R).
  { apply (scaled_le (-5184960683398421) (-6243314768165359) (-50) (-51)).
    apply Z.leb_le. vm_compute. reflexivity. }
  repeat (split; [assumption|]).
  destruct (sizing_monotone sample_clib 1000 2000 default_false_positive_rate
              float_sixteenth H) as [M1 M2].
  split.
  - exact (M1 9585 6 19170 6 S1 S2).
  - refine (M2 (S754_finite true 5184960683398421 (-50))
              (S754_finite true 6243314768165359 (-51))
              8655072057804174%positive (-54) 9585 6 5770 3 P _ _ (fun _ => L)
              _ S1 S3); vm_compute; reflexivity.
Defined.

Lemma reinitialize_overwrites_witness :
  sizing sample_clib 1000 default_false_positive_rate = Return (9585, 6) /\
  db sample_after_foo !! metadata_key "ids" = Some (RHash sample_metadata) /\
  db sample_after_foo !! bits_key "ids" = Some (RString sample_buffer) /\
  getbit_at sample_buffer 88 = true /\
  exists s' h,
    initialize_bloom_filter sample_clib sample_repr sample_client "ids" 1000
      default_false_positive_rate sample_after_foo
      = (Return (FilterInfo "ids" 9585 6 1000 default_false_positive_rate), s') /\
    db s' !! metadata_key "ids" = Some (RHash h) /\
    h !! "size" = Some (str_of_int 9585) /\
    db s' !! bits_key "ids" = Some (RString (zero_bytes ((9585 + 7) / 8))) /\
    getbit_at (zero_bytes ((9585 + 7) / 8)) 88 = false.
Proof.
  assert (H1 : sizing sample_clib 1000 default_false_positive_rate
               = Return (9585, 6)) by (vm_compute; reflexivity).
  assert (H3 : db sample_after_foo !! metadata_key "ids"
               = Some (RHash sample_metadata)) by (vm_compute; reflexivity).
  assert (H4 : db sample_after_foo !! bits_key "ids"
               = Some (RString sample_buffer)) by (vm_compute; reflexivity).
  repeat (split; [assumption|]). split; [vm_compute; reflexivity|].
  destruct (reinitialize_overwrites sample_clib sample_repr sample_client "ids"
              1000 default_false_positive_rate sample_after_foo 9585 6
              sample_metadata sample_buffer H1 H3 H4)
    as (s' & h & E2 & E3 & E4 & _ & _ & _ & _ & E5 & _ & _ & E6 & _).
  exists s', h. repeat (split; [assumption|]). apply E6.
Defined.

(** * Further properties of the three functions *)

(** ** What the commands leave in place *)

Section Keeps.

Variable R : server -> server -> Prop.
Hypothesis R_refl : forall s, R s s.
Hypothesis R_trans : forall s1 s2 s3, R s1 s2 -> R s2 s3 -> R s1 s3.

Lemma keeps_ret {A : Type} (a : A) : keeps R (mret a : M A).
Proof. intros s. apply R_refl. Qed.

Lemma keeps_raise {A : Type} (e : exn) : keeps R (raise e : M A).
Proof. intros s. apply R_refl. Qed.

Lemma keeps_lift {A : Type} (o : outcome A) : keeps R (lift o).
Proof. intros s. apply R_refl. Qed.

Lemma keeps_bind {A B : Type} (m : M A) (f : A -> M B) :
  keeps R m -> (forall a, keeps R (f a)) -> keeps R (m ≫= f).
Proof.
  intros Hm Hf s. rewrite run_bind. specialize (Hm s).
  destruct (m s) as [[a|e] s']; simpl in *.
  - eapply R_trans; [exact Hm|apply Hf].
  - exact Hm.
Qed.

Lemma keeps_for_in {A : Type} (l : list Z) (body : Z -> M (option A))
    (after : M A) :
  (forall i, keeps R (body i)) -> keeps R after -> keeps R (for_in l body after).
Proof.
  intros Hb Ha. induction l as [|i l IH]; simpl; [exact Ha|].
  apply keeps_bind; [apply Hb|].
  intros [a|]; [apply keeps_ret|exact IH].
Qed.

(** Both functions have the same shape: HGETALL, the two fields, a loop. *)
Lemma keeps_add (c : client) (name : string) (item : pyitem) :
  (forall key, keeps R (hgetall c key)) ->
  (forall offset, keeps R (setbit c (bits_key name) offset 1)) ->
  keeps R (add_to_bloom_filter c name item).
Proof.
  intros Hget Hset. rewrite add_unfold. apply keeps_bind; [apply Hget|].
  intros d. destruct (decide (d = ∅)); [apply keeps_raise|].
  apply keeps_bind; [apply keeps_lift|]. intros m.
  apply keeps_bind; [apply keeps_lift|]. intros k.
  apply keeps_for_in; [|apply keeps_ret].
  intros i. unfold add_body. apply keeps_bind; [apply keeps_lift|]. intros off.
  apply keeps_bind; [apply Hset|]. intros _. apply keeps_ret.
Qed.

Lemma keeps_check (c : client) (name : string) (item : pyitem) :
  (forall key, keeps R (hgetall c key)) ->
  (forall offset, keeps R (getbit c (bits_key name) offset)) ->
  keeps R (check_bloom_filter c name item).
Proof.
  intros Hget Hbit. rewrite check_unfold. apply keeps_bind; [apply Hget|].
  intros d. destruct (decide (d = ∅)); [apply keeps_raise|].
  apply keeps_bind; [apply keeps_lift|]. intros m.
  apply keeps_bind; [apply keeps_lift|]. intros k.
  apply keeps_for_in; [|apply keeps_ret].
  intros i. unfold check_body. apply keeps_bind; [apply keeps_lift|]. intros off.
  apply keeps_bind; [apply Hbit|]. intros b.
  destruct (Z.eqb b 0); apply keeps_ret.
Qed.

End Keeps.

Lemma same_db_hgetall (c : client) (key : string) : keeps same_db (hgetall c key).
Proof.
  intros s. unfold same_db, hgetall.
  destruct (db (received (HGETALL key) s) !! key) as [[?|?]|]; reflexivity.
Qed.

Lemma same_db_getbit (c : client) (key : string) (offset : Z) :
  keeps same_db (getbit c key offset).
Proof.
  intros s. unfold same_db, getbit.
  destruct (Z.ltb offset 0); [reflexivity|].
  destruct (db (received (GETBIT key offset) s) !! key) as [[?|?]|]; reflexivity.
Qed.

Lemma same_but_of_same_db (key : string) (s s' : server) :
  same_db s s' -> same_but key s s'.
Proof. unfold same_db, same_but. intros -> ? ?. reflexivity. Qed.

Lemma same_but_setbit (c : client) (key : string) (offset : Z) :
  keeps (same_but key) (setbit c key offset 1).
Proof.
  intros s key' Hne. unfold setbit. simpl.
  destruct (Z.ltb offset 0); [reflexivity|].
  destruct (db s !! key) as [[buf|h]|]; simpl;
    rewrite ?lookup_insert_ne by congruence; reflexivity.
Qed.

Lemma check_same_db (c : client) (name : string) (x : pyitem) (s : server) :
  same_db s (check_bloom_filter c name x s).2.
Proof.
  apply (keeps_check same_db).
  - intros ?. reflexivity.
  - intros s1 s2 s3 H1 H2. unfold same_db in *. congruence.
  - apply same_db_hgetall.
  - apply same_db_getbit.
Qed.

Lemma add_same_but (c : client) (name : string) (x : pyitem) (s : server) :
  same_but (bits_key name) s (add_to_bloom_filter c name x s).2.
Proof.
  apply (keeps_add (same_but (bits_key name))).
  - intros ? ? ?. reflexivity.
  - intros s1 s2 s3 H1 H2 key Hne. rewrite H2, H1 by exact Hne. reflexivity.
  - intros key. intros s0. apply same_but_of_same_db, same_db_hgetall.
  - apply same_but_setbit.
Qed.

(** X1. A query never writes: whatever [check_bloom_filter] returns or
    raises, the key space afterwards is the one before. *)
Theorem check_leaves_store (c : client) (name : string) (x : pyitem)
    (s : server) :
  db (server_after (check_bloom_filter c name x) s) = db s.
Proof. apply check_same_db. Qed.

(** X2. An insert writes to the bit channel only: whatever
    [add_to_bloom_filter] returns or raises, every key other than
    [<name>:bits], the metadata of [name] included, holds what it held. *)
Theorem add_writes_bits_key_only (c : client) (name : string) (x : pyitem)
    (s : server) (key : string) :
  key <> bits_key name ->
  db (server_after (add_to_bloom_filter c name x) s) !! key = db s !! key.
Proof. apply add_same_but. Qed.

(** X3. Nothing is ever removed: a bit that is set, in any buffer, is still
    set after any sequence of inserts and queries, whether they return or
    raise. *)
Theorem bits_are_never_cleared (others : list call) (s : server)
    (key : string) (offset : Z) :
  bit_on (db s) key offset ->
  bit_on (db (run_calls others s)) key offset.
Proof. apply (grows_run_calls others s). Qed.

(** ** The commands of an insert *)

Lemma add_loop_log (c : client) (name item_str : string) (m : Z)
    (l : list Z) (s s' : server) (b : bool) :
  for_in l (add_body c name item_str m) (mret true) s = (Return b, s') ->
  b = true /\
  log s' = (log s ++ ((fun i => SETBIT (bits_key name)
                                  (Mmh3.hash item_str i mod m) 1) <$> l))%list.
Proof.
  revert s. induction l as [|i l IH]; intros s Hrun.
  - inversion Hrun; subst. rewrite app_nil_r. auto.
  - cbn [for_in] in Hrun. rewrite run_bind, add_body_run in Hrun.
    destruct (Z.eqb m 0); [discriminate|].
    destruct (Z.ltb (Mmh3.hash item_str i mod m) 0); [discriminate|].
    destruct (bit_buffer (db s) (bits_key name)); [|discriminate].
    apply IH in Hrun. destruct Hrun as [-> E]. split; [reflexivity|].
    rewrite E. cbn [log fmap list_fmap]. rewrite <- app_assoc. reflexivity.
Qed.

(** X4. An insert that returns returns [True], and the server has then
    received HGETALL on the metadata followed by exactly [k] SETBIT
    commands with value 1, at the offsets [mmh3.hash(str(x), i) % m] for
    [i = 0 .. k-1] in that order, and nothing else. *)
Theorem add_issues_k_setbits (c : client) (name : string) (x : pyitem)
    (s s' : server) (b : bool) (h : gmap string string) (m k : Z) :
  db s !! metadata_key name = Some (RHash h) ->
  load_field (reply_dict c h) "size" = Return m ->
  load_field (reply_dict c h) "hash_functions" = Return k ->
  add_to_bloom_filter c name x s = (Return b, s') ->
  b = true /\
  log s' = (log s ++ HGETALL (metadata_key name)
              :: ((fun i => SETBIT (bits_key name)
                              (Mmh3.hash (py_str x) i mod m) 1) <$> py_range k))%list.
Proof.
  intros Hmeta Hm Hk. rewrite add_unfold, run_bind, (hgetall_hash _ _ _ _ Hmeta).
  destruct (decide (reply_dict c h = ∅)) as [E|_];
    [exfalso; eapply load_field_nonempty; eauto|].
  rewrite run_lift_bind, Hm, run_lift_bind, Hk. intros Hrun.
  apply add_loop_log in Hrun. destruct Hrun as [-> E]. split; [reflexivity|].
  rewrite E. cbn [received log]. rewrite <- app_assoc. reflexivity.
Qed.

(** ** Metadata written as text and read back *)

Lemma int_digits_of_uint (d : Decimal.uint) (acc : Z) (after_digit : bool) :
  d <> Decimal.Nil \/ after_digit = true ->
  int_digits (NilEmpty.string_of_uint d) acc after_digit
  = Some (uint_value d acc).
Proof.
  revert acc after_digit.
  induction d as [|d IH|d IH|d IH|d IH|d IH|d IH|d IH|d IH|d IH|d IH];
    intros acc after_digit H;
    [destruct H as [H | ->]; [contradiction|reflexivity]|..];
    cbn [NilEmpty.string_of_uint int_digits uint_value];
    (etransitivity; [|apply (IH _ true); right; reflexivity]);
    reflexivity.
Qed.

Lemma of_uint_acc_value (d : Decimal.uint) (acc : positive) :
  Z.pos (Pos.of_uint_acc d acc) = uint_value d (Z.pos acc).
Proof.
  revert acc.
  induction d as [|d IH|d IH|d IH|d IH|d IH|d IH|d IH|d IH|d IH|d IH];
    intros acc; cbn [Pos.of_uint_acc uint_value]; [reflexivity|..];
    rewrite IH; f_equal; lia.
Qed.

Lemma of_uint_value (d : Decimal.uint) :
  Z.of_N (Pos.of_uint d) = uint_value d 0.
Proof.
  induction d as [|d IH|d IH|d IH|d IH|d IH|d IH|d IH|d IH|d IH|d IH];
    cbn [Pos.of_uint uint_value]; [reflexivity|exact IH|..];
    cbn [Z.of_N]; rewrite of_uint_acc_value; reflexivity.
Qed.

Lemma uint_value_to_uint (p : positive) :
  uint_value (Pos.to_uint p) 0 = Z.pos p.
Proof.
  rewrite <- of_uint_value, DecimalPos.Unsigned.of_to. reflexivity.
Qed.

Lemma lstrip_no_space (s : string) : no_space s = true -> lstrip s = s.
Proof.
  destruct s as [|a r]; [reflexivity|]. simpl.
  destruct (is_space a); [discriminate|reflexivity].
Qed.

Lemma rev_app_no_space (s acc : string) :
  no_space (String.rev_app s acc) = (no_space s && no_space acc)%bool.
Proof.
  revert acc. induction s as [|a r IH]; intros acc; simpl; [reflexivity|].
  rewrite IH. simpl. destruct (is_space a), (no_space r); reflexivity.
Qed.

Lemma rev_app_rev_app (s acc acc' : string) :
  String.rev_app (String.rev_app s acc) acc'
  = String.rev_app acc (String.app s acc').
Proof.
  revert acc acc'. induction s as [|a r IH]; intros acc acc'; simpl; [reflexivity|].
  rewrite IH. reflexivity.
Qed.

Lemma strip_no_space (s : string) : no_space s = true -> strip s = s.
Proof.
  intros H. unfold strip, String.rev.
  rewrite (lstrip_no_space s H), lstrip_no_space.
  - rewrite rev_app_rev_app. cbn [String.rev_app]. clear H.
    induction s as [|a r IH]; [reflexivity|].
    change (String a (String.app r "") = String a r). f_equal. exact IH.
  - rewrite rev_app_no_space, H. reflexivity.
Qed.

Lemma no_space_of_uint (d : Decimal.uint) :
  no_space (NilEmpty.string_of_uint d) = true.
Proof.
  induction d as [|d IH|d IH|d IH|d IH|d IH|d IH|d IH|d IH|d IH|d IH];
    [reflexivity|..]; cbn [NilEmpty.string_of_uint no_space];
    rewrite IH; reflexivity.
Qed.

Lemma int_of_text_of_uint (d : Decimal.uint) :
  d <> Decimal.Nil ->
  int_of_text (NilEmpty.string_of_uint d) = Some (uint_value d 0) /\
  int_of_text (String "-" (NilEmpty.string_of_uint d))
  = Some (- uint_value d 0).
Proof.
  intros Hd. unfold int_of_text.
  rewrite !strip_no_space
    by (cbn [no_space]; rewrite ?no_space_of_uint; reflexivity).
  pose proof (int_digits_of_uint d 0 false (or_introl Hd)) as E.
  split.
  - rewrite <- E. destruct d; [contradiction|reflexivity..].
  - rewrite E. reflexivity.
Qed.

Lemma int_of_text_str_of_int (n : Z) : int_of_text (str_of_int n) = Some n.
Proof.
  unfold str_of_int. destruct n as [|p|p]; [reflexivity|..];
    cbn [Z.to_int NilZero.string_of_int];
    pose proof (DecimalPos.Unsigned.to_uint_nonnil p) as Hnil;
    destruct (int_of_text_of_uint (Pos.to_uint p) Hnil) as [E1 E2];
    rewrite uint_value_to_uint in E1, E2.
  - unfold NilZero.string_of_uint.
    destruct (Pos.to_uint p); [contradiction|exact E1..].
  - unfold NilZero.string_of_uint.
    destruct (Pos.to_uint p); [contradiction|exact E2..].
Qed.

(** X5. The sizes survive their trip through the store: the text
    [initialize_bloom_filter] sends for an int ([str(n)]) is read back by
    [int()] as the same int, whether it comes back as [bytes] or as [str]. *)
Theorem int_text_round_trip (n : Z) :
  py_int (PyBytes (str_of_int n)) = Return n /\
  py_int (PyStr (str_of_int n)) = Return n.
Proof.
  unfold py_int. cbn [obj_text]. rewrite int_of_text_str_of_int. auto.
Qed.

(** ** A filter as [initialize_bloom_filter] leaves it *)

Lemma reply_dict_bytes_keys (c : client) (h : gmap string string) (f : string) :
  decode_responses c = false ->
  reply_dict c h !! PyBytes f = PyBytes <$> h !! f.
Proof.
  intros Hdec. unfold reply_dict.
  assert (Inj eq eq (decode c)).
  { intros a b. unfold decode. rewrite Hdec. congruence. }
  replace (PyBytes f) with (decode c f) by (unfold decode; rewrite Hdec; reflexivity).
  rewrite lookup_kmap, lookup_fmap by assumption.
  unfold decode. rewrite Hdec. reflexivity.
Qed.

Lemma load_field_stored (c : client) (h : gmap string string) (f : string)
    (n : Z) :
  decode_responses c = false ->
  h !! f = Some (str_of_int n) ->
  load_field (reply_dict c h) f = Return n.
Proof.
  intros Hdec Hf. unfold load_field, getitem.
  rewrite (reply_dict_bytes_keys c h f Hdec), Hf. cbn.
  unfold py_int. cbn [obj_text]. rewrite int_of_text_str_of_int. reflexivity.
Qed.

Lemma length_str_setbit (s : string) (byte p : nat) (v : bool) :
  (byte < String.length s)%nat ->
  String.length (str_setbit s byte p v) = String.length s.
Proof.
  revert s. induction byte as [|n IH]; intros [|a r] H; simpl in H; try lia;
    cbn [str_setbit String.length]; [reflexivity|].
  f_equal. apply IH. lia.
Qed.

Lemma byte_index_in_buffer (offset m : Z) :
  0 <= offset < m -> (byte_index offset < Z.to_nat ((m + 7) / 8))%nat.
Proof.
  intros H. unfold byte_index. rewrite Z.shiftr_div_pow2 by lia.
  change (2 ^ 3) with 8.
  apply Z2Nat.inj_lt; [apply Z.div_pos; lia|apply Z.div_pos; lia|].
  apply Z.div_lt_upper_bound; [lia|].
  pose proof (Z.mod_pos_bound (m + 7) 8). pose proof (Z.div_mod (m + 7) 8). lia.
Qed.

Lemma add_loop_on_buffer (c : client) (name item_str : string) (m : Z)
    (l : list Z) (s : server) (buf : string) :
  0 < m ->
  db s !! bits_key name = Some (RString buf) ->
  String.length buf = Z.to_nat ((m + 7) / 8) ->
  exists s' buf',
    for_in l (add_body c name item_str m) (mret true) s = (Return true, s') /\
    db s' !! bits_key name = Some (RString buf') /\
    String.length buf' = Z.to_nat ((m + 7) / 8).
Proof.
  intros Hm. revert s buf. induction l as [|i l IH]; intros s buf Hbuf Hlen.
  - exists s, buf. auto.
  - cbn [for_in]. rewrite run_bind, add_body_run.
    assert (Hoff : 0 <= Mmh3.hash item_str i mod m < m)
      by (apply Z.mod_pos_bound; exact Hm).
    destruct (Z.eqb_spec m 0); [lia|].
    destruct (Z.ltb_spec (Mmh3.hash item_str i mod m) 0); [lia|].
    unfold bit_buffer. rewrite Hbuf.
    apply (IH _ (setbit_at buf (Mmh3.hash item_str i mod m) true)).
    + apply lookup_insert_eq.
    + unfold setbit_at. rewrite length_str_setbit; [exact Hlen|].
      rewrite Hlen. apply byte_index_in_buffer, Hoff.
Qed.

(** X6. On a filter as initialisation leaves it (sizes stored as text, a
    buffer of [(m + 7) // 8] bytes), with a client that returns [bytes]:
    an insert raises nothing and returns [True], leaves the metadata and
    the length of the buffer as they were, and the inserted key is found
    by the next query. *)
Theorem ready_filter_accepts_inserts (c : client) (name : string) (x : pyitem)
    (s : server) (m k : Z) :
  decode_responses c = false ->
  0 < m ->
  filter_ready (db s) name m k ->
  exists s',
    add_to_bloom_filter c name x s = (Return true, s') /\
    filter_ready (db s') name m k /\
    result_of (check_bloom_filter c name x) s' = Return true.
Proof.
  intros Hdec Hm (h & buf & Hmeta & Hsize & Hk & Hbuf & Hlen).
  pose proof (load_field_stored c h "size" m Hdec Hsize) as Lm.
  pose proof (load_field_stored c h "hash_functions" k Hdec Hk) as Lk.
  assert (Hne : reply_dict c h <> ∅) by (eapply load_field_nonempty; eauto).
  destruct (add_loop_on_buffer c name (py_str x) m (py_range k)
              (received (HGETALL (metadata_key name)) s) buf Hm Hbuf Hlen)
    as (s' & buf' & Hloop & Hbuf' & Hlen').
  assert (Hadd : add_to_bloom_filter c name x s = (Return true, s')).
  { rewrite add_unfold, run_bind, (hgetall_hash _ _ _ _ Hmeta).
    destruct (decide (reply_dict c h = ∅)); [contradiction|].
    rewrite run_lift_bind, Lm, run_lift_bind, Lk. exact Hloop. }
  assert (Hmeta' : db s' !! metadata_key name = Some (RHash h)).
  { pose proof (add_same_but c name x s (metadata_key name)
                  (metadata_key_ne_bits_key name)) as E.
    rewrite Hadd in E. cbn [snd] in E. rewrite E. exact Hmeta. }
  exists s'. split; [exact Hadd|]. split.
  - exists h, buf'. auto.
  - destruct (add_returns _ _ _ _ _ _ Hadd) as (h1 & m1 & k1 & Hmeta1 & _ & Lm1 & Lk1 & Hbits).
    rewrite Hmeta in Hmeta1. inversion Hmeta1; subst h1.
    rewrite Lm in Lm1. rewrite Lk in Lk1. inversion Lm1; inversion Lk1; subst.
    eapply check_all_on; eauto.
Qed.

Lemma check_run (c : client) (name : string) (x : pyitem) (s : server)
    (h : gmap string string) (m k : Z) (buf : string) :
  db s !! metadata_key name = Some (RHash h) ->
  load_field (reply_dict c h) "size" = Return m ->
  load_field (reply_dict c h) "hash_functions" = Return k ->
  0 < m ->
  bit_buffer (db s) (bits_key name) = Some buf ->
  let f := fun i => getbit_at buf (Mmh3.hash (py_str x) i mod m) in
  check_bloom_filter c name x s =
  (Return (forallb f (py_range k)),
   Server (db s)
     (log s ++ HGETALL (metadata_key name)
        :: ((fun i => GETBIT (bits_key name) (Mmh3.hash (py_str x) i mod m))
              <$> probed f (py_range k)))).
Proof.
  intros Hmeta Hm Hk Hpos Hbuf f.
  rewrite check_unfold, run_bind, (hgetall_hash _ _ _ _ Hmeta).
  destruct (decide (reply_dict c h = ∅)) as [E|_];
    [exfalso; eapply load_field_nonempty; eauto|].
  rewrite run_lift_bind, Hm, run_lift_bind, Hk.
  rewrite (check_loop_reads c name (py_str x) m buf) by auto.
  simpl. rewrite <- app_assoc. reflexivity.
Qed.

Lemma py_range_first (k : Z) : 1 <= k -> exists rest, py_range k = 0 :: rest.
Proof.
  intros Hk. destruct (py_range_split 0 k) as (rest & E & _); [lia|].
  exists rest. exact E.
Qed.

Lemma py_range_empty (k : Z) : k <= 0 -> py_range k = [].
Proof.
  intros Hk. unfold py_range. replace (Z.to_nat k) with 0%nat by lia. reflexivity.
Qed.

Section FreshFilter.

Variable libc : clib.
Variable repr_float : float -> string.

Lemma initialize_raises (c : client) (name : string) (n : Z) (p : float)
    (s : server) (e : exn) :
  sizing libc n p = Raise e ->
  initialize_bloom_filter libc repr_float c name n p s = (Raise e, s).
Proof.
  intros Hs. unfold initialize_bloom_filter. rewrite run_lift_bind, Hs.
  reflexivity.
Qed.

(** X7. A freshly initialised filter is empty.  When lines 22 to 31 yield
    the sizes [m] and [k], on a store whose metadata key does not hold a
    byte string, [initialize_bloom_filter] returns after an HSET and a SET,
    leaving metadata and a buffer of [(m + 7) // 8] bytes with [m >= 100]
    and [k >= 1]; every query then returns [False] after reading one bit. *)
Theorem initialize_gives_empty_filter (c : client) (name : string) (n : Z)
    (p : float) (s : server) (m k : Z) :
  sizing libc n p = Return (m, k) ->
  (forall buf, db s !! metadata_key name <> Some (RString buf)) ->
  exists s1,
    initialize_bloom_filter libc repr_float c name n p s
      = (Return (FilterInfo name m k n p), s1) /\
    100 <= m /\ 1 <= k /\
    filter_ready (db s1) name m k /\
    log s1 = (log s ++ [HSET (metadata_key name)
                          (metadata_mapping repr_float m k n p);
                        SET (bits_key name) (zero_bytes ((m + 7) / 8))])%list /\
    forall c' x, decode_responses c' = false ->
      check_bloom_filter c' name x s1 =
      (Return false,
       Server (db s1)
         (log s1 ++ [HGETALL (metadata_key name);
                     GETBIT (bits_key name) (Mmh3.hash (py_str x) 0 mod m)])).
Proof.
  intros Hs Htype.
  destruct (sizing_floors libc n p m k Hs) as [Hm Hk].
  pose proof (metadata_key_ne_bits_key name) as Hne.
  pose proof (initialize_run libc repr_float c name n p s m k Hs) as Hrun.
  cbv zeta in Hrun.
  assert (Hcases : exists h0,
    initialize_bloom_filter libc repr_float c name n p s =
    (Return (FilterInfo name m k n p),
     Server (<[bits_key name := RString (zero_bytes ((m + 7) / 8))]>
               (<[metadata_key name :=
                    RHash (write_fields h0 (metadata_mapping repr_float m k n p))]>
                  (db s)))
            (log s ++ [HSET (metadata_key name)
                         (metadata_mapping repr_float m k n p);
                       SET (bits_key name) (zero_bytes ((m + 7) / 8))]))).
  { destruct (db s !! metadata_key name) as [[buf|h0]|] eqn:E.
    - exfalso. exact (Htype buf eq_refl).
    - exists h0. exact Hrun.
    - exists ∅. exact Hrun. }
  destruct Hcases as (h0 & Hinit). clear Hrun.
  destruct (written_fields repr_float h0 m k n p _ eq_refl) as (F1 & F2 & _).
  set (s1 := Server _ _) in Hinit.
  assert (Hmeta : db s1 !! metadata_key name
            = Some (RHash (write_fields h0 (metadata_mapping repr_float m k n p)))).
  { subst s1. cbn [db]. rewrite lookup_insert_ne by congruence.
    apply lookup_insert_eq. }
  assert (Hbits : db s1 !! bits_key name
            = Some (RString (zero_bytes ((m + 7) / 8)))).
  { subst s1. cbn [db]. apply lookup_insert_eq. }
  exists s1. split; [exact Hinit|].
  repeat split; try assumption; try reflexivity.
  - exists (write_fields h0 (metadata_mapping repr_float m k n p)),
           (zero_bytes ((m + 7) / 8)).
    repeat split; try assumption. apply length_zero_bytes.
  - intros c' x Hdec.
    rewrite (check_run c' name x s1 _ m k (zero_bytes ((m + 7) / 8)) Hmeta);
      try (apply load_field_stored; assumption); try lia.
    + destruct (py_range_first k Hk) as (rest & ->).
      cbn [forallb probed]. rewrite getbit_zero_bytes. reflexivity.
    + unfold bit_buffer. rewrite Hbits. reflexivity.
Qed.

End FreshFilter.

(** ** Answers once given *)

Lemma check_loop_true (c : client) (name item_str : string) (m : Z)
    (l : list Z) (s : server) :
  (for_in l (check_body c name item_str m) (mret true) s).1 = Return true ->
  forall i, In i l ->
    m <> 0 /\ 0 <= Mmh3.hash item_str i mod m /\
    bit_on (db s) (bits_key name) (Mmh3.hash item_str i mod m).
Proof.
  revert s. induction l as [|j l IH]; intros s Hrun i Hi; [destruct Hi|].
  cbn [for_in] in Hrun. rewrite run_bind in Hrun.
  unfold check_body at 1 in Hrun. rewrite run_lift_bind in Hrun.
  unfold py_mod in Hrun.
  destruct (Z.eqb_spec m 0) as [|Hm]; [discriminate|].
  rewrite run_bind in Hrun. unfold getbit in Hrun. cbn [received db] in Hrun.
  destruct (Z.ltb_spec (Mmh3.hash item_str j mod m) 0) as [|Hoff]; [discriminate|].
  destruct (db s !! bits_key name) as [[buf|h]|] eqn:Hbuf; try discriminate.
  destruct (getbit_at buf (Mmh3.hash item_str j mod m)) eqn:Hbit;
    [|discriminate].
  cbn [Z_of_bool Z.eqb] in Hrun.
  destruct Hi as [<-|Hi].
  - repeat split; auto. exists buf. auto.
  - apply (IH _ Hrun i) in Hi. cbn [received db] in Hi. exact Hi.
Qed.

Lemma check_true (c : client) (name : string) (x : pyitem) (s : server) :
  result_of (check_bloom_filter c name x) s = Return true ->
  exists h m k,
    db s !! metadata_key name = Some (RHash h) /\
    reply_dict c h <> ∅ /\
    load_field (reply_dict c h) "size" = Return m /\
    load_field (reply_dict c h) "hash_functions" = Return k /\
    forall i, In i (py_range k) ->
      m <> 0 /\ 0 <= Mmh3.hash (py_str x) i mod m /\
      bit_on (db s) (bits_key name) (Mmh3.hash (py_str x) i mod m).
Proof.
  unfold result_of. rewrite check_unfold, run_bind. unfold hgetall.
  cbn [received db].
  destruct (db s !! metadata_key name) as [[buf|h]|] eqn:Hmeta;
    [discriminate| |].
  - destruct (decide (reply_dict c h = ∅)) as [|Hne]; [discriminate|].
    rewrite run_lift_bind.
    destruct (load_field (reply_dict c h) "size") as [m|] eqn:Hm; [|discriminate].
    rewrite run_lift_bind.
    destruct (load_field (reply_dict c h) "hash_functions") as [k|] eqn:Hk;
      [|discriminate].
    intros Hrun. exists h, m, k. repeat split; auto;
      eapply (check_loop_true c name (py_str x) m (py_range k)
                (received (HGETALL (metadata_key name)) s)); eauto.
  - destruct (decide (∅ =@{gmap pyobj pyobj} ∅)); [discriminate|contradiction].
Qed.

(** X8. A positive answer is never taken back: once [check_bloom_filter]
    has returned [True] for a key, it returns [True] for it after any
    further inserts and queries, on this filter or on others. *)
Theorem positive_answers_persist (c : client) (name : string) (x : pyitem)
    (s : server) (others : list call) :
  result_of (check_bloom_filter c name x) s = Return true ->
  result_of (check_bloom_filter c name x) (run_calls others s) = Return true.
Proof.
  intros Htrue.
  destruct (check_true c name x s Htrue) as (h & m & k & Hmeta & Hne & Hm & Hk & Hbits).
  destruct (grows_run_calls others s) as [Hh Hb].
  eapply check_all_on; eauto.
  intros i Hi. destruct (Hbits i Hi) as (? & ? & ?). auto.
Qed.

(** ** Degenerate metadata *)

(** X9. With a stored count of hash functions that is zero or negative the
    loops do not run: an insert returns [True] without writing a bit, and
    a query returns [True] for every key without reading one. *)
Theorem no_hash_functions_accepts_everything (c : client) (name : string)
    (x : pyitem) (s : server) (h : gmap string string) (m k : Z) :
  db s !! metadata_key name = Some (RHash h) ->
  load_field (reply_dict c h) "size" = Return m ->
  load_field (reply_dict c h) "hash_functions" = Return k ->
  k <= 0 ->
  add_to_bloom_filter c name x s
    = (Return true, received (HGETALL (metadata_key name)) s) /\
  check_bloom_filter c name x s
    = (Return true, received (HGETALL (metadata_key name)) s).
Proof.
  intros Hmeta Hm Hk Hle.
  rewrite add_unfold, check_unfold, !run_bind, (hgetall_hash _ _ _ _ Hmeta).
  destruct (decide (reply_dict c h = ∅)) as [E|_];
    [exfalso; eapply load_field_nonempty; eauto|].
  rewrite !run_lift_bind, Hm, !run_lift_bind, Hk, (py_range_empty k Hle).
  split; reflexivity.
Qed.

(** X10. With a stored size of zero and at least one hash function, both
    functions raise [ZeroDivisionError] at the first [% m], after HGETALL
    and before any bit is written or read. *)
Theorem zero_size_raises_zero_division (c : client) (name : string)
    (x : pyitem) (s : server) (h : gmap string string) (k : Z) :
  db s !! metadata_key name = Some (RHash h) ->
  load_field (reply_dict c h) "size" = Return 0 ->
  load_field (reply_dict c h) "hash_functions" = Return k ->
  1 <= k ->
  add_to_bloom_filter c name x s
    = (Raise ZeroDivisionError, received (HGETALL (metadata_key name)) s) /\
  check_bloom_filter c name x s
    = (Raise ZeroDivisionError, received (HGETALL (metadata_key name)) s).
Proof.
  intros Hmeta Hm Hk Hle.
  rewrite add_unfold, check_unfold, !run_bind, (hgetall_hash _ _ _ _ Hmeta).
  destruct (decide (reply_dict c h = ∅)) as [E|_];
    [exfalso; eapply load_field_nonempty; eauto|].
  rewrite !run_lift_bind, Hm, !run_lift_bind, Hk.
  destruct (py_range_first k Hle) as (rest & ->).
  split; reflexivity.
Qed.

(** ** Filters side by side *)

Lemma length_append (s t : string) :
  String.length (String.app s t) = (String.length s + String.length t)%nat.
Proof.
  induction s as [|a r IH]; [reflexivity|].
  change (S (String.length (String.app r t))
          = S (String.length r + String.length t)). f_equal. exact IH.
Qed.

Lemma append_inj_l (s s' t : string) :
  String.app s t = String.app s' t -> s = s'.
Proof.
  revert s'. induction s as [|a r IH]; intros [|a' r'] E.
  - reflexivity.
  - apply (f_equal String.length) in E.
    rewrite !length_append in E. cbn [String.length] in E. lia.
  - apply (f_equal String.length) in E.
    rewrite !length_append in E. cbn [String.length] in E. lia.
  - change (String a (String.app r t) = String a' (String.app r' t)) in E.
    injection E as -> E. f_equal. apply IH, E.
Qed.

Lemma last_char_append (s : string) (a : ascii) (t : string) :
  last_char (String.app s (String a t)) = last_char (String a t).
Proof.
  induction s as [|b r IH]; [reflexivity|].
  change (last_char (String b (String.app r (String a t)))
          = last_char (String a t)).
  rewrite <- IH. destruct r; reflexivity.
Qed.

Lemma keys_of_distinct_names (name name' : string) :
  name <> name' ->
  metadata_key name' <> metadata_key name /\
  metadata_key name' <> bits_key name /\
  bits_key name' <> metadata_key name /\
  bits_key name' <> bits_key name.
Proof.
  intros Hne. unfold metadata_key, bits_key. repeat split; intros E.
  - apply append_inj_l in E. congruence.
  - apply (f_equal last_char) in E. rewrite !last_char_append in E.
    discriminate.
  - apply (f_equal last_char) in E. rewrite !last_char_append in E.
    discriminate.
  - apply append_inj_l in E. congruence.
Qed.

Lemma check_loop_local (c : client) (name item_str : string) (m : Z)
    (l : list Z) (s t : server) :
  db t !! bits_key name = db s !! bits_key name ->
  (for_in l (check_body c name item_str m) (mret true) t).1
  = (for_in l (check_body c name item_str m) (mret true) s).1.
Proof.
  revert s t. induction l as [|j l IH]; intros s t E; [reflexivity|].
  cbn [for_in]. rewrite !run_bind. unfold check_body at 1 3.
  rewrite !run_lift_bind. unfold py_mod.
  destruct (Z.eqb m 0); [reflexivity|].
  rewrite !run_bind. unfold getbit. cbn [received db]. rewrite E.
  destruct (Z.ltb (Mmh3.hash item_str j mod m) 0); [reflexivity|].
  destruct (db s !! bits_key name) as [[buf|h]|] eqn:Hs; try reflexivity.
  destruct (Z.eqb (Z_of_bool _) 0); [reflexivity|]. apply IH.
  cbn [received db]. congruence.
Qed.

Lemma check_local (c : client) (name : string) (x : pyitem) (s t : server) :
  db t !! metadata_key name = db s !! metadata_key name ->
  db t !! bits_key name = db s !! bits_key name ->
  result_of (check_bloom_filter c name x) t
  = result_of (check_bloom_filter c name x) s.
Proof.
  intros Em Eb. unfold result_of. rewrite check_unfold, !run_bind.
  unfold hgetall. cbn [received db]. rewrite Em.
  destruct (db s !! metadata_key name) as [[buf|h]|]; [reflexivity| |].
  - destruct (decide (reply_dict c h = ∅)); [reflexivity|].
    rewrite !run_lift_bind.
    destruct (load_field (reply_dict c h) "size"); [|reflexivity].
    rewrite !run_lift_bind.
    destruct (load_field (reply_dict c h) "hash_functions"); [|reflexivity].
    apply check_loop_local. exact Eb.
  - destruct (decide (∅ =@{gmap pyobj pyobj} ∅)); reflexivity.
Qed.

Section SideBySide.

Variable libc : clib.
Variable repr_float : float -> string.

Lemma initialize_same_but (c : client) (name : string) (n : Z) (p : float)
    (s : server) (key : string) :
  key <> metadata_key name -> key <> bits_key name ->
  db (initialize_bloom_filter libc repr_float c name n p s).2 !! key = db s !! key.
Proof.
  intros K1 K2. destruct (sizing libc n p) as [[m k]|e] eqn:Hs.
  - rewrite (initialize_run libc repr_float c name n p s m k Hs).
    destruct (db s !! metadata_key name) as [[buf|h]|]; cbn [snd db received];
      rewrite ?lookup_insert_ne by congruence; reflexivity.
  - rewrite (initialize_raises libc repr_float c name n p s e Hs). reflexivity.
Qed.

(** X12. Filters with different names do not interfere: neither an insert
    into [name] nor an initialisation of [name], whatever their outcome,
    changes what a query on another filter [name'] returns or raises. *)
Theorem other_filters_are_untouched (c c' : client) (name name' : string)
    (y x : pyitem) (n : Z) (p : float) (s : server) :
  name <> name' ->
  result_of (check_bloom_filter c' name' x)
    (server_after (add_to_bloom_filter c name y) s)
  = result_of (check_bloom_filter c' name' x) s /\
  result_of (check_bloom_filter c' name' x)
    (server_after (initialize_bloom_filter libc repr_float c name n p) s)
  = result_of (check_bloom_filter c' name' x) s.
Proof.
  intros Hne.
  destruct (keys_of_distinct_names name name' Hne) as (K1 & K2 & K3 & K4).
  split; apply check_local; unfold server_after.
  - apply add_same_but. exact K2.
  - apply add_same_but. exact K4.
  - apply initialize_same_but; assumption.
  - apply initialize_same_but; assumption.
Qed.

(** X13. Invalid sizing parameters are reported before anything is sent
    to the store: a rate [p <= 0] (zero, negative or minus infinity) raises
    the [ValueError] of [math.log]; and [n = 0] with a positive finite [p]
    raises [ZeroDivisionError], at line 22 when [math.log(2) ** 2] is zero
    and at [m / n] otherwise, provided the C library's [log] and [pow]
    raise nothing and [math.log(2) ** 2] is a number.  In both cases the
    server has received no command. *)
Theorem invalid_parameters_raise_before_writing (c : client) (name : string)
    (s : server) :
  (forall n p, SFleb p (S754_zero false) = true ->
     initialize_bloom_filter libc repr_float c name n p s
     = (Raise (ValueError "math domain error"), s)) /\
  (forall mp ep lp den,
     math_log libc (S754_finite false mp ep) = Return lp ->
     float_pow_2 libc (math_log_2 libc) = Return den ->
     is_nan den = false ->
     initialize_bloom_filter libc repr_float c name 0 (S754_finite false mp ep) s
     = (Raise ZeroDivisionError, s)).
Proof.
  split.
  - intros n p Hp. apply initialize_raises.
    unfold sizing, raw_sizing, m_float, math_log.
    destruct p as [[]|[]| |[] mp ep]; try discriminate Hp; reflexivity.
  - intros mp ep lp den Hlog Hden Hnan. apply initialize_raises.
    assert (Hlp : exists sz, float_mul (S754_zero false) lp = S754_zero sz).
    { unfold math_log, m_log in Hlog.
      destruct (c_log libc (S754_finite false mp ep)) as [sl|sl| |sl ml el];
        cbn in Hlog; try discriminate Hlog; injection Hlog as <-;
        eexists; reflexivity. }
    destruct Hlp as (sz & Hmul).
    assert (Hm : m_float libc 0 (S754_finite false mp ep)
                 = float_div (S754_zero (negb sz)) den).
    { unfold m_float. rewrite Hlog.
      change (float_of_int 0) with (Return (S754_zero false)).
      change (float_pow_2 libc (math_log_2 libc)
                ≫= (fun d => float_div (float_neg
                                          (float_mul (S754_zero false) lp)) d)
              = float_div (S754_zero (negb sz)) den).
      rewrite Hden, Hmul. reflexivity. }
    unfold sizing, raw_sizing. rewrite Hm.
    destruct den as [sd|sd| |sd md ed]; try discriminate Hnan; reflexivity.
Qed.

Lemma write_fields_twice (h : gmap string string) (m k n : Z) (p : float) :
  write_fields (write_fields h (metadata_mapping repr_float m k n p))
    (metadata_mapping repr_float m k n p)
  = write_fields h (metadata_mapping repr_float m k n p).
Proof.
  apply map_eq. intros f.
  destruct (written_fields repr_float h m k n p _ eq_refl)
    as (F1 & F2 & F3 & F4 & Fo).
  destruct (written_fields repr_float
              (write_fields h (metadata_mapping repr_float m k n p)) m k n p
              _ eq_refl) as (G1 & G2 & G3 & G4 & Go).
  destruct (decide (f = "size")) as [->|N1]; [congruence|].
  destruct (decide (f = "hash_functions")) as [->|N2]; [congruence|].
  destruct (decide (f = "expected_elements")) as [->|N3]; [congruence|].
  destruct (decide (f = "false_positive_rate")) as [->|N4]; [congruence|].
  apply Go; assumption.
Qed.

(** X14. Initialising twice with the same arguments leaves the store as
    initialising once does, from every state and whatever the outcome. *)
Theorem initialize_twice_same_store (c : client) (name : string) (n : Z)
    (p : float) (s : server) :
  db (server_after (initialize_bloom_filter libc repr_float c name n p)
        (server_after (initialize_bloom_filter libc repr_float c name n p) s))
  = db (server_after (initialize_bloom_filter libc repr_float c name n p) s).
Proof.
  unfold server_after. destruct (sizing libc n p) as [[m k]|e] eqn:Hs.
  2: { rewrite !(initialize_raises libc repr_float c name n p _ e Hs). reflexivity. }
  pose proof (metadata_key_ne_bits_key name) as Hne.
  rewrite (initialize_run libc repr_float c name n p s m k Hs). cbv zeta.
  assert (Hagain : forall h0 d cmds,
    db (initialize_bloom_filter libc repr_float c name n p
          (Server (<[bits_key name := RString (zero_bytes ((m + 7) / 8))]>
                     (<[metadata_key name :=
                          RHash (write_fields h0
                                   (metadata_mapping repr_float m k n p))]> d))
                  cmds)).2
    = <[bits_key name := RString (zero_bytes ((m + 7) / 8))]>
        (<[metadata_key name :=
             RHash (write_fields h0 (metadata_mapping repr_float m k n p))]> d)).
  { intros h0 d cmds. rewrite (initialize_run libc repr_float c name n p _ m k Hs).
    cbv zeta. cbn [db].
    rewrite lookup_insert_ne by congruence. rewrite lookup_insert_eq.
    cbn [snd db]. rewrite write_fields_twice.
    apply map_eq. intros key.
    destruct (decide (key = bits_key name)) as [->|K1];
      [rewrite !lookup_insert_eq; reflexivity|].
    rewrite !(lookup_insert_ne _ (bits_key name)) by congruence.
    destruct (decide (key = metadata_key name)) as [->|K2];
      [rewrite !lookup_insert_eq; reflexivity|].
    repeat (rewrite lookup_insert_ne by congruence). reflexivity. }
  destruct (db s !! metadata_key name) as [[buf|h]|] eqn:Hmeta.
  - cbn [snd]. rewrite (initialize_run libc repr_float c name n p _ m k Hs).
    cbv zeta. cbn [received db]. rewrite Hmeta. reflexivity.
  - cbn [snd]. apply Hagain.
  - cbn [snd]. apply Hagain.
Qed.

End SideBySide.

(** ** Metadata without a buffer, and keys with the same text *)

Lemma add_loop_runs (c : client) (name item_str : string) (m : Z)
    (l : list Z) (s : server) (buf : string) :
  0 < m ->
  bit_buffer (db s) (bits_key name) = Some buf ->
  exists s',
    for_in l (add_body c name item_str m) (mret true) s = (Return true, s').
Proof.
  intros Hm. revert s buf. induction l as [|i l IH]; intros s buf Hbuf.
  - exists s. reflexivity.
  - cbn [for_in]. rewrite run_bind, add_body_run.
    assert (Hoff : 0 <= Mmh3.hash item_str i mod m < m)
      by (apply Z.mod_pos_bound; exact Hm).
    destruct (Z.eqb_spec m 0); [lia|].
    destruct (Z.ltb_spec (Mmh3.hash item_str i mod m) 0); [lia|].
    rewrite Hbuf. eapply IH. unfold bit_buffer. cbn [db].
    rewrite lookup_insert_eq. reflexivity.
Qed.

(** X15. Metadata without a bit buffer (the state between the two writes
    of an initialisation, or after the buffer was deleted) is treated as an
    empty filter, not as an error: with [m > 0] and [k >= 1] every query
    returns [False], and an insert returns [True], creating the buffer, after
    which the inserted key is found. *)
Theorem missing_buffer_reads_as_empty (c : client) (name : string) (x : pyitem)
    (s : server) (h : gmap string string) (m k : Z) :
  db s !! metadata_key name = Some (RHash h) ->
  load_field (reply_dict c h) "size" = Return m ->
  load_field (reply_dict c h) "hash_functions" = Return k ->
  0 < m -> 1 <= k ->
  db s !! bits_key name = None ->
  result_of (check_bloom_filter c name x) s = Return false /\
  exists s',
    add_to_bloom_filter c name x s = (Return true, s') /\
    (exists buf, db s' !! bits_key name = Some (RString buf)) /\
    result_of (check_bloom_filter c name x) s' = Return true.
Proof.
  intros Hmeta Lm Lk Hm Hk Hnone.
  assert (Hbuf : bit_buffer (db s) (bits_key name) = Some EmptyString)
    by (unfold bit_buffer; rewrite Hnone; reflexivity).
  assert (Hne : reply_dict c h <> ∅) by (eapply load_field_nonempty; eauto).
  split.
  - unfold result_of.
    rewrite (check_run c name x s h m k EmptyString Hmeta Lm Lk Hm Hbuf).
    destruct (py_range_first k Hk) as (rest & ->). cbn [fst forallb].
    unfold getbit_at. destruct (byte_index _); reflexivity.
  - destruct (add_loop_runs c name (py_str x) m (py_range k)
                (received (HGETALL (metadata_key name)) s) EmptyString Hm Hbuf)
      as (s' & Hloop).
    assert (Hadd : add_to_bloom_filter c name x s = (Return true, s')).
    { rewrite add_unfold, run_bind, (hgetall_hash _ _ _ _ Hmeta).
      destruct (decide (reply_dict c h = ∅)); [contradiction|].
      rewrite run_lift_bind, Lm, run_lift_bind, Lk. exact Hloop. }
    exists s'. split; [exact Hadd|].
    destruct (add_returns _ _ _ _ _ _ Hadd)
      as (h1 & m1 & k1 & Hmeta1 & _ & Lm1 & Lk1 & Hbits).
    rewrite Hmeta in Hmeta1. inversion Hmeta1; subst h1.
    rewrite Lm in Lm1. rewrite Lk in Lk1. inversion Lm1; inversion Lk1; subst.
    split.
    + destruct (py_range_first k1 Hk) as (rest & E).
      destruct (Hbits 0) as (_ & _ & (buf & Hb & _));
        [rewrite E; left; reflexivity|]. eauto.
    + eapply check_all_on; eauto.
      pose proof (add_same_but c name x s (metadata_key name)
                    (metadata_key_ne_bits_key name)) as Es.
      rewrite Hadd in Es. cbn [snd] in Es. rewrite Es. exact Hmeta.
Qed.

(** X16. Keys are compared by their text: after an insert of [x] has
    returned, a query for any [y] with [str(y) == str(x)] (the int 42 and
    the text "42", say) returns [True], also after further inserts and
    queries. *)
Theorem same_text_same_key (c : client) (name : string) (x y : pyitem)
    (s s1 : server) (b : bool) (others : list call) :
  py_str x = py_str y ->
  add_to_bloom_filter c name x s = (Return b, s1) ->
  result_of (check_bloom_filter c name y) (run_calls others s1) = Return true.
Proof.
  intros Hstr Hadd.
  assert (Hg1 : grows s s1).
  { pose proof (monotone_add c name x s) as G. rewrite Hadd in G. exact G. }
  destruct (add_returns _ _ _ _ _ _ Hadd)
    as (h & m & k & Hmeta & Hne & Hm & Hk & Hbits).
  destruct (grows_run_calls others s1) as [Hh Hb].
  eapply check_all_on; eauto.
  - apply Hh, Hg1, Hmeta.
  - intros i Hi. rewrite <- Hstr. destruct (Hbits i Hi) as (? & ? & ?). auto.
Qed.

(** ** The further properties at sample inputs *)

Lemma add_writes_bits_key_only_witness :
  metadata_key "ids" <> bits_key "ids" /\
  db (server_after (add_to_bloom_filter sample_client "ids" (ItemStr "foo"))
        sample_server) !! metadata_key "ids"
  = db sample_server !! metadata_key "ids".
Proof.
  assert (H : metadata_key "ids" <> bits_key "ids")
    by (intros E; vm_compute in E; discriminate).
  split; [exact H|].
  exact (add_writes_bits_key_only sample_client "ids" (ItemStr "foo")
           sample_server (metadata_key "ids") H).
Defined.

Lemma bits_are_never_cleared_witness :
  bit_on (db sample_after_foo) (bits_key "ids") 88 /\
  bit_on (db (run_calls [CallAdd sample_client "ids" (ItemStr "bar");
                         CallCheck sample_client "ids" (ItemStr "baz")]
                sample_after_foo)) (bits_key "ids") 88.
Proof.
  assert (H : bit_on (db sample_after_foo) (bits_key "ids") 88).
  { exists sample_buffer. split; vm_compute; reflexivity. }
  split; [exact H|].
  exact (bits_are_never_cleared _ sample_after_foo (bits_key "ids") 88 H).
Defined.

Lemma add_issues_k_setbits_witness :
  db sample_server !! metadata_key "ids" = Some (RHash sample_metadata) /\
  load_field (reply_dict sample_client sample_metadata) "size" = Return 100 /\
  load_field (reply_dict sample_client sample_metadata) "hash_functions"
    = Return 3 /\
  add_to_bloom_filter sample_client "ids" (ItemStr "foo") sample_server
    = (Return true, sample_after_foo) /\
  true = true /\
  log sample_after_foo =
  (log sample_server ++ HGETALL (metadata_key "ids")
     :: ((fun i => SETBIT (bits_key "ids")
                     (Mmh3.hash (py_str (ItemStr "foo")) i mod 100) 1)
           <$> py_range 3))%list.
Proof.
  assert (H1 : db sample_server !! metadata_key "ids"
               = Some (RHash sample_metadata)) by (vm_compute; reflexivity).
  assert (H2 : load_field (reply_dict sample_client sample_metadata) "size"
               = Return 100) by (vm_compute; reflexivity).
  assert (H3 : load_field (reply_dict sample_client sample_metadata)
                 "hash_functions" = Return 3) by (vm_compute; reflexivity).
  assert (H4 : add_to_bloom_filter sample_client "ids" (ItemStr "foo")
                 sample_server = (Return true, sample_after_foo))
    by (vm_compute; reflexivity).
  repeat (split; [assumption|]).
  exact (add_issues_k_setbits sample_client "ids" (ItemStr "foo") sample_server
           sample_after_foo true sample_metadata 100 3 H1 H2 H3 H4).
Defined.

Lemma sample_server_ready : filter_ready (db sample_server) "ids" 100 3.
Proof.
  exists sample_metadata, (zero_bytes 13).
  repeat split; vm_compute; reflexivity.
Defined.

Lemma ready_filter_accepts_inserts_witness :
  decode_responses sample_client = false /\ 0 < 100 /\
  filter_ready (db sample_server) "ids" 100 3 /\
  exists s',
    add_to_bloom_filter sample_client "ids" (ItemInt 7) sample_server
      = (Return true, s') /\
    filter_ready (db s') "ids" 100 3 /\
    result_of (check_bloom_filter sample_client "ids" (ItemInt 7)) s'
      = Return true.
Proof.
  split; [reflexivity|]. split; [reflexivity|].
  split; [exact sample_server_ready|].
  exact (ready_filter_accepts_inserts sample_client "ids" (ItemInt 7)
           sample_server 100 3 eq_refl eq_refl sample_server_ready).
Defined.

Lemma initialize_gives_empty_filter_witness :
  sizing sample_clib 1000 default_false_positive_rate = Return (9585, 6) /\
  (forall buf, db (Server ∅ []) !! metadata_key "ids" <> Some (RString buf)) /\
  exists s1,
    initialize_bloom_filter sample_clib sample_repr sample_client "ids" 1000
      default_false_positive_rate (Server ∅ [])
      = (Return (FilterInfo "ids" 9585 6 1000 default_false_positive_rate), s1) /\
    100 <= 9585 /\ 1 <= 6 /\
    filter_ready (db s1) "ids" 9585 6 /\
    log s1 = [HSET (metadata_key "ids")
                (metadata_mapping sample_repr 9585 6 1000
                   default_false_positive_rate);
              SET (bits_key "ids") (zero_bytes ((9585 + 7) / 8))] /\
    forall c' x, decode_responses c' = false ->
      check_bloom_filter c' "ids" x s1 =
      (Return false,
       Server (db s1)
         (log s1 ++ [HGETALL (metadata_key "ids");
                     GETBIT (bits_key "ids") (Mmh3.hash (py_str x) 0 mod 9585)])).
Proof.
  assert (H1 : sizing sample_clib 1000 default_false_positive_rate
               = Return (9585, 6)) by (vm_compute; reflexivity).
  assert (H3 : forall buf,
             db (Server ∅ []) !! metadata_key "ids" <> Some (RString buf)).
  { intros buf E. cbn [db] in E. rewrite lookup_empty in E. discriminate. }
  repeat (split; [assumption|]).
  exact (initialize_gives_empty_filter sample_clib sample_repr sample_client
           "ids" 1000 default_false_positive_rate (Server ∅ []) 9585 6 H1 H3).
Defined.

Lemma positive_answers_persist_witness :
  result_of (check_bloom_filter sample_client "ids" (ItemStr "foo"))
    sample_after_foo = Return true /\
  result_of (check_bloom_filter sample_client "ids" (ItemStr "foo"))
    (run_calls [CallAdd sample_client "ids" (ItemStr "bar")] sample_after_foo)
  = Return true.
Proof.
  assert (H : result_of (check_bloom_filter sample_client "ids" (ItemStr "foo"))
                sample_after_foo = Return true) by (vm_compute; reflexivity).
  split; [exact H|].
  exact (positive_answers_persist sample_client "ids" (ItemStr "foo")
           sample_after_foo _ H).
Defined.

Lemma no_hash_functions_accepts_everything_witness :
  db sample_no_hash_server !! metadata_key "ids"
    = Some (RHash (<["size" := "100"]> (<["hash_functions" := "0"]> ∅))) /\
  0 <= 0 /\
  add_to_bloom_filter sample_client "ids" (ItemStr "foo") sample_no_hash_server
    = (Return true, received (HGETALL (metadata_key "ids")) sample_no_hash_server) /\
  check_bloom_filter sample_client "ids" (ItemStr "never") sample_no_hash_server
    = (Return true, received (HGETALL (metadata_key "ids")) sample_no_hash_server).
Proof.
  assert (H1 : db sample_no_hash_server !! metadata_key "ids"
    = Some (RHash (<["size" := "100"]> (<["hash_functions" := "0"]> ∅))))
    by (vm_compute; reflexivity).
  split; [exact H1|]. split; [discriminate|]. split.
  - apply (no_hash_functions_accepts_everything sample_client "ids"
             (ItemStr "foo") sample_no_hash_server _ 100 0 H1);
      [vm_compute; reflexivity|vm_compute; reflexivity|discriminate].
  - apply (no_hash_functions_accepts_everything sample_client "ids"
             (ItemStr "never") sample_no_hash_server _ 100 0 H1);
      [vm_compute; reflexivity|vm_compute; reflexivity|discriminate].
Defined.

Lemma zero_size_raises_zero_division_witness :
  db sample_zero_size_server !! metadata_key "ids"
    = Some (RHash sample_zero_size_metadata) /\
  load_field (reply_dict sample_client sample_zero_size_metadata) "size"
    = Return 0 /\
  load_field (reply_dict sample_client sample_zero_size_metadata)
    "hash_functions" = Return 3 /\
  1 <= 3 /\
  add_to_bloom_filter sample_client "ids" (ItemStr "foo") sample_zero_size_server
    = (Raise ZeroDivisionError,
       received (HGETALL (metadata_key "ids")) sample_zero_size_server) /\
  check_bloom_filter sample_client "ids" (ItemStr "foo") sample_zero_size_server
    = (Raise ZeroDivisionError,
       received (HGETALL (metadata_key "ids")) sample_zero_size_server).
Proof.
  assert (H1 : db sample_zero_size_server !! metadata_key "ids"
               = Some (RHash sample_zero_size_metadata))
    by (vm_compute; reflexivity).
  assert (H2 : load_field (reply_dict sample_client sample_zero_size_metadata)
                 "size" = Return 0) by (vm_compute; reflexivity).
  assert (H3 : load_field (reply_dict sample_client sample_zero_size_metadata)
                 "hash_functions" = Return 3) by (vm_compute; reflexivity).
  assert (H4 : 1 <= 3) by discriminate.
  repeat (split; [assumption|]).
  exact (zero_size_raises_zero_division sample_client "ids" (ItemStr "foo")
           sample_zero_size_server sample_zero_size_metadata 3 H1 H2 H3 H4).
Defined.

Lemma other_filters_are_untouched_witness :
  "ids" <> "other" /\
  result_of (check_bloom_filter sample_client "other" (ItemStr "foo"))
    (server_after (add_to_bloom_filter sample_client "ids" (ItemStr "foo"))
       sample_server)
  = result_of (check_bloom_filter sample_client "other" (ItemStr "foo"))
      sample_server /\
  result_of (check_bloom_filter sample_client "other" (ItemStr "foo"))
    (server_after (initialize_bloom_filter sample_clib sample_repr sample_client
                     "ids" 1000 default_false_positive_rate) sample_server)
  = result_of (check_bloom_filter sample_client "other" (ItemStr "foo"))
      sample_server.
Proof.
  assert (H : "ids" <> "other") by discriminate.
  split; [exact H|].
  exact (other_filters_are_untouched sample_clib sample_repr sample_client
           sample_client "ids" "other" (ItemStr "foo") (ItemStr "foo") 1000
           default_false_positive_rate sample_server H).
Defined.

Lemma invalid_parameters_raise_before_writing_witness :
  SFleb (S754_zero false) (S754_zero false) = true /\
  math_log sample_clib default_false_positive_rate
    = Return (S754_finite true 5184960683398421 (-50)) /\
  float_pow_2 sample_clib (math_log_2 sample_clib)
    = Return (S754_finite false 8655072057804174 (-54)) /\
  initialize_bloom_filter sample_clib sample_repr sample_client "ids" 1000
    (S754_zero false) sample_server
    = (Raise (ValueError "math domain error"), sample_server) /\
  initialize_bloom_filter sample_clib sample_repr sample_client "ids" 0
    default_false_positive_rate sample_server
    = (Raise ZeroDivisionError, sample_server).
Proof.
  assert (H1 : SFleb (S754_zero false) (S754_zero false) = true) by reflexivity.
  assert (H2 : math_log sample_clib default_false_positive_rate
               = Return (S754_finite true 5184960683398421 (-50)))
    by (vm_compute; reflexivity).
  assert (H3 : float_pow_2 sample_clib (math_log_2 sample_clib)
               = Return (S754_finite false 8655072057804174 (-54)))
    by (vm_compute; reflexivity).
  split; [exact H1|]. split; [exact H2|]. split; [exact H3|]. split.
  - exact (proj1 (invalid_parameters_raise_before_writing sample_clib sample_repr
                    sample_client "ids" sample_server) 1000 (S754_zero false) H1).
  - exact (proj2 (invalid_parameters_raise_before_writing sample_clib sample_repr
                    sample_client "ids" sample_server)
             5764607523034235%positive (-59) _ _ H2 H3 eq_refl).
Defined.

Lemma missing_buffer_reads_as_empty_witness :
  db sample_no_bits_server !! metadata_key "ids" = Some (RHash sample_metadata) /\
  0 < 100 /\ 1 <= 3 /\
  db sample_no_bits_server !! bits_key "ids" = None /\
  result_of (check_bloom_filter sample_client "ids" (ItemStr "foo"))
    sample_no_bits_server = Return false /\
  exists s',
    add_to_bloom_filter sample_client "ids" (ItemStr "foo") sample_no_bits_server
      = (Return true, s') /\
    (exists buf, db s' !! bits_key "ids" = Some (RString buf)) /\
    result_of (check_bloom_filter sample_client "ids" (ItemStr "foo")) s'
      = Return true.
Proof.
  assert (H1 : db sample_no_bits_server !! metadata_key "ids"
               = Some (RHash sample_metadata)) by (vm_compute; reflexivity).
  assert (H2 : 0 < 100) by reflexivity.
  assert (H3 : 1 <= 3) by discriminate.
  assert (H4 : db sample_no_bits_server !! bits_key "ids" = None)
    by (vm_compute; reflexivity).
  repeat (split; [assumption|]).
  apply (missing_buffer_reads_as_empty sample_client "ids" (ItemStr "foo")
           sample_no_bits_server sample_metadata 100 3 H1);
    [vm_compute; reflexivity|vm_compute; reflexivity|exact H2|exact H3|exact H4].
Defined.

Lemma same_text_same_key_witness :
  py_str (ItemInt 42) = py_str (ItemStr "42") /\
  add_to_bloom_filter sample_client "ids" (ItemInt 42) sample_server
    = (Return true,
       server_after (add_to_bloom_filter sample_client "ids" (ItemInt 42))
         sample_server) /\
  result_of (check_bloom_filter sample_client "ids" (ItemStr "42"))
    (run_calls [CallAdd sample_client "ids" (ItemStr "foo")]
       (server_after (add_to_bloom_filter sample_client "ids" (ItemInt 42))
          sample_server))
  = Return true.
Proof.
  assert (H1 : py_str (ItemInt 42) = py_str (ItemStr "42")) by reflexivity.
  assert (H2 : add_to_bloom_filter sample_client "ids" (ItemInt 42) sample_server
    = (Return true,
       server_after (add_to_bloom_filter sample_client "ids" (ItemInt 42))
         sample_server)) by (vm_compute; reflexivity).
  split; [exact H1|]. split; [exact H2|].
  exact (same_text_same_key sample_client "ids" (ItemInt 42) (ItemStr "42")
           sample_server _ true _ H1 H2).
Defined.

